(** * PublicAutoTrade: bar aggregation, stream bar handling and order lifecycle

    A shallow embedding of
    - [tradeBot/functions/aggregateTimeFrames.py] (module [Aggregator]),
    - [account/acc.py] and [backend/queries/active_positions.py]
      (modules [PyFloat] and [Account]),
    - [tradeBot/get_data/schwab_automatic_stream.py] (module [Stream]),
    followed by the properties proved about them.

    Conventions.  A Python float is represented by the rational number it
    denotes (a finite binary64 value); [NaN] cells of a pandas column are
    [None].  Timestamps are wall-clock milliseconds as integers (the
    conversion of the index to the exchange time zone is a fixed shift and is
    not represented).  Exceptions are values of type [PyExc] carried by
    [result].  What pandas and numpy do and the source does not fix (the
    arithmetic of a column's number type, the order an unstable sort leaves
    among equal keys) is a parameter of type [Pandas]; what the brokerage,
    the database and the token endpoint answer are parameters as well. *)

From Stdlib Require Import ZArith QArith Qround Qabs Qpower List String Ascii Bool.
From Stdlib Require Import Lia Lqa.
From Stdlib Require Import Permutation Sorted.
Import ListNotations.
Open Scope Z_scope.

(** ** Python exceptions and results *)

Inductive PyExc : Type :=
| ValueError (msg : string)
| TypeError (msg : string)
| AttributeError (msg : string)
| ZeroDivisionError
| StrategyRaised.

Inductive result (A : Type) : Type :=
| Ok (a : A)
| Raise (e : PyExc).

Arguments Ok {A} a.
Arguments Raise {A} e.

(** ** Frames: the pandas objects the program passes around *)

Module Frame.

(** One row of an OHLCV frame.  [ts] is the row's index value; a cell is
    [None] when pandas holds [NaN] there. *)
Record Bar : Type := mkBar {
  ts : Z;
  symbol : option string;
  open : option Q;
  high : option Q;
  low : option Q;
  close : option Q;
  volume : option Q
}.

Inductive IndexKind : Type := DatetimeIndex | PlainIndex.

(** [columns] lists the columns the frame has; a row's cell for a column
    that is not listed carries no meaning. *)
Record DataFrame : Type := mkDF {
  index : IndexKind;
  columns : list string;
  rows : list Bar
}.

Definition required_cols : list string :=
  ["symbol"; "open"; "high"; "low"; "close"; "volume"]%string.

(** [pd.DataFrame(columns=[...])]: no rows, a default (non-datetime) index. *)
Definition empty_frame : DataFrame := mkDF PlainIndex required_cols [].

(** [df.empty]: some axis has length zero. *)
Definition df_empty (df : DataFrame) : bool :=
  match rows df, columns df with
  | [], _ => true
  | _, [] => true
  | _, _ => false
  end.

(** [len(df)] *)
Definition len (df : DataFrame) : Z := Z.of_nat (List.length (rows df)).

Definition has_col (df : DataFrame) (c : string) : bool :=
  existsb (String.eqb c) (columns df).

Definition is_datetime (df : DataFrame) : bool :=
  match index df with DatetimeIndex => true | PlainIndex => false end.

(** Stable insertion by index value: the new row goes after the rows with
    the same or an earlier timestamp. *)
Fixpoint insert_bar (b : Bar) (l : list Bar) : list Bar :=
  match l with
  | [] => [b]
  | x :: r => if ts b <? ts x then b :: x :: r else x :: insert_bar b r
  end.

(** The rows in time order by a stable sort: rows of equal timestamp keep
    their order.  This is the sort of [resample], which uses mergesort. *)
Definition sort_rows (l : list Bar) : list Bar :=
  fold_left (fun acc b => insert_bar b acc) l [].

(** Index values in non-decreasing order ([is_monotonic_increasing]). *)
Fixpoint monotonic (l : list Bar) : bool :=
  match l with
  | [] => true
  | x :: r =>
      match r with
      | [] => true
      | y :: _ => (ts x <=? ts y) && monotonic r
      end
  end.

(** What the program leaves to pandas and numpy and the source does not
    fix.  [group_sum df l] is the sum of the values [l] of a group of the
    volume column of [df], as the number type of that column adds them (an
    integer column wraps around, a float column rounds).  [tie_before rows]
    tells which of two rows of equal index value the default sort of
    [sort_index], which is not stable, puts first when it sorts [rows]. *)
Record Pandas : Type := mkPandas {
  group_sum : DataFrame -> list Q -> Q;
  tie_before : list Bar -> Bar -> Bar -> bool
}.

(** Insertion by index value, [before] deciding between equal timestamps. *)
Fixpoint insert_by (before : Bar -> Bar -> bool) (b : Bar) (l : list Bar)
  : list Bar :=
  match l with
  | [] => [b]
  | x :: r =>
      if (ts b <? ts x) || ((ts b =? ts x) && before b x) then b :: x :: r
      else x :: insert_by before b r
  end.

Definition sort_rows_by (before : Bar -> Bar -> bool) (l : list Bar) : list Bar :=
  fold_left (fun acc b => insert_by before b acc) l [].

(** [df.sort_index()]: a frame whose index is already increasing is returned
    as it is; otherwise the rows are put in time order, rows of equal
    timestamp in the order the sort happens to leave them. *)
Definition sort_index (pd : Pandas) (df : DataFrame) : DataFrame :=
  if monotonic (rows df) then df
  else mkDF (index df) (columns df)
            (sort_rows_by (tie_before pd (rows df)) (rows df)).

Fixpoint union_cols (a b : list string) : list string :=
  match b with
  | [] => a
  | c :: r =>
      if existsb (String.eqb c) a then union_cols a r
      else union_cols (a ++ [c]) r
  end.

(** [pd.concat([a, b])]: rows of [a] then rows of [b], columns united; the
    result is datetime-indexed when both are. *)
Definition concat (a b : DataFrame) : DataFrame :=
  mkDF (match index a, index b with
        | DatetimeIndex, DatetimeIndex => DatetimeIndex
        | _, _ => PlainIndex
        end)
       (union_cols (columns a) (columns b))
       (rows a ++ rows b).

End Frame.

(** ** aggregateTimeFrames.py *)

Module Aggregator.
Import Frame.

Definition minute_ms : Z := 60000.
Definition day_ms : Z := 86400000.

(** [Timestamp.normalize()]: midnight of the timestamp's day. *)
Definition normalize (t : Z) : Z := day_ms * (t / day_ms).

(** The non-[NaN] values of a column, in row order. *)
Fixpoint valid {A : Type} (l : list (option A)) : list A :=
  match l with
  | [] => []
  | Some x :: r => x :: valid r
  | None :: r => valid r
  end.

Definition q_max (a b : Q) : Q := if Qle_bool a b then b else a.
Definition q_min (a b : Q) : Q := if Qle_bool b a then b else a.

(** The group reductions of pandas: all of them skip [NaN]; on a group
    without a valid value [first], [max], [min] and [last] give [NaN] and
    [sum] gives the sum of no value.  [first], [max], [min] and [last] pick
    one of the values; [sum] is the only one that computes, and it does so
    in the number type of the column. *)
Definition agg_first {A : Type} (l : list (option A)) : option A :=
  hd_error (valid l).

Definition agg_last {A : Type} (l : list (option A)) : option A :=
  hd_error (rev (valid l)).

Definition agg_max (l : list (option Q)) : option Q :=
  match valid l with
  | [] => None
  | x :: r => Some (fold_left q_max r x)
  end.

Definition agg_min (l : list (option Q)) : option Q :=
  match valid l with
  | [] => None
  | x :: r => Some (fold_left q_min r x)
  end.

Definition agg_sum (pd : Pandas) (df : DataFrame) (l : list (option Q))
  : option Q :=
  Some (group_sum pd df (valid l)).

(** The left edges of the bins of [resample(rule)] for a time-sorted list of
    rows: bins of [width] milliseconds, closed on the left, labelled by
    their left edge, anchored at midnight of the first row's day
    ([origin='start_day']), from the bin of the first row to the bin of the
    last row, empty bins in between included. *)
Definition bin_edges (sorted : list Bar) (width : Z) : list Z :=
  match sorted with
  | [] => []
  | first :: _ =>
      let origin := normalize (ts first) in
      let kmin := (ts first - origin) / width in
      let kmax := (ts (last sorted first) - origin) / width in
      map (fun i => origin + (kmin + Z.of_nat i) * width)
          (seq 0 (Z.to_nat (kmax - kmin + 1)))
  end.

Definition in_bin (start width : Z) (b : Bar) : bool :=
  (start <=? ts b) && (ts b <? start + width).

(** [resample(rule)]: the rows are put in time order (by a stable sort,
    for the sake of [first] and [last]) and each bin gets the rows that fall
    in it. *)
Definition resample (l : list Bar) (width : Z) : list (Z * list Bar) :=
  let sorted := sort_rows l in
  map (fun start => (start, filter (in_bin start width) sorted))
      (bin_edges sorted width).

(** One output row: the six resampled series share their index, so the row
    of a bin is made of the six reductions of that bin. *)
Definition aggregate_bin (pd : Pandas) (df : DataFrame) (g : Z * list Bar) : Bar :=
  let members := snd g in
  mkBar (fst g)
        (agg_first (map symbol members))
        (agg_first (map open members))
        (agg_max (map high members))
        (agg_min (map low members))
        (agg_last (map close members))
        (agg_sum pd df (map volume members)).

Definition is_some {A : Type} (o : option A) : bool :=
  match o with Some _ => true | None => false end.

(** [out.dropna(subset=["open", "high", "low", "close"])] *)
Definition dropna_ohlc (l : list Bar) : list Bar :=
  filter (fun b => is_some (open b) && is_some (high b)
                   && is_some (low b) && is_some (close b)) l.

Definition missing_cols (df : DataFrame) : list string :=
  filter (fun c => negb (has_col df c)) required_cols.

(** [aggregate_time_frame(df, aggregation)].  The arguments are typed, so
    the [None] and [isinstance] checks are not represented. *)
Definition aggregate_time_frame (pd : Pandas) (df : DataFrame) (aggregation : Z)
  : result DataFrame :=
  if df_empty df then Ok empty_frame
  else if negb (is_datetime df) then
    Raise (ValueError "DataFrame index must be a DatetimeIndex")
  else if aggregation <=? 0 then
    Raise (ValueError "Aggregation must be positive")
  else if len df <? aggregation then Ok empty_frame
  else
    match missing_cols df with
    | _ :: _ => Raise (ValueError "Missing required columns")
    | [] =>
        let out :=
          dropna_ohlc
            (map (aggregate_bin pd df)
                 (resample (rows df) (aggregation * minute_ms))) in
        match out with
        | [] => Ok empty_frame
        | _ :: _ => Ok (mkDF DatetimeIndex required_cols out)
        end
    end.

(** The frame of [create_sample_df(minutes)] in the unit test: one-minute
    bars from 2025-10-27 09:30, bar [i] with open [i], high [i+1], low [i],
    close [i+1] and volume 100. *)
Definition sample_start : Z := 20388 * day_ms + 570 * minute_ms.

Definition sample_bar (i : nat) : Bar :=
  let z := Z.of_nat i in
  mkBar (sample_start + z * minute_ms) (Some "test"%string)
        (Some (inject_Z z)) (Some (inject_Z (z + 1)))
        (Some (inject_Z z)) (Some (inject_Z (z + 1)))
        (Some (inject_Z 100)).

Definition create_sample_df (minutes : nat) : DataFrame :=
  mkDF DatetimeIndex required_cols (map sample_bar (seq 0 minutes)).

End Aggregator.

(** ** Python floats and [round] *)

Module PyFloat.
Local Open Scope Q_scope.

Definition Qlt_bool (a b : Q) : bool := negb (Qle_bool b a).

(** Rounding of a rational to an integer, ties to the even neighbour. *)
Definition round_half_even (q : Q) : Z :=
  let f := Qfloor q in
  match Qcompare (q - inject_Z f) (1 # 2) with
  | Lt => f
  | Gt => (f + 1)%Z
  | Eq => if Z.even f then f else (f + 1)%Z
  end.

(** The exponent [e] with [2^e <= a < 2^(e+1)], for [a > 0]. *)
Definition ilog2 (a : Q) : Z :=
  let e0 := (Z.log2 (Qnum a) - Z.log2 (Zpos (Qden a)))%Z in
  if Qle_bool (2 ^ e0) a then e0 else (e0 - 1)%Z.

(** The binary64 value nearest to a rational (ties to even): 53 significant
    bits, least exponent -1074.  The result is in lowest terms.  Values
    beyond the binary64 range do not occur for prices and are not
    represented. *)
Definition b64 (q : Q) : Q :=
  if Qeq_bool q 0 then 0
  else
    let a := Qabs q in
    let e := Z.max (ilog2 a - 52) (-1074) in
    let m := round_half_even (a / 2 ^ e) in
    Qred ((if Qle_bool 0 q then 1 else - (1)) * inject_Z m * 2 ^ e).

(** The float a decimal literal of the source denotes. *)
Definition float_lit (q : Q) : Q := b64 q.

(** [round(x, ndigits)] on a float, as CPython computes it: the exact value
    of [x] is rounded correctly (ties to even) to [ndigits] decimal places,
    and the decimal obtained is converted back to the nearest float. *)
Definition py_round (x : Q) (ndigits : Z) : Q :=
  b64 (inject_Z (round_half_even (x * 10 ^ ndigits)) / 10 ^ ndigits).

(** [round(x, ndigits)] on a [numpy.float64], as numpy computes it: [x] is
    multiplied by the power of ten, the product (a float) is rounded to the
    nearest integer, ties to even, and divided by the power of ten. *)
Definition np_round (x : Q) (ndigits : Z) : Q :=
  b64 (inject_Z (round_half_even (b64 (x * 10 ^ ndigits))) / 10 ^ ndigits).

(** What kind of number a price is at run time: a Python number (a [float],
    or the [int] 0 of a market order), or a [numpy.float64], as are the
    cells read from a frame.  [round] depends on it. *)
Inductive number_kind : Type := python_float | numpy_float64.

Definition round_as (k : number_kind) (x : Q) (ndigits : Z) : Q :=
  match k with
  | python_float => py_round x ndigits
  | numpy_float64 => np_round x ndigits
  end.

End PyFloat.

(** ** Two number types of a volume column *)

Module Columns.
Import Frame PyFloat.
Local Open Scope Q_scope.

(** One step of the compensated (Kahan) summation of the group sum of
    pandas on a float column: the state is the running sum and the
    compensation. *)
Definition kahan_step (st : Q * Q) (val : Q) : Q * Q :=
  let y := b64 (val - snd st) in
  let t := b64 (fst st + y) in
  (t, b64 (b64 (t - fst st) - y)).

(** The sum of a group of a [float64] column. *)
Definition float64_sum (l : list Q) : Q := fst (fold_left kahan_step l (0, 0)).

(** Two's complement wrap-around to 64 bits. *)
Definition wrap64 (z : Z) : Z := ((z + 2 ^ 63) mod 2 ^ 64 - 2 ^ 63)%Z.

(** The sum of a group of an [int64] column (whose values are integers). *)
Definition int64_sum (l : list Q) : Q :=
  inject_Z (fold_left (fun acc v => wrap64 (acc + Qfloor v)) l 0%Z).

(** pandas on frames whose volume column is [float64], and on frames whose
    volume column is [int64]; in both the sort happens to keep rows of equal
    timestamp in their order. *)
Definition float64_pandas : Pandas :=
  mkPandas (fun _ => float64_sum) (fun _ _ _ => false).

Definition int64_pandas : Pandas :=
  mkPandas (fun _ => int64_sum) (fun _ _ _ => false).

End Columns.

(** ** backend/queries/active_positions.py and account/acc.py *)

Module Account.
Import PyFloat.

(** *** The position store *)

Record ActivePosition : Type := mkPos {
  strategy_id : Z;
  order_id : string;
  quantity : Q;
  entry_price : Q
}.

(** The [active_positions] table.  [get_order_id_list] and
    [delete_active_positions] are taken to be answered; whether the INSERT
    of [add_active_position] is, is for [db_insert] below to say. *)
Definition Store : Type := list ActivePosition.

Definition add_active_position (sid : Z) (oid : string) (qty price : Q)
  (db : Store) : Store :=
  db ++ [mkPos sid oid qty price].

Definition get_order_id_list (sid : Z) (db : Store) : list string :=
  map order_id (filter (fun p => strategy_id p =? sid)%Z db).

Definition delete_active_positions (sid : Z) (db : Store) : Store :=
  filter (fun p => negb (strategy_id p =? sid)%Z) db.

(** *** The brokerage, seen from the program *)

(** A JSON value of an order document, as far as the program looks at it. *)
Inductive jval : Type :=
| JNull
| JNum (q : Q)
| JStr (s : string).

Definition dict : Type := list (string * jval).

Fixpoint dict_get (d : dict) (k : string) : option jval :=
  match d with
  | [] => None
  | (k', v) :: r => if String.eqb k k' then Some v else dict_get r k
  end.

(** What [requests.post] does: an exception, or a response with its status
    code and [Location] header. *)
Inductive post_outcome : Type :=
| PostTimeout
| PostConnectionError
| PostOtherError
| PostResponse (status_code : Z) (location : option string).

(** The JSON body of an order ([order_data]); [price] is the value whose
    [str] is sent, [cancelTime] the number of minutes from now. *)
Record order_data : Type := mkOrder {
  orderType : string;
  instruction : string;
  order_quantity : Q;
  order_symbol : string;
  price : option Q;
  cancelTime : option Z
}.

(** The services the order functions call.  The answers of the brokerage:
    to an order placement, to an order lookup ([None]: the lookup failed,
    [get_orders] returns [None]) and to a cancellation ([delete_orders]
    returns this boolean).  And the answer of the database to the INSERT of
    a row: [false] when [add_active_position] raises (no connection, a
    failing statement). *)
Record Broker : Type := mkBroker {
  post_order : order_data -> post_outcome;
  get_orders : string -> option dict;
  delete_orders : string -> bool;
  db_insert : ActivePosition -> bool
}.

Inductive Level : Type := DEBUG | INFO | WARNING | ERROR | CRITICAL.

Definition LogRecord : Type := (Level * string)%type.

(** The state the order functions act on: the position store, the log, the
    orders posted to the brokerage and the cancellations requested, oldest
    first. *)
Record World : Type := mkWorld {
  positions : Store;
  log : list LogRecord;
  posted : list order_data;
  cancelled : list string
}.

Definition set_positions (w : World) (db : Store) : World :=
  mkWorld db (log w) (posted w) (cancelled w).

Definition add_log (w : World) (r : LogRecord) : World :=
  mkWorld (positions w) (log w ++ [r]) (posted w) (cancelled w).

Definition add_posted (w : World) (o : order_data) : World :=
  mkWorld (positions w) (log w) (posted w ++ [o]) (cancelled w).

Definition add_cancelled (w : World) (oid : string) : World :=
  mkWorld (positions w) (log w) (posted w) (cancelled w ++ [oid]).

(** *** Strings *)

Definition upper_ascii (c : ascii) : ascii :=
  let n := nat_of_ascii c in
  if ((97 <=? n) && (n <=? 122))%nat then ascii_of_nat (n - 32) else c.

Fixpoint upper (s : string) : string :=
  match s with
  | EmptyString => EmptyString
  | String c r => String (upper_ascii c) (upper r)
  end.

Fixpoint last_segment_from (s acc : string) : string :=
  match s with
  | EmptyString => acc
  | String c r =>
      if Ascii.eqb c "/"%char then last_segment_from r EmptyString
      else last_segment_from r (acc ++ String c EmptyString)
  end.

(** [location.split("/")[-1]] *)
Definition last_segment (s : string) : string := last_segment_from s EmptyString.

Definition nonempty (s : string) : bool :=
  match s with EmptyString => false | String _ _ => true end.

(** *** acc.py *)

(** [round_price(price)], [k] being the kind of number [price] is. *)
Definition round_price (k : number_kind) (price : Q) : Q :=
  if Qlt_bool price 1 then round_as k price 4 else round_as k price 2.

(** [send_orders]: the result is the order id, [None] when the placement
    failed; [Raise] when the request is refused before any network call. *)
Definition send_orders (k : number_kind) (b : Broker) (w : World) (quantity : Q)
  (exp_min : Z) (price : Q) (symbol : string) (instruction : string)
  : result (option string) * World :=
  if negb (nonempty symbol) then (Raise (ValueError "symbol must be provided"), w)
  else if Qle_bool quantity 0 then
    (Raise (ValueError "quantity must be greater than zero"), w)
  else
    let price := round_price k price in
    let order_type := if Qeq_bool price 0 then "MARKET"%string else "LIMIT"%string in
    let data :=
      mkOrder order_type (upper instruction) quantity symbol
              (if Qlt_bool 0 price then Some price else None)
              (if (0 <? exp_min)%Z then Some exp_min else None) in
    let w := add_posted w data in
    match post_order b data with
    | PostTimeout => (Ok None, add_log w (ERROR, "Order request timed out."%string))
    | PostConnectionError =>
        (Ok None, add_log w (ERROR, "Connection error while sending order."%string))
    | PostOtherError =>
        (Ok None, add_log w (ERROR, "Unexpected error sending order"%string))
    | PostResponse status location =>
        if ((400 <=? status) && (status <? 600))%Z then
          (Ok None, add_log w (ERROR, "HTTP error"%string))
        else if (status =? 201)%Z then
          match location with
          | Some l => if nonempty l then (Ok (Some (last_segment l)), w)
                      else (Ok None, w)
          | None => (Ok None, w)
          end
        else (Ok None, add_log w (ERROR, "Unexpected response"%string))
    end.

(** [v == s] for the result [v] of [dict.get] and a string [s]. *)
Definition equals_str (v : option jval) (s : string) : bool :=
  match v with
  | Some (JStr s') => String.eqb s' s
  | _ => false
  end.

(** One turn of the SELL loop of [send_strategy_orders] for an order id. *)
Definition sell_one (k : number_kind) (b : Broker) (w : World) (price : Q)
  (symbol : string) (oid : string) : result unit * World :=
  match get_orders b oid with
  | None => (Ok tt, w)
  | Some [] => (Ok tt, w)
  | Some order =>
      if equals_str (dict_get order "status") "FILLED" then
        match dict_get order "filledQuantity" with
        | None =>
            (* the default 0.0 is not greater than 0 *)
            (Ok tt, w)
        | Some (JNum filled_qty) =>
            if Qlt_bool 0 filled_qty then
              match send_orders k b w filled_qty 1440 price symbol "SELL" with
              | (Raise e, w') => (Raise e, w')
              | (Ok _, w') => (Ok tt, w')
              end
            else (Ok tt, w)
        | Some _ =>
            (Raise (TypeError "'>' not supported between instances"), w)
        end
      else let _ := delete_orders b oid in (Ok tt, add_cancelled w oid)
  end.

(** The [for order_id in order_id_list] loop; an exception ends it. *)
Fixpoint sell_loop (k : number_kind) (b : Broker) (w : World) (price : Q)
  (symbol : string) (ids : list string) : result unit * World :=
  match ids with
  | [] => (Ok tt, w)
  | oid :: rest =>
      match sell_one k b w price symbol oid with
      | (Raise e, w') => (Raise e, w')
      | (Ok _, w') => sell_loop k b w' price symbol rest
      end
  end.

(** [send_strategy_orders]; [k] is the kind of number [price] is.  In the
    BUY branch the insert of the position has a [try] of its own: when it
    raises, the error is logged and the function goes on. *)
Definition send_strategy_orders (k : number_kind) (b : Broker) (w : World)
  (quantity : Q) (exp_min : Z) (symbol : string) (sid : Z) (price : Q)
  (instruction : string) : result (option string) * World :=
  let price := round_price k price in
  let instruction := upper instruction in
  if negb (String.eqb instruction "BUY" || String.eqb instruction "SELL") then
    (Raise (ValueError "Instruction must be 'BUY' or 'SELL'"), w)
  else if String.eqb instruction "BUY" then
    match send_orders k b w quantity exp_min price symbol "BUY" with
    | (Raise e, w') => (Raise e, w')
    | (Ok (Some oid), w') =>
        if nonempty oid then
          let w' :=
            if db_insert b (mkPos sid oid quantity price) then
              set_positions w'
                (add_active_position sid oid quantity price (positions w'))
            else add_log w' (ERROR, "Error inserting order to DB"%string) in
          (Ok (Some "BUY completed"%string),
           add_log w' (INFO, "Sent buy order"%string))
        else (Ok None, w')
    | (Ok None, w') => (Ok None, w')
    end
  else
    let w' :=
      match sell_loop k b w price symbol (get_order_id_list sid (positions w)) with
      | (Ok _, w') =>
          set_positions w' (delete_active_positions sid (positions w'))
      | (Raise _, w') => add_log w' (ERROR, "Error processing SELL"%string)
      end in
    (Ok (Some "SELL completed"%string), add_log w' (INFO, "Sent sell order"%string)).

End Account.

(** ** tradeBot/get_data/schwab_automatic_stream.py *)

Module Stream.
Import Frame Aggregator PyFloat.

(** The ["key"] field of a delivered item, as [item.get('key', '')] finds
    it: absent, holding something that is no string ([null], a number), or
    holding a string. *)
Inductive key_field : Type :=
| KeyAbsent
| KeyNotString
| KeyString (s : string).

(** One element of [msg["content"]] as the stream delivers it, a JSON
    object.  [delivered_time] is [item.get("CHART_TIME_MILLIS")], an integer
    or [None] when the field is absent or [null]; a price or volume field
    that is absent is [None] ([item.get(..., 0)] then gives 0). *)
Record Delivered : Type := mkDelivered {
  delivered_time : option Z;
  delivered_key : key_field;
  delivered_open : option Q;
  delivered_high : option Q;
  delivered_low : option Q;
  delivered_close : option Q;
  delivered_volume : option Q
}.

(** The item once [on_bar] has read its timestamp and its key: the
    timestamp is then within the range of a timestamp, so that the second
    conversion of it, for the index of [new_bars], succeeds as well. *)
Record ChartItem : Type := mkItem {
  CHART_TIME_MILLIS : Z;
  key : string;
  OPEN_PRICE : option Q;
  HIGH_PRICE : option Q;
  LOW_PRICE : option Q;
  CLOSE_PRICE : option Q;
  VOLUME : option Q
}.

(** The milliseconds that a pandas timestamp (64-bit nanoseconds) can hold,
    on either side of the epoch. *)
Definition timestamp_limit : Z := 9223372036854.

(** The first lines of the loop over the items, outside every [try]:
    [pd.to_datetime(item.get("CHART_TIME_MILLIS"), unit='ms', utc=True)]
    gives [None] for [None], whose [tz_convert] raises [AttributeError], and
    raises [OutOfBoundsDatetime] (a [ValueError]) beyond the range of a
    timestamp; then [item.get('key', '').upper()] raises [AttributeError]
    when the key is no string. *)
Definition read_item (x : Delivered) : result ChartItem :=
  match delivered_time x with
  | None =>
      Raise (AttributeError "'NoneType' object has no attribute 'tz_convert'")
  | Some t =>
      if Z.abs t <=? timestamp_limit then
        match delivered_key x with
        | KeyNotString => Raise (AttributeError "object has no attribute 'upper'")
        | KeyAbsent =>
            Ok (mkItem t EmptyString (delivered_open x) (delivered_high x)
                       (delivered_low x) (delivered_close x) (delivered_volume x))
        | KeyString s =>
            Ok (mkItem t s (delivered_open x) (delivered_high x)
                       (delivered_low x) (delivered_close x) (delivered_volume x))
        end
      else Raise (ValueError "Out of bounds nanosecond timestamp")
  end.

(** The ["signal"] cell of a row, as [recent_candle.get("signal")] finds it:
    [None] (also when the frame has no such column), [NaN] (or any other
    value that is true and no string), or a string. *)
Inductive signal_cell : Type :=
| SignalNone
| SignalNaN
| SignalText (s : string).

(** The last row of the frame a strategy returns, as far as [on_bar] reads
    it: [signal], [quantity] and [close]. *)
Record Candle : Type := mkCandle {
  signal : signal_cell;
  quantity : Q;
  last_close : Q
}.

(** A strategy's [main]: it gets a frame and returns the frame with the
    signal columns, or raises. *)
Definition strat_fn : Type := DataFrame -> result (list Candle).

(** [STRATEGY_CACHE] *)
Definition Cache : Type := list (string * strat_fn).

Fixpoint cache_get (c : Cache) (name : string) : option strat_fn :=
  match c with
  | [] => None
  | (n, f) :: r => if String.eqb name n then Some f else cache_get r name
  end.

(** The value of [df_dict[strategy_id]]. *)
Record StrategyData : Type := mkSD {
  df : DataFrame;
  itsTime : bool;
  name : string;
  sd_symbol : string;
  order_type : string;
  time_frame : Z;
  extended_hours : bool
}.

(** [df_dict], in insertion order, which is the order [on_bar] visits. *)
Definition DfDict : Type := list (Z * StrategyData).

(** The arguments of a call of [send_strategy_orders]; [call_price_kind]
    tells what kind of number the price is: the [close] cell of the last row
    is a [numpy.float64], the 0 of a market order a Python [int]. *)
Record OrderCall : Type := mkCall {
  call_quantity : Q;
  call_exp_min : Z;
  call_symbol : string;
  call_strategy_id : Z;
  call_price : Q;
  call_price_kind : number_kind;
  call_instruction : string
}.

(** Whether [send_strategy_orders] raises on these arguments.  It does so
    before any request, on an instruction that is neither BUY nor SELL and
    on a BUY without symbol or with a quantity that is not positive,
    whatever the brokerage and the store are. *)
Definition order_raises (c : OrderCall) : bool :=
  let instruction := Account.upper (call_instruction c) in
  if negb (String.eqb instruction "BUY" || String.eqb instruction "SELL") then true
  else if String.eqb instruction "BUY" then
    negb (Account.nonempty (call_symbol c)) || Qle_bool (call_quantity c) 0
  else false.

(** The call of [send_strategy_orders] that [on_bar] makes with these
    arguments. *)
Definition place_order (b : Account.Broker) (w : Account.World) (c : OrderCall)
  : result (option string) * Account.World :=
  Account.send_strategy_orders (call_price_kind c) b w (call_quantity c)
    (call_exp_min c) (call_symbol c) (call_strategy_id c) (call_price c)
    (call_instruction c).

(** What [on_bar] does besides updating [df_dict], in order. *)
Inductive Event : Type :=
| LatchSet (sid : Z)
| Appended (sid : Z) (t : Z)
| AggregateCalled (sid : Z) (input : DataFrame) (aggregation : Z)
| StrategyCalled (sid : Z) (strategy : string) (input : DataFrame)
| CacheMiss (sid : Z) (strategy : string)
| StrategyError (sid : Z) (strategy : string)
| OrderSent (c : OrderCall)
| BarProcessingError (sid : Z)
| NoSymbol.

(** [its_time(minute, time_frame)]; Python's [%] raises on a zero divisor
    and otherwise takes the sign of the divisor, as [Z.modulo] does. *)
Definition its_time (minute time_frame : Z) : result bool :=
  if time_frame =? 0 then Raise ZeroDivisionError
  else Ok (minute mod time_frame =? 0).

(** [bar_ts.minute] *)
Definition bar_minute (t : Z) : Z := (t / minute_ms) mod 60.

Definition or_zero (o : option Q) : option Q :=
  match o with Some q => Some q | None => Some 0%Q end.

(** The one-row frame [new_bars] built from a stream item. *)
Definition new_bars (item : ChartItem) (bar_symbol : string) : DataFrame :=
  mkDF DatetimeIndex required_cols
       [mkBar (CHART_TIME_MILLIS item) (Some bar_symbol)
              (or_zero (OPEN_PRICE item)) (or_zero (HIGH_PRICE item))
              (or_zero (LOW_PRICE item)) (or_zero (CLOSE_PRICE item))
              (or_zero (VOLUME item))].

Definition set_df (sd : StrategyData) (d : DataFrame) : StrategyData :=
  mkSD d (itsTime sd) (name sd) (sd_symbol sd) (order_type sd) (time_frame sd)
       (extended_hours sd).

Definition set_itsTime (sd : StrategyData) : StrategyData :=
  mkSD (df sd) true (name sd) (sd_symbol sd) (order_type sd) (time_frame sd)
       (extended_hours sd).

Definition tosDelay : Z := 1.

(** The evaluation of a strategy on [candle_time_frame_df] (the inner [try]
    of [on_bar]); every exception is caught and logged there: the one the
    strategy function raises, the [IndexError] of [iloc[-1]] on a frame
    without rows, the [AttributeError] of [.upper()] on a signal that is no
    string, and the one [send_strategy_orders] raises. *)
Definition evaluate (cache : Cache) (sid : Z) (sd : StrategyData)
  (candle_time_frame_df : DataFrame) : list Event :=
  match cache_get cache (name sd) with
  | None => [CacheMiss sid (name sd)]
  | Some strat_func =>
      StrategyCalled sid (name sd) candle_time_frame_df ::
      match strat_func candle_time_frame_df with
      | Raise _ => [StrategyError sid (name sd)]
      | Ok new_strat_df =>
          match rev new_strat_df with
          | [] => [StrategyError sid (name sd)]
          | recent_candle :: _ =>
              match signal recent_candle with
              | SignalNone => []
              | SignalNaN => [StrategyError sid (name sd)]
              | SignalText EmptyString => []
              | SignalText s =>
                  let limit := String.eqb (order_type sd) "LIMIT" in
                  let c :=
                    mkCall (quantity recent_candle) (time_frame sd)
                           (sd_symbol sd) sid
                           (if limit then last_close recent_candle else 0%Q)
                           (if limit then numpy_float64 else python_float)
                           (Account.upper s) in
                  if order_raises c
                  then [OrderSent c; StrategyError sid (name sd)]
                  else [OrderSent c]
              end
          end
      end
  end.

(** The body of the [try] of [on_bar] for one strategy whose latch is set:
    the bar is appended, the frame is aggregated unless the time frame is 1,
    and one minute after a boundary the strategy is evaluated. *)
Definition process_bar (pd : Pandas) (cache : Cache) (item : ChartItem)
  (bar_symbol : string) (sid : Z) (sd : StrategyData)
  : StrategyData * list Event :=
  let bar_min := bar_minute (CHART_TIME_MILLIS item) in
  let sd := set_df sd (sort_index pd (concat (df sd) (new_bars item bar_symbol))) in
  let appended := Appended sid (CHART_TIME_MILLIS item) in
  let aggregated :=
    if time_frame sd =? 1 then (Ok (df sd), [])
    else (aggregate_time_frame pd (df sd) (time_frame sd),
          [AggregateCalled sid (df sd) (time_frame sd)]) in
  match aggregated with
  | (Raise _, ev) => (sd, appended :: ev ++ [BarProcessingError sid])
  | (Ok candle_time_frame_df, ev) =>
      if df_empty candle_time_frame_df then (sd, appended :: ev)
      else
        match its_time (bar_min + tosDelay) (time_frame sd) with
        | Raise _ => (sd, appended :: ev ++ [BarProcessingError sid])
        | Ok false => (sd, appended :: ev)
        | Ok true => (sd, appended :: ev ++ evaluate cache sid sd candle_time_frame_df)
        end
  end.

(** The body of the loop over [df_dict.items()] for one strategy.  The
    first [its_time] is outside every [try]: its exception leaves [on_bar]. *)
Definition on_bar_strategy (pd : Pandas) (cache : Cache) (item : ChartItem)
  (bar_symbol : string) (sid : Z) (sd : StrategyData)
  : result (StrategyData * list Event) :=
  if negb (String.eqb (sd_symbol sd) bar_symbol) then Ok (sd, [])
  else if itsTime sd then Ok (process_bar pd cache item bar_symbol sid sd)
  else
    match its_time (bar_minute (CHART_TIME_MILLIS item)) (time_frame sd) with
    | Raise e => Raise e
    | Ok true =>
        let '(sd', ev) := process_bar pd cache item bar_symbol sid (set_itsTime sd) in
        Ok (sd', LatchSet sid :: ev)
    | Ok false => Ok (sd, [])
    end.

(** The state of the handler after some work: [df_dict], the events so far,
    and the exception that left [on_bar], if any. *)
Definition Outcome : Type := (DfDict * list Event * option PyExc)%type.

Fixpoint on_bar_strategies (pd : Pandas) (cache : Cache) (item : ChartItem)
  (bar_symbol : string) (d : DfDict) : Outcome :=
  match d with
  | [] => ([], [], None)
  | (sid, sd) :: rest =>
      match on_bar_strategy pd cache item bar_symbol sid sd with
      | Raise e => (d, [], Some e)
      | Ok (sd', ev) =>
          let '(rest', ev', exc) := on_bar_strategies pd cache item bar_symbol rest in
          ((sid, sd') :: rest', ev ++ ev', exc)
      end
  end.

(** One turn of the loop over the items of a message. *)
Definition on_bar_item (pd : Pandas) (cache : Cache) (x : Delivered) (d : DfDict)
  : Outcome :=
  match read_item x with
  | Raise e => (d, [], Some e)
  | Ok item =>
      let bar_symbol := Account.upper (key item) in
      if negb (Account.nonempty bar_symbol) then (d, [NoSymbol], None)
      else on_bar_strategies pd cache item bar_symbol d
  end.

(** [on_bar(msg)], [content] being [msg.get("content", [])]. *)
Fixpoint on_bar (pd : Pandas) (cache : Cache) (content : list Delivered)
  (d : DfDict) : Outcome :=
  match content with
  | [] => (d, [], None)
  | x :: rest =>
      match on_bar_item pd cache x d with
      | (d', ev, Some e) => (d', ev, Some e)
      | (d', ev, None) =>
          let '(d'', ev', exc) := on_bar pd cache rest d' in
          (d'', ev ++ ev', exc)
      end
  end.

(** The messages the stream delivers, one after the other, until an
    exception leaves the handler (the message loop then ends the process). *)
Fixpoint handle_messages (pd : Pandas) (cache : Cache)
  (msgs : list (list Delivered)) (d : DfDict) : Outcome :=
  match msgs with
  | [] => (d, [], None)
  | content :: rest =>
      match on_bar pd cache content d with
      | (d', ev, Some e) => (d', ev, Some e)
      | (d', ev, None) =>
          let '(d'', ev', exc) := handle_messages pd cache rest d' in
          (d'', ev ++ ev', exc)
      end
  end.

(** *** Startup *)

(** A row of the strategy table ([strategy_info]). *)
Record StrategyInfo : Type := mkInfo {
  info_id : Z;
  info_name : string;
  info_symbol : string;
  info_order_type : string;
  info_time_frame : Z;
  info_lookback_days : Z;
  info_extended_hours : Z
}.

(** What [importlib.import_module] and the look for [main] give. *)
Inductive import_outcome : Type :=
| ModuleWithMain (main : strat_fn)
| ModuleWithoutMain
| ModuleNotFound
| ImportFailed
| ImportOtherError.

(** What the process finds around it at startup: the strategy modules, the
    historical candles ([charles_get_candles]), and whether the stream
    client can be built and logged in. *)
Record Environment : Type := mkEnv {
  import_module : string -> import_outcome;
  charles_get_candles : string -> Z -> bool -> result DataFrame;
  client_from_token_file : bool;
  stream_login : bool
}.

Definition LogRecord : Type := Account.LogRecord.

Definition _import_strategy (env : Environment) (cache : Cache)
  (strat_name : string) : bool * Cache * list LogRecord :=
  match cache_get cache strat_name with
  | Some _ => (true, cache, [(Account.DEBUG, "[IMPORT] already cached: " ++ strat_name)%string])
  | None =>
      match import_module env strat_name with
      | ModuleWithMain strat_func =>
          (true, (strat_name, strat_func) :: cache,
           [(Account.INFO, "[IMPORT SUCCESS] " ++ strat_name)%string])
      | _ => (false, cache, [(Account.ERROR, "[IMPORT ERROR] " ++ strat_name)%string])
      end
  end.

(** The result of [_import_all_strategies]: the cache, the two counters and
    the log.  The function returns normally whatever the counters are. *)
Record ImportReport : Type := mkReport {
  cache_after : Cache;
  success_count : nat;
  fail_count : nat;
  import_log : list LogRecord
}.

Fixpoint import_names (env : Environment) (names : list string) (r : ImportReport)
  : ImportReport :=
  match names with
  | [] => r
  | strat_name :: rest =>
      let '(ok, cache, lg) := _import_strategy env (cache_after r) strat_name in
      import_names env rest
        (if ok then mkReport cache (S (success_count r)) (fail_count r)
                             (import_log r ++ lg)
         else mkReport cache (success_count r) (S (fail_count r))
                       (import_log r ++ lg))
  end.

(** [unique_strategies] is a set; its elements are visited here in the
    order of their last occurrence in [strategy_info]. *)
Definition _import_all_strategies (env : Environment) (cache : Cache)
  (strategy_info : list StrategyInfo) : ImportReport :=
  let unique_strategies := nodup string_dec (map info_name strategy_info) in
  let r := import_names env unique_strategies (mkReport cache 0 0 []) in
  if (0 <? fail_count r)%nat then
    mkReport (cache_after r) (success_count r) (fail_count r)
             (import_log r ++ [(Account.WARNING, "[STARTUP] strategies failed to import")%string])
  else r.

Fixpoint dict_set (d : DfDict) (k : Z) (v : StrategyData) : DfDict :=
  match d with
  | [] => [(k, v)]
  | (k', v') :: r => if k =? k' then (k, v) :: r else (k', v') :: dict_set r k v
  end.

(** [_initial_df]: the loop is inside one [try]; the first exception ends
    it and the entries made so far stay. *)
Fixpoint _initial_df (env : Environment) (strategy_info : list StrategyInfo)
  (d : DfDict) : DfDict :=
  match strategy_info with
  | [] => d
  | strat :: rest =>
      let symbol := Account.upper (info_symbol strat) in
      let extended := info_extended_hours strat =? 1 in
      match charles_get_candles env symbol (info_lookback_days strat) extended with
      | Raise _ => d
      | Ok historical_df =>
          _initial_df env rest
            (dict_set d (info_id strat)
               (mkSD historical_df false (info_name strat) symbol
                     (Account.upper (info_order_type strat))
                     (info_time_frame strat) extended))
      end
  end.

(** How [run_stream] gets to its message loop: the process exits, or the
    handler is registered and messages are consumed with this state. *)
Inductive Startup : Type :=
| Exited (code : Z)
| Streaming (d : DfDict) (cache : Cache) (startup_log : list LogRecord).

Definition run_stream_startup (env : Environment)
  (strategy_info : list StrategyInfo) : Startup :=
  let d := _initial_df env strategy_info [] in
  let r := _import_all_strategies env [] strategy_info in
  if negb (client_from_token_file env) then Exited 1
  else if negb (stream_login env) then Exited 1
  else Streaming d (cache_after r) (import_log r).

End Stream.

(** ** The vocabulary of the statements *)

Module Props.
Import Frame Aggregator PyFloat Account Stream.

(** The raw bars of a buffer that fall in the window of [T] minutes starting
    at [start], in time order: the constituents of the aggregated bar
    labelled [start]. *)
Definition bucket (df : DataFrame) (T : Z) (start : Z) : list Bar :=
  filter (in_bin start (T * minute_ms)) (sort_rows (rows df)).





Definition is_max_of (m : Q) (l : list Q) : Prop :=
  In m l /\ forall x, In x l -> (x <= m)%Q.

Definition is_min_of (m : Q) (l : list Q) : Prop :=
  In m l /\ forall x, In x l -> (m <= x)%Q.

Definition sum_of (l : list Q) : Q := fold_right Qplus 0%Q l.




(** The floats 0.1, 0.2, 0.3 and 0.6. *)
Definition double_0_1 : Q := 3602879701896397 # 36028797018963968.
Definition double_0_2 : Q := 3602879701896397 # 18014398509481984.
Definition double_0_3 : Q := 5404319552844595 # 18014398509481984.
Definition double_0_6 : Q := 5404319552844595 # 9007199254740992.




(** Input that the aggregation is said to refuse. *)
Definition malformed (df : DataFrame) (T : Z) : Prop :=
  T <= 0 \/
  (exists c, In c required_cols /\ has_col df c = false) \/
  monotonic (rows df) = false \/
  is_datetime df = false.

Definition raises_ValueError {A : Type} (r : result A) : Prop :=
  exists msg, r = Raise (ValueError msg).

(** Two bars out of time order. *)
Definition unordered_df : DataFrame :=
  mkDF DatetimeIndex required_cols [sample_bar 1; sample_bar 0].

(** One bar, no [volume] column. *)
Definition no_volume_df : DataFrame :=
  mkDF DatetimeIndex ["symbol"; "open"; "high"; "low"; "close"]%string
       [sample_bar 0].

(** A frame without rows whose index is not a datetime index. *)
Definition no_rows_df : DataFrame := mkDF PlainIndex [] [].

(** One bar under a default integer index. *)
Definition plain_index_df : DataFrame :=
  mkDF PlainIndex required_cols [sample_bar 0].

(** [y] is [x] rounded to [n] decimal places, as a float: there is a
    decimal [k / 10^n] whose last place is within [slack] of a half from
    [x], and [y] is within half a unit in the last place of a float (a
    relative [2^-53]) from that decimal. *)
Definition rounded_to (slack : Q) (x : Q) (n : Z) (y : Q) : Prop :=
  exists k : Z,
    (Qabs (x * 10 ^ n - inject_Z k) <= (1 # 2) + slack)%Q /\
    (Qabs (y - inject_Z k / 10 ^ n)
     <= Qabs (inject_Z k / 10 ^ n) * (1 # 9007199254740992))%Q.

(** How far beyond a half the last place may lie from [x]: not at all for
    a Python number, whose [round] is exact; for a [numpy.float64] by the
    rounding error of the product [x * 10^n], at most a relative [2^-53]
    (and [2^-1075] for a product below the normal range). *)
Definition rounding_slack (k : number_kind) (x : Q) (n : Z) : Q :=
  match k with
  | python_float => 0%Q
  | numpy_float64 =>
      (Qabs (x * 10 ^ n) * (1 # 9007199254740992) + 2 ^ (-1075))%Q
  end.

(** The floats nearest to the decimals of the examples. *)
Definition double_0_12345 : Q := 2223877495995551 # 18014398509481984.
Definition double_0_1235 : Q := 2224778215921025 # 18014398509481984.
Definition double_0_1234 : Q := 8891907104280307 # 72057594037927936.
Definition double_12_345 : Q := 6949617174986097 # 562949953421312.
Definition double_12_35 : Q := 6952431924753203 # 562949953421312.
Definition double_12_34 : Q := 3473401212609495 # 281474976710656.

(** The order [o] goes out for the price [p]: a market order without a
    price field when [p] is 0, otherwise a limit order, with [p] as its
    price field when [p] is positive. *)
Definition carries_price (o : order_data) (p : Q) : Prop :=
  price o = (if Qlt_bool 0 p then Some p else None) /\
  orderType o = (if Qeq_bool p 0 then "MARKET" else "LIMIT")%string.

Definition numeric_or_absent (v : option jval) : Prop :=
  match v with
  | None => True
  | Some (JNum _) => True
  | Some _ => False
  end.

Definition empty_world : World := mkWorld [] [] [] [].

(** A store with one open position of strategy 1. *)
Definition one_position : World :=
  mkWorld [mkPos 1 "A" 1 1] [] [] [].

(** A brokerage that reports every order filled with 5 shares and accepts
    every placement. *)
Definition filled_broker : Broker :=
  mkBroker (fun _ => PostResponse 201 (Some "/orders/12345"%string))
           (fun _ => Some [("status", JStr "FILLED");
                           ("filledQuantity", JNum 5)]%string)
           (fun _ => true) (fun _ => true).

(** The same brokerage beside a database that refuses every insert. *)
Definition database_down : Broker :=
  mkBroker (post_order filled_broker) (get_orders filled_broker)
           (delete_orders filled_broker) (fun _ => false).

(** A brokerage that answers a placement with 201 and no [Location]. *)
Definition no_location_broker : Broker :=
  mkBroker (fun _ => PostResponse 201 None) (fun _ => None) (fun _ => false)
           (fun _ => true).

(** A brokerage out of reach: placements time out, lookups fail. *)
Definition unreachable_broker : Broker :=
  mkBroker (fun _ => PostTimeout) (fun _ => None) (fun _ => false)
           (fun _ => true).

(** The latch of every strategy that has reached its boundary in [d] is
    still set in [d'], which holds the same strategies in the same order. *)
Definition latch_kept (d d' : DfDict) : Prop :=
  Forall2 (fun p p' => fst p = fst p' /\
                       (itsTime (snd p) = true -> itsTime (snd p') = true))
          d d'.

(** The buffers of the strategies, as their numbers of rows. *)
Definition buffer_lengths (d : DfDict) : list nat :=
  map (fun p => List.length (rows (df (snd p)))) d.

Definition unresolved (env : Environment) (strat_name : string) : Prop :=
  forall main, import_module env strat_name <> ModuleWithMain main.

(** Every function in the cache is the [main] of a module that imports. *)
Definition cache_sound (env : Environment) (c : Cache) : Prop :=
  forall m f, cache_get c m = Some f ->
              exists main, import_module env m = ModuleWithMain main.

(** A bar of SPY stamped [t]. *)
Definition spy_item (t : Z) : ChartItem :=
  mkItem t "spy" (Some 1%Q) (Some 2%Q) (Some 1%Q) (Some 2%Q) (Some 100%Q).

(** A strategy on SPY with an empty history. *)
Definition spy_strategy (strategy : string) (latch : bool) (time_frame : Z)
  : StrategyData :=
  mkSD (mkDF DatetimeIndex required_cols []) latch strategy "SPY" "MARKET"
       time_frame false.

(** An item as the stream delivers it with all its fields. *)
Definition delivered (item : ChartItem) : Delivered :=
  mkDelivered (Some (CHART_TIME_MILLIS item)) (KeyString (key item))
              (OPEN_PRICE item) (HIGH_PRICE item) (LOW_PRICE item)
              (CLOSE_PRICE item) (VOLUME item).

(** 09:30 and the four minutes after it. *)
Definition five_minutes : list (list Delivered) :=
  map (fun i => [delivered (spy_item (sample_start + Z.of_nat i * minute_ms))])
      (seq 0 5).

(** An item without its timestamp. *)
Definition untimed_item : Delivered :=
  mkDelivered None (KeyString "spy") (Some 1%Q) (Some 2%Q) (Some 1%Q) (Some 2%Q)
              (Some 100%Q).

(** A strategy on SPY whose buffer holds the bar stamped [t] already. *)
Definition spy_strategy_with (t : Z) (time_frame : Z) : StrategyData :=
  mkSD (new_bars (spy_item t) "SPY") true "smaCross" "SPY" "MARKET"
       time_frame false.

(** A strategy on SPY that places limit orders, and a strategy function
    whose last row asks to buy one share at a close of 12.345. *)
Definition limit_strategy : StrategyData :=
  mkSD (mkDF DatetimeIndex required_cols []) true "smaCross" "SPY" "LIMIT"
       1 false.

Definition limit_buyer : strat_fn :=
  fun _ => Ok [mkCandle (SignalText "buy") 1 double_12_345].

Definition limit_cache : Cache := [("smaCross"%string, limit_buyer)].

(** A machine on which no strategy module can be found; the candle history
    is empty and the stream client works. *)
Definition no_modules_env : Environment :=
  mkEnv (fun _ => ModuleNotFound)
        (fun _ _ _ => Ok (mkDF DatetimeIndex required_cols []))
        true true.

Definition ghost_info : list StrategyInfo :=
  [mkInfo 1 "ghost" "spy" "market" 5 10 0].

End Props.

(** ** Further vocabulary *)

Module Shapes.
Import Frame Aggregator PyFloat Account Stream Props.

(** A bar whose four prices are present, with the open and the close
    between the low and the high. *)
Definition ohlc_consistent (r : Bar) : Prop :=
  exists o h l c,
    open r = Some o /\ high r = Some h /\ low r = Some l /\ close r = Some c /\
    (l <= o)%Q /\ (o <= h)%Q /\ (l <= c)%Q /\ (c <= h)%Q.

(** A bar none of whose prices is [NaN]. *)
Definition prices_present (r : Bar) : Prop :=
  open r <> None /\ high r <> None /\ low r <> None /\ close r <> None.

(** The volume traded over some bars. *)
Definition total_volume (l : list Bar) : Q := sum_of (valid (map volume l)).

Definition sorted_by_ts (l : list Bar) : Prop :=
  StronglySorted (fun x y => ts x <= ts y) l.

Definition has_rows (l : list Bar) : bool :=
  match l with [] => false | _ :: _ => true end.

Fixpoint slash_free (s : string) : bool :=
  match s with
  | EmptyString => true
  | String c r => negb (Ascii.eqb c "/"%char) && slash_free r
  end.

(** An order as a SELL cycle places it for the symbol [s]: a SELL of a
    positive quantity that the brokerage is to cancel after one day. *)
Definition closing_order (s : string) (o : order_data) : Prop :=
  instruction o = "SELL"%string /\ order_symbol o = s /\
  (0 < order_quantity o)%Q /\ cancelTime o = Some 1440.

(** The configuration of a strategy, which the handler only reads. *)
Definition same_config (sd sd' : StrategyData) : Prop :=
  name sd' = name sd /\ sd_symbol sd' = sd_symbol sd /\
  order_type sd' = order_type sd /\ time_frame sd' = time_frame sd /\
  extended_hours sd' = extended_hours sd.

(** [d'] holds the strategies of [d], under the same ids and in the same
    order, each related to what it was by [R]. *)
Definition evolves (R : StrategyData -> StrategyData -> Prop) (d d' : DfDict)
  : Prop :=
  Forall2 (fun p p' => fst p = fst p' /\ R (snd p) (snd p')) d d'.

(** No item of the messages is for the symbol [sym]. *)
Definition silent_on (sym : string) (msgs : list (list Delivered)) : Prop :=
  Forall (Forall (fun x => forall s, delivered_key x = KeyString s ->
                                     upper s <> sym)) msgs.

(** An item whose timestamp is there and within the range of a timestamp,
    and whose key, if there, is a string. *)
Definition well_formed (x : Delivered) : Prop :=
  (exists t, delivered_time x = Some t /\ Z.abs t <= timestamp_limit) /\
  delivered_key x <> KeyNotString.

(** What an evaluation logs after the call of the strategy function. *)
Definition after_call (sid : Z) (sd : StrategyData) (e : Event) : Prop :=
  e = StrategyError sid (name sd) \/ exists c, e = OrderSent c.

(** A strategy on QQQ with an empty history. *)
Definition qqq_strategy : StrategyData :=
  mkSD (mkDF DatetimeIndex required_cols []) true "smaCross" "QQQ" "MARKET"
       5 false.


(** A strategy function that asks to buy 3 shares on every call, and a
    cache that holds it under the name "smaCross". *)
Definition always_buy : strat_fn :=
  fun _ => Ok [mkCandle SignalNone 0 9; mkCandle (SignalText "buy") 3 10].

Definition buy_cache : Cache := [("smaCross"%string, always_buy)].

(** The candle history of a configured strategy can be fetched. *)
Definition history_ok (env : Environment) (strat : StrategyInfo) : Prop :=
  exists historical_df,
    charles_get_candles env (upper (info_symbol strat))
                        (info_lookback_days strat)
                        (info_extended_hours strat =? 1)
    = Ok historical_df.

(** The entry of [df_dict] that [_initial_df] makes for a strategy. *)
Definition entry_of (strat : StrategyInfo) (p : Z * StrategyData) : Prop :=
  fst p = info_id strat /\
  itsTime (snd p) = false /\
  name (snd p) = info_name strat /\
  sd_symbol (snd p) = upper (info_symbol strat) /\
  order_type (snd p) = upper (info_order_type strat) /\
  time_frame (snd p) = info_time_frame strat.

(** A machine on which the history of SPY is there and nothing else is. *)
Definition spy_only_env : Environment :=
  mkEnv (fun _ => ModuleNotFound)
        (fun symbol _ _ =>
           if String.eqb symbol "SPY"
           then Ok (mkDF DatetimeIndex required_cols [])
           else Raise (ValueError "no candles"))
        true true.

Definition three_infos : list StrategyInfo :=
  [mkInfo 1 "smaCross" "spy" "market" 5 10 0;
   mkInfo 2 "smaCross" "qqq" "market" 5 10 0;
   mkInfo 3 "smaCross" "spy" "limit" 1 10 0].

(** What the ten bars of the unit test give at 5 minutes. *)
Definition sample_out : DataFrame :=
  mkDF DatetimeIndex required_cols
       [mkBar sample_start (Some "test"%string) (Some 0%Q) (Some 5%Q)
              (Some 0%Q) (Some 5%Q) (Some 500%Q);
        mkBar (sample_start + 5 * minute_ms) (Some "test"%string) (Some 5%Q)
              (Some 10%Q) (Some 5%Q) (Some 10%Q) (Some 500%Q)].

End Shapes.

(** ** The message loop of [run_stream] *)

Module MessageLoop.

(** What the reconnection after a normal closure does: [login], the
    registration of [on_bar] and the subscription all succeed, or [login]
    raises, or the subscription raises. *)
Inductive Reconnect : Type :=
| Reconnected
| LoginFailed
| SubscriptionFailed.

(** What [stream.handle_message()] does in one turn of the loop: a message
    is dispatched and the handlers return, or an exception comes out, a
    normal closure ([ConnectionClosedOK], with what the reconnection then
    does), any other closure, or any other exception, among them the ones
    that leave [on_bar]. *)
Inductive Received : Type :=
| Handled
| ConnectionClosedOK (reconnect : Reconnect)
| ConnectionClosed
| OtherException.

(** What the loop has done so far: calls of [stream.login], registrations
    of [on_bar], subscriptions, messages handled, seconds slept. *)
Record LoopState : Type := mkLoop {
  logins : nat;
  registrations : nat;
  subscriptions : nat;
  handled : nat;
  slept : Z
}.

(** The state when the loop is entered: one login, one registration and
    one subscription have been made. *)
Definition loop_start : LoopState := mkLoop 1 1 1 0 0.

(** The [while True] loop on what the stream delivers; the result is the
    state reached and the exit code if the process exits ([None]: the feed
    is used up and the loop goes on waiting). *)
Fixpoint message_loop (feed : list Received) (st : LoopState)
  : LoopState * option Z :=
  match feed with
  | [] => (st, None)
  | Handled :: rest =>
      message_loop rest
        (mkLoop (logins st) (registrations st) (subscriptions st)
                (S (handled st)) (slept st))
  | ConnectionClosedOK r :: rest =>
      message_loop rest
        match r with
        | Reconnected =>
            mkLoop (S (logins st)) (S (registrations st)) (S (subscriptions st))
                   (handled st) (slept st + 1)
        | LoginFailed =>
            mkLoop (S (logins st)) (registrations st) (subscriptions st)
                   (handled st) (slept st + 1 + 5)
        | SubscriptionFailed =>
            mkLoop (S (logins st)) (S (registrations st)) (subscriptions st)
                   (handled st) (slept st + 1 + 5)
        end
  | ConnectionClosed :: _ => (st, Some 1)
  | OtherException :: _ => (st, Some 1)
  end.

Definition fatal (r : Received) : bool :=
  match r with
  | ConnectionClosed | OtherException => true
  | _ => false
  end.

(** The part of a feed before its first fatal event. *)
Fixpoint before_fatal (feed : list Received) : list Received :=
  match feed with
  | [] => []
  | r :: rest => if fatal r then [] else r :: before_fatal rest
  end.

Definition is_handled (r : Received) : bool :=
  match r with Handled => true | _ => false end.

Definition is_closed_ok (r : Received) : bool :=
  match r with ConnectionClosedOK _ => true | _ => false end.

(** How many events of a feed satisfy [p]. *)
Definition count (p : Received -> bool) (feed : list Received) : nat :=
  List.length (filter p feed).

(** A normal closure whose reconnection got past [stream.login]. *)
Definition past_login (r : Received) : bool :=
  match r with
  | ConnectionClosedOK Reconnected | ConnectionClosedOK SubscriptionFailed => true
  | _ => false
  end.

Definition reconnected (r : Received) : bool :=
  match r with ConnectionClosedOK Reconnected => true | _ => false end.

End MessageLoop.

(** ** acc.py: the account check *)

Module Accounts.
Import Account.

(** A JSON value, as [resp.json()] gives it; the keys of an object are
    distinct. *)
#[warnings="-register-all"]
Inductive json : Type :=
| JsNull
| JsBool (b : bool)
| JsNumber (q : Q)
| JsString (s : string)
| JsArray (l : list json)
| JsObject (m : list (string * json)).

(** What [requests.get] does: an exception, or a response with its status
    code and its body ([None] when the body is not JSON). *)
Inductive get_outcome : Type :=
| GetTimeout
| GetConnectionError
| GetRequestException
| GetOtherError
| GetResponse (status_code : Z) (body : option json).

(** [len(x)]; [None] where Python raises [TypeError]. *)
Definition py_len (x : json) : option nat :=
  match x with
  | JsString s => Some (String.length s)
  | JsArray l => Some (List.length l)
  | JsObject m => Some (List.length m)
  | _ => None
  end.

(** The truth value of a JSON value. *)
Definition truthy (x : json) : bool :=
  match x with
  | JsNull => false
  | JsBool b => b
  | JsNumber q => negb (Qeq_bool q 0)
  | JsString s => nonempty s
  | JsArray l => match l with [] => false | _ => true end
  | JsObject m => match m with [] => false | _ => true end
  end.

Fixpoint js_get (m : list (string * json)) (k : string) : option json :=
  match m with
  | [] => None
  | (k', v) :: r => if String.eqb k k' then Some v else js_get r k
  end.

(** [fetch_accounts]: what [resp.json()] gave, or the empty list. *)
Definition fetch_accounts (o : get_outcome) : json * list LogRecord :=
  match o with
  | GetTimeout => (JsArray [], [(ERROR, "Request to Schwab API timed out."%string)])
  | GetConnectionError => (JsArray [], [(ERROR, "Connection error"%string)])
  | GetRequestException => (JsArray [], [(ERROR, "General request exception"%string)])
  | GetOtherError =>
      (JsArray [], [(ERROR, "Unexpected error fetching account data"%string)])
  | GetResponse status body =>
      if (400 <=? status) && (status <? 600) then
        (JsArray [], [(ERROR, "HTTP error"%string)])
      else
        match body with
        | None => (JsArray [], [(ERROR, "Invalid JSON response from Schwab API"%string)])
        | Some accounts =>
            match py_len accounts with
            | Some _ => (accounts, [(INFO, "Successfully fetched account data"%string)])
            | None =>
                (JsArray [], [(ERROR, "Unexpected error fetching account data"%string)])
            end
        end
  end.

(** The [for account in accounts] loop of [check_valid_acc_num]: an
    element that is no object has no [get], the exception ends the search
    with [False]. *)
Fixpoint find_account (accounts : list json) (acc_num : string) : bool :=
  match accounts with
  | [] => false
  | JsObject account :: rest =>
      match js_get account "hashValue" with
      | Some (JsString h) =>
          if String.eqb acc_num h then true else find_account rest acc_num
      | _ => find_account rest acc_num
      end
  | _ :: _ => false
  end.

Definition check_valid_acc_num (o : get_outcome) (acc_num : string) : bool :=
  if negb (nonempty acc_num) then false
  else
    let accounts := fst (fetch_accounts o) in
    if negb (truthy accounts) then false
    else
      match accounts with
      | JsArray l => find_account l acc_num
      | _ => false
      end.

(** An account list as the brokerage documents it: objects only. *)
Definition all_objects (l : list json) : Prop :=
  forall x, In x l -> exists m, x = JsObject m.

Definition has_account (l : list json) (acc_num : string) : Prop :=
  exists m, In (JsObject m) l /\ js_get m "hashValue" = Some (JsString acc_num).

End Accounts.

(** ** keep_token_alive.py *)

Module Tokens.
Import Account.

(** The JSON object of a token response, as far as the program reads it;
    [None] is an absent key. *)
Record TokenBody : Type := mkBody {
  access_token : option string;
  refresh_token : option string;
  expires_in : option Z
}.

(** What [requests.post] does at the token endpoint: a
    [RequestException], or a response with its status code and its body,
    taken to be a JSON object. *)
Inductive token_outcome : Type :=
| TokenRequestException
| TokenResponse (status_code : Z) (tokens : TokenBody).

Inductive TokenResult (A : Type) : Type :=
| Returned (a : A)
| KeyError (key : string).

Arguments Returned {A} a.
Arguments KeyError {A} key.

(** [get_new_access_token]: the access token, the refresh token and the
    lifetime. *)
Definition get_new_access_token (o : token_outcome) (old_refresh_token : string)
  : TokenResult (option string * string * option Z) :=
  match o with
  | TokenRequestException => Returned (None, old_refresh_token, None)
  | TokenResponse status tokens =>
      if status =? 200 then
        match access_token tokens with
        | None => KeyError "access_token"
        | Some new_access_token =>
            let new_refresh_token :=
              match refresh_token tokens with
              | Some r => r
              | None => old_refresh_token
              end in
            match expires_in tokens with
            | None => KeyError "expires_in"
            | Some e => Returned (Some new_access_token, new_refresh_token, Some e)
            end
        end
      else Returned (None, old_refresh_token, None)
  end.

(** The [.env] file as the keys it sets, and [set_key] on it. *)
Definition EnvFile : Type := list (string * string).

Fixpoint env_get (env : EnvFile) (k : string) : option string :=
  match env with
  | [] => None
  | (k', v) :: r => if String.eqb k k' then Some v else env_get r k
  end.

Fixpoint set_key (env : EnvFile) (k v : string) : EnvFile :=
  match env with
  | [] => [(k, v)]
  | (k', v') :: r =>
      if String.eqb k k' then (k, v) :: r else (k', v') :: set_key r k v
  end.

(** The content of [token.json]. *)
Record TokenJson : Type := mkTokenJson {
  creation_timestamp : Z;
  json_expires_in : Z;
  json_refresh_token : string;
  json_access_token : string;
  expires_at : Z
}.

(** The files the refresher writes, the number of records it has logged
    at level ERROR, and whether [token.json] can be written (the making of
    its directory and the write have a [try] of their own).  The writes to
    the [.env] file are taken to succeed. *)
Record Files : Type := mkFiles {
  env_file : EnvFile;
  token_json : option TokenJson;
  errors : nat;
  token_json_writable : bool
}.

(** The credentials read from the environment, [None] when unset. *)
Record Credentials : Type := mkCred {
  TRADING_APP_KEY : option string;
  TRADING_SECRET_KEY : option string;
  TRADING_REFRESH_TOKEN : option string;
  MARKET_DATA_APP_KEY : option string;
  MARKET_DATA_SECRET_KEY : option string;
  MARKET_DATA_REFRESH_TOKEN : option string
}.

Definition is_set (v : option string) : bool :=
  match v with Some s => nonempty s | None => false end.

Definition value (v : option string) : string :=
  match v with Some s => s | None => EmptyString end.

(** [_load_and_validate_credentials]: the token dictionary, in the order
    TRADING, MARKET_DATA, or [None] for [SystemExit(1)]. *)
Definition _load_and_validate_credentials (c : Credentials)
  : option (list (string * (string * string * string))) :=
  if negb (is_set (TRADING_APP_KEY c) && is_set (TRADING_SECRET_KEY c)
           && is_set (TRADING_REFRESH_TOKEN c)) then None
  else if negb (is_set (MARKET_DATA_APP_KEY c) && is_set (MARKET_DATA_SECRET_KEY c)
                && is_set (MARKET_DATA_REFRESH_TOKEN c)) then None
  else
    Some [("TRADING"%string,
           (value (TRADING_APP_KEY c), value (TRADING_SECRET_KEY c),
            value (TRADING_REFRESH_TOKEN c)));
          ("MARKET_DATA"%string,
           (value (MARKET_DATA_APP_KEY c), value (MARKET_DATA_SECRET_KEY c),
            value (MARKET_DATA_REFRESH_TOKEN c)))].

(** [expires_in or 1800] *)
Definition or_1800 (e : option Z) : Z :=
  match e with
  | Some z => if z =? 0 then 1800 else z
  | None => 1800
  end.

(** What the part of the loops of [refresh_tokens_once] and
    [tokens_refresh_loop] after a renewal writes: the two keys of the
    [.env] file and, for TRADING, [token.json]; when [token.json] cannot be
    written the error is logged and the [.env] file stays updated. *)
Definition write_tokens (now1 now2 : Z) (token_type access new_refresh : string)
  (e : option Z) (f : Files) : Files :=
  let env :=
    set_key (set_key (env_file f) (token_type ++ "_ACCESS_TOKEN") access)
            (token_type ++ "_REFRESH_TOKEN") new_refresh in
  if String.eqb token_type "TRADING" then
    if token_json_writable f then
      mkFiles env
              (Some (mkTokenJson now1 (or_1800 e) new_refresh access
                                 (now2 + or_1800 e)))
              (errors f) (token_json_writable f)
    else mkFiles env (token_json f) (S (errors f)) (token_json_writable f)
  else mkFiles env (token_json f) (errors f) (token_json_writable f).

(** The [for token_type, credentials in token_dict.items()] loop of
    [refresh_tokens_once].  [answer] is what the token endpoint does for a
    token type; [now1] and [now2] are the two readings of the clock in
    [_update_token_json].  A refusal is logged as an error by
    [get_new_access_token] and the loop goes on; a [KeyError] leaves the
    loop and is logged as an error. *)
Fixpoint refresh_each (answer : string -> token_outcome) (now1 now2 : Z)
  (token_dict : list (string * (string * string * string))) (f : Files) : Files :=
  match token_dict with
  | [] => f
  | (token_type, (_, _, refresh)) :: rest =>
      match get_new_access_token (answer token_type) refresh with
      | KeyError _ =>
          mkFiles (env_file f) (token_json f) (S (errors f)) (token_json_writable f)
      | Returned (None, _, _) =>
          refresh_each answer now1 now2 rest
            (mkFiles (env_file f) (token_json f) (S (errors f))
                     (token_json_writable f))
      | Returned (Some access, new_refresh, e) =>
          refresh_each answer now1 now2 rest
            (write_tokens now1 now2 token_type access new_refresh e f)
      end
  end.

(** [refresh_tokens_once]; [None] when the process exits for missing
    credentials. *)
Definition refresh_tokens_once (c : Credentials) (answer : string -> token_outcome)
  (now1 now2 : Z) (f : Files) : option Files :=
  match _load_and_validate_credentials c with
  | None => None
  | Some token_dict => Some (refresh_each answer now1 now2 token_dict f)
  end.

(** The token dictionary held in memory by the refresh loop. *)
Definition TokenDict : Type := list (string * (string * string * string)).

(** One pass of the [for] loop inside [tokens_refresh_loop]: as in
    [refresh_tokens_once], and the refresh token held in memory is replaced
    by the new one.  The boolean tells whether the pass came to its end
    ([false]: a [KeyError] left it). *)
Fixpoint refresh_pass (answer : string -> token_outcome) (now1 now2 : Z)
  (token_dict : TokenDict) (f : Files) : TokenDict * Files * bool :=
  match token_dict with
  | [] => ([], f, true)
  | (token_type, (app_key, secret_key, refresh)) :: rest =>
      match get_new_access_token (answer token_type) refresh with
      | KeyError _ =>
          (token_dict,
           mkFiles (env_file f) (token_json f) (S (errors f))
                   (token_json_writable f),
           false)
      | Returned (None, _, _) =>
          let '(rest', f', finished) :=
            refresh_pass answer now1 now2 rest
              (mkFiles (env_file f) (token_json f) (S (errors f))
                       (token_json_writable f)) in
          ((token_type, (app_key, secret_key, refresh)) :: rest', f', finished)
      | Returned (Some access, new_refresh, e) =>
          let '(rest', f', finished) :=
            refresh_pass answer now1 now2 rest
              (write_tokens now1 now2 token_type access new_refresh e f) in
          ((token_type, (app_key, secret_key, new_refresh)) :: rest', f', finished)
      end
  end.

(** The first [rounds] turns of the [while True] loop of
    [tokens_refresh_loop], from turn [i] on: what the endpoint answers and
    what the clock shows depend on the turn; the last component is the
    time slept, in seconds. *)
Fixpoint refresh_rounds (rounds i : nat) (interval_min : Z)
  (answer : nat -> string -> token_outcome) (now1 now2 : nat -> Z)
  (token_dict : TokenDict) (f : Files) (slept : Z) : TokenDict * Files * Z :=
  match rounds with
  | O => (token_dict, f, slept)
  | S k =>
      let '(token_dict', f', finished) :=
        refresh_pass (answer i) (now1 i) (now2 i) token_dict f in
      refresh_rounds k (S i) interval_min answer now1 now2 token_dict' f'
        (slept + if finished then interval_min * 60 else 60)
  end.

(** [tokens_refresh_loop], observed for [rounds] turns; [None] when the
    process exits for missing credentials. *)
Definition tokens_refresh_loop (rounds : nat) (interval_min : Z) (c : Credentials)
  (answer : nat -> string -> token_outcome) (now1 now2 : nat -> Z) (f : Files)
  : option (TokenDict * Files * Z) :=
  match _load_and_validate_credentials c with
  | None => None
  | Some token_dict =>
      Some (refresh_rounds rounds 0 interval_min answer now1 now2 token_dict f 0)
  end.

(** The endpoint gives no token: the request fails or the status is not
    200. *)
Definition refused (o : token_outcome) : bool :=
  match o with
  | TokenRequestException => true
  | TokenResponse status _ => negb (status =? 200)
  end.

(** A 200 response without [access_token] or without [expires_in]. *)
Definition incomplete (o : token_outcome) : bool :=
  match o with
  | TokenRequestException => false
  | TokenResponse status tokens =>
      (status =? 200)
      && match access_token tokens, expires_in tokens with
         | Some _, Some _ => false
         | _, _ => true
         end
  end.

(** The refresh tokens in memory are the ones in the [.env] file. *)
Definition in_sync (token_dict : TokenDict) (f : Files) : Prop :=
  forall token_type app_key secret_key refresh,
    In (token_type, (app_key, secret_key, refresh)) token_dict ->
    env_get (env_file f) (token_type ++ "_REFRESH_TOKEN") = Some refresh.

(** The token dictionary always has the two types, in this order. *)
Definition two_types (token_dict : TokenDict) : Prop :=
  exists a b r a' b' r',
    token_dict = [("TRADING"%string, (a, b, r)); ("MARKET_DATA"%string, (a', b', r'))].

(** Credentials that are all set. *)
Definition full_credentials : Credentials :=
  mkCred (Some "ak"%string) (Some "sk"%string) (Some "rt"%string)
         (Some "mak"%string) (Some "msk"%string) (Some "mrt"%string).

(** A token endpoint that refuses TRADING and renews MARKET_DATA. *)
Definition trading_refused (token_type : string) : token_outcome :=
  if String.eqb token_type "TRADING" then TokenResponse 400 (mkBody None None None)
  else TokenResponse 200 (mkBody (Some "new_access"%string) None (Some 1800)).

(** The [.env] file that the credentials above were read from. *)
Definition full_env : EnvFile :=
  [("TRADING_REFRESH_TOKEN"%string, "rt"%string);
   ("MARKET_DATA_REFRESH_TOKEN"%string, "mrt"%string)].

(** A token endpoint that renews both types and rotates the refresh token
    of TRADING. *)
Definition rotating (token_type : string) : token_outcome :=
  if String.eqb token_type "TRADING" then
    TokenResponse 200 (mkBody (Some "ta"%string) (Some "rt2"%string) (Some 0))
  else TokenResponse 200 (mkBody (Some "ma"%string) None (Some 1800)).

(** A token endpoint whose TRADING answer lacks [expires_in]. *)
Definition trading_incomplete (token_type : string) : token_outcome :=
  if String.eqb token_type "TRADING" then
    TokenResponse 200 (mkBody (Some "ta"%string) None None)
  else TokenResponse 200 (mkBody (Some "ma"%string) None (Some 1800)).

End Tokens.

(** * Properties *)

(** ** Sorting by index *)

Section FrameFacts.
Import Frame Props Shapes.

Lemma insert_bar_perm (b : Bar) (l : list Bar) : Permutation (insert_bar b l) (b :: l).
Proof.
  induction l as [|x l IH]; simpl; [apply Permutation_refl|].
  destruct (ts b <? ts x); [apply Permutation_refl|].
  eapply Permutation_trans; [apply perm_skip, IH|apply perm_swap].
Qed.

Lemma sort_rows_app (l : list Bar) (b : Bar) :
  sort_rows (l ++ [b]) = insert_bar b (sort_rows l).
Proof. unfold sort_rows. rewrite fold_left_app. reflexivity. Qed.

Lemma sort_rows_perm (l : list Bar) : Permutation (sort_rows l) l.
Proof.
  induction l as [|b l IH] using rev_ind; [apply Permutation_refl|].
  rewrite sort_rows_app.
  eapply Permutation_trans; [apply insert_bar_perm|].
  eapply Permutation_trans; [apply perm_skip, IH|].
  apply Permutation_cons_append.
Qed.

Lemma insert_bar_sorted (b : Bar) (l : list Bar) :
  sorted_by_ts l -> sorted_by_ts (insert_bar b l).
Proof.
  unfold sorted_by_ts. induction l as [|x l IH]; intros H; simpl.
  - constructor; constructor.
  - inversion H as [|? ? Hl Hx]; subst.
    destruct (ts b <? ts x) eqn:E.
    + apply Z.ltb_lt in E. constructor; [exact H|].
      constructor; [lia|].
      eapply Forall_impl; [|exact Hx]. intros y Hy. simpl in Hy. lia.
    + apply Z.ltb_ge in E. constructor; [apply IH; exact Hl|].
      apply (Permutation_Forall (Permutation_sym (insert_bar_perm b l))).
      constructor; [exact E|exact Hx].
Qed.

Lemma sort_rows_sorted (l : list Bar) : sorted_by_ts (sort_rows l).
Proof.
  induction l as [|b l IH] using rev_ind.
  - constructor.
  - rewrite sort_rows_app. apply insert_bar_sorted. exact IH.
Qed.

Lemma sorted_monotonic (l : list Bar) : sorted_by_ts l -> monotonic l = true.
Proof.
  unfold sorted_by_ts. induction l as [|x l IH]; intros H; [reflexivity|].
  inversion H as [|? ? Hl Hx]; subst. simpl.
  destruct l as [|y l']; [reflexivity|].
  inversion Hx; subst. rewrite (IH Hl), andb_true_r. apply Z.leb_le. assumption.
Qed.

Lemma monotonic_sorted (l : list Bar) : monotonic l = true -> sorted_by_ts l.
Proof.
  unfold sorted_by_ts. induction l as [|x l IH]; intros H; [constructor|].
  destruct l as [|y l']; [constructor; constructor|].
  simpl in H. apply andb_prop in H as [Hxy Hl]. apply Z.leb_le in Hxy.
  specialize (IH Hl). constructor; [exact IH|].
  inversion IH as [|? ? _ Hy]; subst.
  constructor; [exact Hxy|].
  eapply Forall_impl; [|exact Hy]. intros z Hz. simpl in Hz. lia.
Qed.

(** The sort of [sort_index] gives the rows in time order, whatever it does
    with rows of equal timestamp. *)
Lemma insert_by_perm (before : Bar -> Bar -> bool) (b : Bar) (l : list Bar) :
  Permutation (insert_by before b l) (b :: l).
Proof.
  induction l as [|x l IH]; simpl; [apply Permutation_refl|].
  destruct (_ || _); [apply Permutation_refl|].
  eapply Permutation_trans; [apply perm_skip, IH|apply perm_swap].
Qed.

Lemma insert_by_sorted (before : Bar -> Bar -> bool) (b : Bar) (l : list Bar) :
  sorted_by_ts l -> sorted_by_ts (insert_by before b l).
Proof.
  unfold sorted_by_ts. induction l as [|x l IH]; intros H; simpl.
  - constructor; constructor.
  - inversion H as [|? ? Hl Hx]; subst.
    destruct ((ts b <? ts x) || ((ts b =? ts x) && before b x)) eqn:E.
    + assert (Hle : ts b <= ts x).
      { apply orb_prop in E as [E|E]; [apply Z.ltb_lt in E; lia|].
        apply andb_prop in E as [E _]. apply Z.eqb_eq in E. lia. }
      constructor; [exact H|]. constructor; [exact Hle|].
      eapply Forall_impl; [|exact Hx]. intros y Hy. simpl in Hy. lia.
    + apply orb_false_elim in E as [E _]. apply Z.ltb_ge in E.
      constructor; [apply IH; exact Hl|].
      apply (Permutation_Forall (Permutation_sym (insert_by_perm before b l))).
      constructor; [exact E|exact Hx].
Qed.

Lemma sort_rows_by_app (before : Bar -> Bar -> bool) (l : list Bar) (b : Bar) :
  sort_rows_by before (l ++ [b]) = insert_by before b (sort_rows_by before l).
Proof. unfold sort_rows_by. rewrite fold_left_app. reflexivity. Qed.

Lemma sort_rows_by_perm (before : Bar -> Bar -> bool) (l : list Bar) :
  Permutation (sort_rows_by before l) l.
Proof.
  induction l as [|b l IH] using rev_ind; [apply Permutation_refl|].
  rewrite sort_rows_by_app.
  eapply Permutation_trans; [apply insert_by_perm|].
  eapply Permutation_trans; [apply perm_skip, IH|].
  apply Permutation_cons_append.
Qed.

Lemma sort_rows_by_sorted (before : Bar -> Bar -> bool) (l : list Bar) :
  sorted_by_ts (sort_rows_by before l).
Proof.
  induction l as [|b l IH] using rev_ind.
  - constructor.
  - rewrite sort_rows_by_app. apply insert_by_sorted. exact IH.
Qed.

Lemma sort_index_perm (pd : Pandas) (df : DataFrame) :
  Permutation (rows (sort_index pd df)) (rows df).
Proof.
  unfold sort_index. destruct (monotonic (rows df)); [apply Permutation_refl|].
  apply sort_rows_by_perm.
Qed.

Lemma sort_index_monotonic (pd : Pandas) (df : DataFrame) :
  monotonic (rows (sort_index pd df)) = true.
Proof.
  unfold sort_index. destruct (monotonic (rows df)) eqn:E; [exact E|].
  apply sorted_monotonic, sort_rows_by_sorted.
Qed.

Lemma sort_index_columns (pd : Pandas) (df : DataFrame) :
  columns (sort_index pd df) = columns df /\ index (sort_index pd df) = index df.
Proof.
  unfold sort_index. destruct (monotonic (rows df)); split; reflexivity.
Qed.

Lemma sort_index_in_order (pd : Pandas) (df : DataFrame) :
  monotonic (rows df) = true -> sort_index pd df = df.
Proof. intros H. unfold sort_index. rewrite H. reflexivity. Qed.





Lemma filter_filter_sub {A : Type} (P Q : A -> bool) (l : list A) :
  (forall x, P x = true -> Q x = true) -> filter P (filter Q l) = filter P l.
Proof.
  intros H. induction l as [|x l IH]; simpl; [reflexivity|].
  destruct (Q x) eqn:EQ; simpl.
  - rewrite IH. reflexivity.
  - destruct (P x) eqn:EP; [rewrite (H x EP) in EQ; discriminate|exact IH].
Qed.


End FrameFacts.

(** ** Aggregation *)

Section AggregatorFacts.
Import Frame Aggregator Props Shapes.

Lemma valid_app {A : Type} (l1 l2 : list (option A)) :
  valid (l1 ++ l2) = valid l1 ++ valid l2.
Proof.
  induction l1 as [|[x|] l1 IH]; simpl; [reflexivity| |exact IH].
  rewrite IH. reflexivity.
Qed.

(** The bucket of a window holds the rows of the buffer stamped in it. *)
Lemma bucket_spec (df : DataFrame) (T start : Z) (r : Bar) :
  In r (bucket df T start) <->
  In r (rows df) /\ start <= ts r < start + T * minute_ms.
Proof.
  unfold bucket, in_bin. rewrite filter_In, andb_true_iff, Z.leb_le, Z.ltb_lt.
  split; intros [H1 H2]; (split; [|exact H2]).
  - eapply Permutation_in; [apply sort_rows_perm|exact H1].
  - eapply Permutation_in; [apply Permutation_sym, sort_rows_perm|exact H1].
Qed.


Lemma q_max_fold_upper (l : list Q) (x y : Q) :
  (y <= x)%Q -> (y <= fold_left q_max l x)%Q.
Proof.
  revert x. induction l as [|a l IH]; intros x Hxy; simpl; [exact Hxy|].
  apply IH. unfold q_max. destruct (Qle_bool x a) eqn:E; [|exact Hxy].
  apply Qle_bool_iff in E. eapply Qle_trans; eauto.
Qed.

Lemma q_max_fold_bound (l : list Q) (x y : Q) :
  In y l -> (y <= fold_left q_max l x)%Q.
Proof.
  revert x. induction l as [|a l IH]; intros x Hin; simpl in *; [contradiction|].
  destruct Hin as [->|Hin]; [|apply IH; exact Hin].
  apply q_max_fold_upper. unfold q_max.
  destruct (Qle_bool x y) eqn:E; [apply Qle_refl|].
  destruct (Qlt_le_dec y x) as [L|L]; [apply Qlt_le_weak; exact L|].
  apply Qle_bool_iff in L. congruence.
Qed.

Lemma q_max_fold_in (l : list Q) (x : Q) : In (fold_left q_max l x) (x :: l).
Proof.
  revert x. induction l as [|a l IH]; intros x; simpl; [left; reflexivity|].
  destruct (IH (q_max x a)) as [H|H].
  - unfold q_max in H at 1. destruct (Qle_bool x a); rewrite <- H; auto.
  - right; right; exact H.
Qed.

Lemma q_min_fold_lower (l : list Q) (x y : Q) :
  (x <= y)%Q -> (fold_left q_min l x <= y)%Q.
Proof.
  revert x. induction l as [|a l IH]; intros x Hxy; simpl; [exact Hxy|].
  apply IH. unfold q_min. destruct (Qle_bool a x) eqn:E; [|exact Hxy].
  apply Qle_bool_iff in E. eapply Qle_trans; eauto.
Qed.

Lemma q_min_fold_bound (l : list Q) (x y : Q) :
  In y l -> (fold_left q_min l x <= y)%Q.
Proof.
  revert x. induction l as [|a l IH]; intros x Hin; simpl in *; [contradiction|].
  destruct Hin as [->|Hin]; [|apply IH; exact Hin].
  apply q_min_fold_lower. unfold q_min.
  destruct (Qle_bool y x) eqn:E; [apply Qle_refl|].
  destruct (Qlt_le_dec x y) as [L|L]; [apply Qlt_le_weak; exact L|].
  apply Qle_bool_iff in L. congruence.
Qed.

Lemma q_min_fold_in (l : list Q) (x : Q) : In (fold_left q_min l x) (x :: l).
Proof.
  revert x. induction l as [|a l IH]; intros x; simpl; [left; reflexivity|].
  destruct (IH (q_min x a)) as [H|H].
  - unfold q_min in H at 1. destruct (Qle_bool a x); rewrite <- H; auto.
  - right; right; exact H.
Qed.

Lemma agg_max_is_max (l : list (option Q)) (h : Q) :
  agg_max l = Some h -> is_max_of h (valid l).
Proof.
  unfold agg_max. destruct (valid l) as [|x r]; [discriminate|].
  intros [= <-]. split; [apply q_max_fold_in|].
  intros y [<-|Hy]; [apply q_max_fold_upper, Qle_refl|apply q_max_fold_bound, Hy].
Qed.

Lemma agg_min_is_min (l : list (option Q)) (m : Q) :
  agg_min l = Some m -> is_min_of m (valid l).
Proof.
  unfold agg_min. destruct (valid l) as [|x r]; [discriminate|].
  intros [= <-]. split; [apply q_min_fold_in|].
  intros y [<-|Hy]; [apply q_min_fold_lower, Qle_refl|apply q_min_fold_bound, Hy].
Qed.


Lemma sum_fold_left (l : list Q) (acc : Q) :
  (fold_left Qplus l acc == acc + sum_of l)%Q.
Proof.
  revert acc. induction l as [|a l IH]; intros acc; simpl.
  - ring.
  - rewrite IH. ring.
Qed.

End AggregatorFacts.

Section AggregatorTheorems.
Import Frame Aggregator Columns Props Shapes.
Context {pd : Pandas}.

(** Every row of a successful aggregation is the reduction of one bin of the
    resampling whose four price cells are present. *)
Lemma aggregate_rows (df : DataFrame) (T : Z) (out : DataFrame) (a : Bar) :
  aggregate_time_frame pd df T = Ok out -> In a (rows out) ->
  0 < T /\
  exists start,
    In start (bin_edges (sort_rows (rows df)) (T * minute_ms)) /\
    a = aggregate_bin pd df (start, bucket df T start) /\
    is_some (open a) = true /\ is_some (high a) = true /\
    is_some (low a) = true /\ is_some (close a) = true.
Proof.
  unfold aggregate_time_frame.
  destruct (df_empty df); [intros [= <-] []|].
  destruct (negb (is_datetime df)); [discriminate|].
  destruct (T <=? 0) eqn:HT; [discriminate|].
  destruct (len df <? T); [intros [= <-] []|].
  destruct (missing_cols df); [|discriminate].
  intros H Hin.
  assert (Hin' : In a (dropna_ohlc
            (map (aggregate_bin pd df) (resample (rows df) (T * minute_ms))))).
  { destruct (dropna_ohlc _) as [|x r]; injection H as <-; simpl in Hin;
      [contradiction|exact Hin]. }
  clear H Hin. split; [lia|].
  unfold dropna_ohlc in Hin'. apply filter_In in Hin' as [Hin Hna].
  apply in_map_iff in Hin as [g [<- Hg]].
  unfold resample in Hg. apply in_map_iff in Hg as [start [<- Hs]].
  exists start. split; [exact Hs|]. split; [reflexivity|].
  repeat (apply andb_prop in Hna as [Hna ?]). auto.
Qed.




(** The sum of a volume column is made in the number type of the column:
    the floats 0.1, 0.2 and 0.3 add up to the float 0.6, which is not their
    sum as rationals, and the 64-bit integers [2^63 - 1] and 1 add up to
    [- 2^63]. *)
Lemma column_sums :
  float64_sum [double_0_1; double_0_2; double_0_3] = double_0_6 /\
  ~ (double_0_6 == sum_of [double_0_1; double_0_2; double_0_3])%Q /\
  int64_sum [inject_Z (2 ^ 63 - 1); 1%Q] = inject_Z (- 2 ^ 63).
Proof.
  split; [vm_compute; reflexivity|]. split; [|vm_compute; reflexivity].
  intros H. apply Qeq_bool_iff in H. vm_compute in H. discriminate.
Qed.



(** A buffer with fewer rows than the time frame gives the empty frame. *)
Lemma aggregate_time_frame_too_few (df : DataFrame) (T : Z) :
  is_datetime df = true -> len df < T ->
  aggregate_time_frame pd df T = Ok empty_frame.
Proof.
  intros Hdt Hlen. unfold aggregate_time_frame.
  destruct (df_empty df); [reflexivity|].
  rewrite Hdt. simpl.
  assert (0 <= len df) by (unfold len; lia).
  destruct (T <=? 0) eqn:E; [lia|].
  destruct (len df <? T) eqn:E'; [reflexivity|lia].
Qed.

(** C2.  Seven one-minute bars in time order from 09:30, aggregated at 5
    minutes: the result has a bar for the window of 09:35, which holds two
    raw bars only. *)
Theorem partial_bucket_emitted :
  monotonic (rows (create_sample_df 7)) = true /\
  exists out a,
    aggregate_time_frame pd (create_sample_df 7) 5 = Ok out /\
    In a (rows out) /\
    ts a = sample_start + 5 * minute_ms /\
    List.length (bucket (create_sample_df 7) 5 (ts a)) = 2%nat.
Proof.
  split; [reflexivity|].
  eexists; eexists.
  split; [vm_compute; reflexivity|].
  split; [right; left; reflexivity|].
  split; reflexivity.
Qed.

Lemma missing_cols_spec (df : DataFrame) :
  missing_cols df <> [] <->
  exists c, In c required_cols /\ has_col df c = false.
Proof.
  unfold missing_cols. split.
  - intros H. destruct (filter _ required_cols) as [|c r] eqn:E; [congruence|].
    exists c. assert (Hc : In c (filter (fun c => negb (has_col df c)) required_cols))
      by (rewrite E; left; reflexivity).
    apply filter_In in Hc as [H1 H2]. split; [exact H1|].
    apply negb_true_iff. exact H2.
  - intros [c [H1 H2]] E.
    assert (Hc : In c (filter (fun c => negb (has_col df c)) required_cols))
      by (apply filter_In; split; [exact H1|rewrite H2; reflexivity]).
    rewrite E in Hc. exact Hc.
Qed.

(** C7, as the claim has it, fails: an unordered buffer is aggregated, a
    buffer without its [volume] column and with fewer rows than the time
    frame gives the empty frame, and so does a buffer without rows, not
    datetime-indexed, at time frame 0. *)
Lemma malformed_input_not_refused :
  (malformed unordered_df 1 /\
   exists out, aggregate_time_frame int64_pandas unordered_df 1 = Ok out /\
               List.length (rows out) = 2%nat) /\
  (malformed no_volume_df 5 /\
   aggregate_time_frame int64_pandas no_volume_df 5 = Ok empty_frame) /\
  (malformed no_rows_df 0 /\
   aggregate_time_frame int64_pandas no_rows_df 0 = Ok empty_frame).
Proof.
  split; [|split].
  - split.
    + right; right; left. reflexivity.
    + eexists. split; [vm_compute; reflexivity|reflexivity].
  - split.
    + right; left. exists "volume"%string. split; [|reflexivity].
      simpl. tauto.
    + reflexivity.
  - split.
    + left. lia.
    + reflexivity.
Qed.

(** C7, amended.  [aggregate_time_frame] raises [ValueError] exactly when
    the buffer is not empty and its index is not a datetime index, or the
    time frame is not positive, or the buffer has at least as many rows as
    the time frame and lacks a required column.  The order of the rows plays
    no part. *)
Theorem aggregate_time_frame_raises (df : DataFrame) (T : Z) :
  raises_ValueError (aggregate_time_frame pd df T) <->
  df_empty df = false /\
  (is_datetime df = false \/
   T <= 0 \/
   (T <= len df /\ exists c, In c required_cols /\ has_col df c = false)).
Proof.
  unfold aggregate_time_frame, raises_ValueError.
  destruct (df_empty df).
  { split; [intros [m H]; discriminate|intros [H _]; discriminate]. }
  destruct (is_datetime df) eqn:Hdt; simpl.
  2:{ split; [intros _; auto|intros _; eexists; reflexivity]. }
  destruct (T <=? 0) eqn:HT.
  { split; [intros _; split; [reflexivity|right; left; lia]
           |intros _; eexists; reflexivity]. }
  destruct (len df <? T) eqn:Hlen.
  { split; [intros [m H]; discriminate|].
    intros [_ [H|[H|[H _]]]]; [discriminate|lia|lia]. }
  destruct (missing_cols df) as [|c r] eqn:Hm.
  - split.
    + intros [m H].
      destruct (dropna_ohlc _); discriminate.
    + intros [_ [H|[H|[_ H]]]]; [discriminate|lia|].
      apply missing_cols_spec in H. congruence.
  - split; [|intros _; eexists; reflexivity].
    intros _. split; [reflexivity|right; right]. split; [lia|].
    apply missing_cols_spec. congruence.
Qed.

End AggregatorTheorems.

Section AggregatorWitnesses.
Import Frame Aggregator Columns Props Shapes.


Lemma aggregate_time_frame_raises_witness :
  raises_ValueError (aggregate_time_frame int64_pandas plain_index_df 5).
Proof.
  apply (proj2 (aggregate_time_frame_raises plain_index_df 5)).
  split; [reflexivity|left; reflexivity].
Defined.

End AggregatorWitnesses.

(** ** Orders *)

Section FloatFacts.
Import PyFloat Props.
Local Open Scope Q_scope.

Lemma round_half_even_near (q : Q) :
  (Qabs (q - inject_Z (round_half_even q)) <= 1 # 2)%Q.
Proof.
  unfold round_half_even.
  pose proof (Qfloor_le q) as Hlo. pose proof (Qlt_floor q) as Hhi.
  rewrite inject_Z_plus in Hhi. change (inject_Z 1) with 1%Q in Hhi.
  apply Qabs_Qle_condition.
  destruct (Qcompare (q - inject_Z (Qfloor q)) (1 # 2)) eqn:E.
  - apply Qeq_alt in E.
    destruct (Z.even (Qfloor q)).
    + split; lra.
    + rewrite inject_Z_plus. change (inject_Z 1) with 1%Q. split; lra.
  - apply Qlt_alt in E. split; lra.
  - apply Qgt_alt in E. rewrite inject_Z_plus. change (inject_Z 1) with 1%Q.
    split; lra.
Qed.

Lemma two_nonzero : ~ 2 == 0.
Proof. discriminate. Qed.

Lemma pow2_pos (e : Z) : 0 < 2 ^ e.
Proof. apply Qpower_0_lt. reflexivity. Qed.

Lemma pow2_succ (e : Z) : 2 ^ (e + 1) == 2 * 2 ^ e.
Proof. rewrite Qpower_plus by apply two_nonzero. change (2 ^ 1) with 2. ring. Qed.

Lemma pow2_inject (n : Z) : (0 <= n)%Z -> 2 ^ n == inject_Z (2 ^ n).
Proof. intros H. rewrite Zpower_Qpower by exact H. reflexivity. Qed.

(** A positive rational lies between the quotients of the powers of two
    around its numerator and denominator. *)
Lemma quotient_bounds (a : Q) :
  0 < a ->
  2 ^ (Z.log2 (Qnum a) - Z.log2 (Zpos (Qden a)) - 1) < a /\
  a < 2 ^ (Z.log2 (Qnum a) - Z.log2 (Zpos (Qden a)) + 1).
Proof.
  destruct a as [n d]. intros Hn.
  assert (Hn' : (0 < n)%Z) by (unfold Qlt in Hn; simpl in Hn; lia).
  cbn [Qnum Qden].
  pose proof (Z.log2_spec n Hn') as [Hn1 Hn2].
  pose proof (Z.log2_spec (Zpos d) (Pos2Z.is_pos d)) as [Hd1 Hd2].
  pose proof (Z.log2_nonneg n) as Ln. pose proof (Z.log2_nonneg (Zpos d)) as Ld.
  set (ln := Z.log2 n) in *. set (ld := Z.log2 (Zpos d)) in *.
  assert (E1 : 2 ^ (ln - ld - 1) == inject_Z (2 ^ ln) / inject_Z (2 ^ (ld + 1))).
  { replace (ln - ld - 1)%Z with (ln - (ld + 1))%Z by ring.
    rewrite Qpower_minus by apply two_nonzero.
    rewrite !pow2_inject by lia. reflexivity. }
  assert (E2 : 2 ^ (ln - ld + 1) == inject_Z (2 ^ (ln + 1)) / inject_Z (2 ^ ld)).
  { replace (ln - ld + 1)%Z with (ln + 1 - ld)%Z by ring.
    rewrite Qpower_minus by apply two_nonzero.
    rewrite !pow2_inject by lia. reflexivity. }
  assert (P1 : (0 < 2 ^ (ld + 1))%Z) by (apply Z.pow_pos_nonneg; lia).
  assert (P2 : (0 < 2 ^ ld)%Z) by (apply Z.pow_pos_nonneg; lia).
  split.
  - rewrite E1. apply Qlt_shift_div_r; [change 0 with (inject_Z 0); rewrite <- Zlt_Qlt; exact P1|].
    unfold Qlt, Qmult, inject_Z. simpl. nia.
  - rewrite E2. apply Qlt_shift_div_l; [change 0 with (inject_Z 0); rewrite <- Zlt_Qlt; exact P2|].
    unfold Qlt, Qmult, inject_Z. simpl. nia.
Qed.

Lemma ilog2_spec (a : Q) : 0 < a -> 2 ^ ilog2 a <= a /\ a < 2 ^ (ilog2 a + 1).
Proof.
  intros Ha. destruct (quotient_bounds a Ha) as [Hlo Hhi]. unfold ilog2.
  set (e0 := (Z.log2 (Qnum a) - Z.log2 (Zpos (Qden a)))%Z) in *.
  destruct (Qle_bool (2 ^ e0) a) eqn:E.
  - apply Qle_bool_iff in E. split; [exact E|exact Hhi].
  - split; [apply Qlt_le_weak; exact Hlo|].
    replace (e0 - 1 + 1)%Z with e0 by ring.
    apply Qnot_le_lt. intros L. apply Qle_bool_iff in L. congruence.
Qed.

(** The float nearest to a rational is within half a unit in its last
    place: half of [2^(e - 52)] for a rational from [2^e] up to [2^(e+1)],
    and of [2^-1074] below the normal range. *)
Lemma b64_error (q : Q) :
  ~ q == 0 ->
  Qabs (b64 q - q) <= (1 # 2) * 2 ^ Z.max (ilog2 (Qabs q) - 52) (-1074).
Proof.
  intros Hq. unfold b64.
  destruct (Qeq_bool q 0) eqn:E0; [apply Qeq_bool_iff in E0; contradiction|].
  set (a := Qabs q). set (e := Z.max (ilog2 a - 52) (-1074)).
  pose proof (round_half_even_near (a / 2 ^ e)) as Hr.
  set (m := round_half_even (a / 2 ^ e)) in *.
  pose proof (pow2_pos e) as He.
  assert (Herr : Qabs (inject_Z m * 2 ^ e - a) <= (1 # 2) * 2 ^ e).
  { assert (E1 : inject_Z m * 2 ^ e - a == - ((a / 2 ^ e - inject_Z m) * 2 ^ e)).
    { field. intros Z0. rewrite Z0 in He. discriminate. }
    rewrite E1, Qabs_opp, Qabs_Qmult, (Qabs_pos (2 ^ e)) by lra.
    apply Qmult_le_compat_r; lra. }
  rewrite Qred_correct.
  destruct (Qle_bool 0 q) eqn:Es.
  - apply Qle_bool_iff in Es.
    assert (Eq : q == a) by (unfold a; rewrite Qabs_pos by exact Es; reflexivity).
    assert (E3 : 1 * inject_Z m * 2 ^ e - q == inject_Z m * 2 ^ e - a)
      by (rewrite Eq; ring).
    rewrite E3. exact Herr.
  - assert (Es' : q <= 0).
    { apply Qlt_le_weak, Qnot_le_lt. intros L. apply Qle_bool_iff in L. congruence. }
    assert (Eq : q == - a) by (unfold a; rewrite Qabs_neg by exact Es'; ring).
    assert (E3 : - (1) * inject_Z m * 2 ^ e - q == - (inject_Z m * 2 ^ e - a))
      by (rewrite Eq; ring).
    rewrite E3, Qabs_opp. exact Herr.
Qed.

Lemma Qabs_pos_nonzero (q : Q) : ~ q == 0 -> 0 < Qabs q.
Proof.
  intros Hq. destruct (Qlt_le_dec 0 (Qabs q)) as [L|L]; [exact L|].
  exfalso. apply Hq. pose proof (Qabs_nonneg q) as N.
  assert (Z0 : Qabs q == 0) by lra.
  apply Qabs_Qle_condition in L. lra.
Qed.

Lemma half_ulp (l : Z) : (1 # 2) * 2 ^ (l - 52) == 2 ^ l * (1 # 9007199254740992).
Proof.
  rewrite Qpower_minus by apply two_nonzero.
  change (2 ^ 52) with (4503599627370496 # 1). field.
Qed.

(** In the normal range that is a relative [2^-53]. *)
Lemma b64_near (q : Q) :
  2 ^ (-1022) <= Qabs q ->
  Qabs (b64 q - q) <= Qabs q * (1 # 9007199254740992).
Proof.
  intros Hn.
  assert (Ha : 0 < Qabs q).
  { eapply Qlt_le_trans; [apply (pow2_pos (-1022))|exact Hn]. }
  assert (Hq : ~ q == 0).
  { intros Z0. rewrite Z0 in Ha. discriminate. }
  pose proof (b64_error q Hq) as Herr.
  destruct (ilog2_spec (Qabs q) Ha) as [Hlo Hhi].
  set (l := ilog2 (Qabs q)) in *.
  assert (Hl : (-1022 <= l)%Z).
  { destruct (Z_lt_le_dec l (-1022)) as [L|L]; [|exact L]. exfalso.
    assert (2 ^ (l + 1) <= 2 ^ (-1022))
      by (apply Qpower_le_compat_l; [lia|discriminate]).
    lra. }
  rewrite Z.max_l in Herr by lia. rewrite half_ulp in Herr.
  eapply Qle_trans; [exact Herr|].
  apply Qmult_le_compat_r; [exact Hlo|discriminate].
Qed.

Lemma b64_near_any (q : Q) :
  Qabs (b64 q - q) <= Qabs q * (1 # 9007199254740992) + 2 ^ (-1075).
Proof.
  pose proof (pow2_pos (-1075)) as Ht.
  pose proof (Qabs_nonneg q) as Hq0.
  destruct (Qeq_dec q 0) as [Z0|Hq].
  - unfold b64. apply Qeq_bool_iff in Z0. rewrite Z0.
    apply Qeq_bool_iff in Z0.
    assert (E : 0 - q == 0) by (rewrite Z0; ring).
    rewrite E. change (Qabs 0) with 0. 
    assert (0 <= Qabs q * (1 # 9007199254740992))
      by (apply Qmult_le_0_compat; [exact Hq0|discriminate]).
    lra.
  - pose proof (b64_error q Hq) as Herr.
    pose proof (Qabs_pos_nonzero q Hq) as Ha.
    destruct (ilog2_spec (Qabs q) Ha) as [Hlo _].
    set (l := ilog2 (Qabs q)) in *.
    destruct (Z_le_gt_dec (-1074) (l - 52)) as [L|L].
    + rewrite Z.max_l in Herr by lia. rewrite half_ulp in Herr.
      assert (2 ^ l * (1 # 9007199254740992)
              <= Qabs q * (1 # 9007199254740992))
        by (apply Qmult_le_compat_r; [exact Hlo|discriminate]).
      lra.
    + rewrite Z.max_r in Herr by lia.
      assert (E : (1 # 2) * 2 ^ (-1074) == 2 ^ (-1075)).
      { replace (-1074)%Z with (-1075 + 1)%Z by reflexivity.
        rewrite pow2_succ. ring. }
      rewrite E in Herr.
      assert (0 <= Qabs q * (1 # 9007199254740992))
        by (apply Qmult_le_0_compat; [exact Hq0|discriminate]).
      lra.
Qed.

Lemma pow10_bounds (n : Z) : (0 <= n <= 4)%Z -> 1 <= 10 ^ n /\ 10 ^ n <= 10000.
Proof.
  intros Hn. split.
  - apply Qpower_1_le; [discriminate|lia].
  - change 10000 with (10 ^ 4). apply Qpower_le_compat_l; [lia|discriminate].
Qed.

(** A decimal of at most four places is in the normal range, or 0. *)
Lemma decimal_near (k n : Z) :
  (0 <= n <= 4)%Z ->
  Qabs (b64 (inject_Z k / 10 ^ n) - inject_Z k / 10 ^ n)
  <= Qabs (inject_Z k / 10 ^ n) * (1 # 9007199254740992).
Proof.
  intros Hn. destruct (pow10_bounds n Hn) as [P1 P2].
  assert (P0 : 0 < 10 ^ n) by lra.
  destruct (Z.eq_dec k 0) as [->|Hk].
  - assert (Z0 : inject_Z 0 / 10 ^ n == 0) by (unfold Qdiv; ring).
    unfold b64. apply Qeq_bool_iff in Z0. rewrite Z0. apply Qeq_bool_iff in Z0.
    rewrite Z0. apply Qle_bool_iff. reflexivity.
  - apply b64_near.
    assert (Hk1 : 1 <= Qabs (inject_Z k)).
    { unfold Qle, Qabs, inject_Z. simpl. lia. }
    assert (Ht : 2 ^ (-1022) <= 1 # 16384).
    { change (1 # 16384) with (2 ^ (-14)).
      apply Qpower_le_compat_l; [lia|discriminate]. }
    pose proof (pow2_pos (-1022)) as Ht0.
    unfold Qdiv. rewrite Qabs_Qmult.
    rewrite (Qabs_pos (/ 10 ^ n))
      by (apply Qlt_le_weak, Qinv_lt_0_compat; exact P0).
    apply Qle_shift_div_l; [exact P0|].
    apply Qle_trans with ((1 # 16384) * 10 ^ n).
    + apply Qmult_le_compat_r; lra.
    + lra.
Qed.

Lemma py_round_rounded (x : Q) (n : Z) :
  (0 <= n <= 4)%Z -> rounded_to 0 x n (py_round x n).
Proof.
  intros Hn. exists (round_half_even (x * 10 ^ n)). split.
  - rewrite Qplus_0_r. apply round_half_even_near.
  - apply decimal_near. exact Hn.
Qed.

Lemma np_round_rounded (x : Q) (n : Z) :
  (0 <= n <= 4)%Z ->
  rounded_to (rounding_slack numpy_float64 x n) x n (np_round x n).
Proof.
  intros Hn. exists (round_half_even (b64 (x * 10 ^ n))). split.
  - set (z := x * 10 ^ n). unfold rounding_slack. fold z.
    pose proof (b64_near_any z) as H1.
    pose proof (round_half_even_near (b64 z)) as H2.
    set (k := inject_Z (round_half_even (b64 z))) in *.
    assert (E : z - k == (b64 z - k) - (b64 z - z)) by ring.
    rewrite E.
    eapply Qle_trans; [apply Qabs_triangle|].
    rewrite Qabs_opp. lra.
  - apply decimal_near. exact Hn.
Qed.

Lemma round_as_rounded (k : number_kind) (x : Q) (n : Z) :
  (0 <= n <= 4)%Z -> rounded_to (rounding_slack k x n) x n (round_as k x n).
Proof.
  destruct k; [apply py_round_rounded|apply np_round_rounded].
Qed.

(** 12.34 is not 12.345 rounded to the nearest hundredth. *)
Lemma not_nearest_hundredth : ~ rounded_to 0 double_12_345 2 double_12_34.
Proof.
  intros [k [H1 H2]].
  change (10 ^ 2) with 100 in H1, H2.
  apply Qabs_Qle_condition in H1 as [H1 H1'].
  assert (Hk : k = 1235%Z).
  { unfold double_12_345, Qle, Qminus, Qplus, Qmult, Qopp, inject_Z in H1, H1'.
    cbn [Qnum Qden] in H1, H1'. lia. }
  subst k. revert H2. apply Qlt_not_le. reflexivity.
Qed.
Lemma round_half_even_small (q : Q) :
  (0 <= q)%Q -> (q <= 1 # 2)%Q -> round_half_even q = 0%Z.
Proof.
  intros H0 H1. unfold round_half_even.
  assert (Hf : Qfloor q = 0%Z).
  { pose proof (Qfloor_le q) as Hlo. pose proof (Qlt_floor q) as Hhi.
    assert (A : (inject_Z (Qfloor q) < inject_Z 1)%Q)
      by (change (inject_Z 1) with 1%Q; lra).
    assert (B : (inject_Z (-1) < inject_Z (Qfloor q))%Q).
    { rewrite inject_Z_plus in Hhi. change (inject_Z 1) with 1%Q in Hhi.
      change (inject_Z (-1)) with (-1 # 1)%Q. lra. }
    rewrite <- Zlt_Qlt in A, B. lia. }
  rewrite Hf. change (inject_Z 0) with 0%Q.
  destruct (Qcompare (q - 0) (1 # 2)) eqn:E; [reflexivity|reflexivity|].
  apply Qgt_alt in E. exfalso. lra.
Qed.

(** Rounding to an integer does not cross an integer. *)
Lemma round_half_even_bounds (q : Q) (lo hi : Z) :
  inject_Z lo <= q -> q <= inject_Z hi ->
  (lo <= round_half_even q <= hi)%Z.
Proof.
  intros Hlo Hhi. pose proof (round_half_even_near q) as H.
  apply Qabs_Qle_condition in H as [H1 H2].
  assert (A : inject_Z lo < inject_Z (round_half_even q + 1)).
  { rewrite inject_Z_plus. change (inject_Z 1) with 1. lra. }
  assert (B : inject_Z (round_half_even q) < inject_Z (hi + 1)).
  { rewrite inject_Z_plus. change (inject_Z 1) with 1. lra. }
  rewrite <- Zlt_Qlt in A, B. lia.
Qed.

Lemma Qabs_nonneg_eq (z : Q) : 0 <= z -> Qabs z = z.
Proof.
  destruct z as [n d]. unfold Qle, Qabs. simpl. intros H.
  rewrite Z.abs_eq by lia. reflexivity.
Qed.

(** The float nearest to a rational from 0 to a half lies from 0 to a
    half. *)
Lemma b64_small (z : Q) : 0 <= z -> z <= 1 # 2 -> 0 <= b64 z /\ b64 z <= 1 # 2.
Proof.
  intros H0 H1. unfold b64.
  destruct (Qeq_bool z 0) eqn:E0; [split; discriminate|].
  assert (Hz : ~ z == 0).
  { intros Z0. apply Qeq_bool_iff in Z0. congruence. }
  apply Qle_bool_iff in H0 as Hs. rewrite Hs.
  rewrite (Qabs_nonneg_eq z H0).
  assert (Ha : 0 < z) by (pose proof (Qabs_pos_nonzero z Hz) as P;
                          rewrite (Qabs_nonneg_eq z H0) in P; exact P).
  destruct (ilog2_spec z Ha) as [Hlo _].
  set (l := ilog2 z) in *.
  assert (Hl : (l <= -1)%Z).
  { apply (Qpower_le_compat_l_inv 2); [|reflexivity].
    change (2 ^ (-1)) with (1 # 2). lra. }
  set (e := Z.max (l - 52) (-1074)).
  assert (He : (e <= -53)%Z) by (unfold e; lia).
  pose proof (pow2_pos e) as Pe.
  assert (Hq : 0 <= z / 2 ^ e).
  { apply Qle_shift_div_l; [exact Pe|]. lra. }
  assert (Hn : z / 2 ^ e <= inject_Z (2 ^ (-1 - e))).
  { rewrite <- pow2_inject by lia.
    apply Qle_shift_div_r; [exact Pe|].
    rewrite <- Qpower_plus by apply two_nonzero.
    replace (-1 - e + e)%Z with (-1)%Z by ring.
    change (2 ^ (-1)) with (1 # 2). exact H1. }
  destruct (round_half_even_bounds (z / 2 ^ e) 0 (2 ^ (-1 - e)) Hq Hn)
    as [M0 M1].
  set (m := round_half_even (z / 2 ^ e)) in *.
  rewrite Qred_correct.
  rewrite Zle_Qle in M0, M1. change (inject_Z 0) with 0 in M0.
  rewrite <- pow2_inject in M1 by lia.
  split.
  - apply Qmult_le_0_compat; [lra|lra].
  - apply Qle_trans with (2 ^ (-1 - e) * 2 ^ e).
    + rewrite Qmult_1_l. apply Qmult_le_compat_r; [exact M1|lra].
    + rewrite <- Qpower_plus by apply two_nonzero.
      replace (-1 - e + e)%Z with (-1)%Z by ring. apply Qle_refl.
Qed.

End FloatFacts.

Section AccountFacts.
Import PyFloat Account Props.
Context {k : number_kind}.

Lemma Qlt_bool_iff (a b : Q) : Qlt_bool a b = true <-> (a < b)%Q.
Proof.
  unfold Qlt_bool. rewrite negb_true_iff. split.
  - intros H. apply Qnot_le_lt. intros L. apply Qle_bool_iff in L. congruence.
  - intros H. destruct (Qle_bool b a) eqn:E; [|reflexivity].
    apply Qle_bool_iff in E. exfalso. eapply Qlt_not_le; eauto.
Qed.

(** What [send_orders] leaves behind: the store is untouched, and at most
    one order is posted, for the rounded price. *)
Lemma send_orders_effect (b : Broker) (w : World) (q : Q) (e : Z) (p : Q)
  (s i : string) :
  positions (snd (send_orders k b w q e p s i)) = positions w /\
  cancelled (snd (send_orders k b w q e p s i)) = cancelled w /\
  ((exists exc, fst (send_orders k b w q e p s i) = Raise exc) /\
   snd (send_orders k b w q e p s i) = w \/
   (exists r o, fst (send_orders k b w q e p s i) = Ok r /\
                posted (snd (send_orders k b w q e p s i)) = posted w ++ [o] /\
                carries_price o (round_price k p) /\
                nonempty s = true /\ (0 < q)%Q)).
Proof.
  unfold send_orders.
  destruct (nonempty s) eqn:Hs; simpl.
  2:{ repeat split. left. split; [eexists|]; reflexivity. }
  destruct (Qle_bool q 0) eqn:Hq; simpl.
  { repeat split. left. split; [eexists|]; reflexivity. }
  assert (Hq' : (0 < q)%Q).
  { apply Qnot_le_lt. intros L. apply Qle_bool_iff in L. congruence. }
  destruct (post_order b _) as [| | |status location];
    try (repeat split; right; eexists; eexists;
         repeat split; try reflexivity; assumption).
  destruct ((400 <=? status) && (status <? 600))%Z;
    [repeat split; right; eexists; eexists;
     repeat split; try reflexivity; assumption|].
  destruct (status =? 201)%Z;
    [|repeat split; right; eexists; eexists;
      repeat split; try reflexivity; assumption].
  destruct location as [l|]; [destruct (nonempty l)|];
    repeat split; right; eexists; eexists;
      repeat split; try reflexivity; assumption.
Qed.

Lemma sell_one_effect (b : Broker) (w : World) (p : Q) (s oid : string) :
  positions (snd (sell_one k b w p s oid)) = positions w /\
  exists new,
    posted (snd (sell_one k b w p s oid)) = posted w ++ new /\
    Forall (fun o => carries_price o (round_price k p)) new.
Proof.
  unfold sell_one.
  assert (Hnil : forall w0 : World,
             exists new, posted w0 = posted w0 ++ new /\
                         Forall (fun o => carries_price o (round_price k p)) new).
  { intros w0. exists []. rewrite app_nil_r. split; [reflexivity|constructor]. }
  destruct (get_orders b oid) as [[|kv d]|];
    try (split; [reflexivity|apply Hnil]).
  generalize (kv :: d). intros order.
  destruct (equals_str _ _);
    [|split; [reflexivity|apply (Hnil (add_cancelled w oid))]].
  destruct (dict_get order "filledQuantity") as [[|fq|]|];
    try (split; [reflexivity|apply Hnil]).
  destruct (Qlt_bool 0 fq); [|split; [reflexivity|apply Hnil]].
  destruct (send_orders_effect b w fq 1440 p s "SELL") as [Hp [_ Hcase]].
  destruct (send_orders k b w fq 1440 p s "SELL") as [[r|e] w'] eqn:E; simpl in *.
  - split; [exact Hp|].
    destruct Hcase as [[[exc Hexc] _]|[r' [o [_ [Hpost [Hc _]]]]]]; [discriminate|].
    exists [o]. split; [exact Hpost|]. constructor; [exact Hc|constructor].
  - split; [exact Hp|].
    destruct Hcase as [[_ ->]|[r' [o [Hr _]]]]; [apply Hnil|discriminate].
Qed.

Lemma sell_loop_effect (b : Broker) (p : Q) (s : string) (ids : list string) :
  forall w : World,
    positions (snd (sell_loop k b w p s ids)) = positions w /\
    exists new,
      posted (snd (sell_loop k b w p s ids)) = posted w ++ new /\
      Forall (fun o => carries_price o (round_price k p)) new.
Proof.
  induction ids as [|oid rest IH]; intros w; simpl.
  - split; [reflexivity|]. exists []. rewrite app_nil_r. split; [reflexivity|constructor].
  - destruct (sell_one_effect b w p s oid) as [Hp [new [Hposted Hall]]].
    destruct (sell_one k b w p s oid) as [[u|e] w1]; simpl in *.
    + destruct (IH w1) as [Hp' [new' [Hposted' Hall']]].
      split; [congruence|].
      exists (new ++ new'). split.
      * rewrite Hposted', Hposted, app_assoc. reflexivity.
      * apply Forall_app. split; assumption.
    + split; [exact Hp|]. exists new. split; assumption.
Qed.

Lemma sell_one_returns (b : Broker) (w : World) (p : Q) (s oid : string) :
  (forall d, get_orders b oid = Some d ->
             nonempty s = true /\ numeric_or_absent (dict_get d "filledQuantity")) ->
  fst (sell_one k b w p s oid) = Ok tt.
Proof.
  unfold sell_one. intros H.
  destruct (get_orders b oid) as [[|kv d]|]; try reflexivity.
  destruct (H _ eq_refl) as [Hs Hnum]. revert Hnum.
  generalize (kv :: d). intros order Hnum.
  destruct (equals_str _ _); [|reflexivity].
  destruct (dict_get order "filledQuantity") as [[|fq|]|];
    try reflexivity; try contradiction.
  destruct (Qlt_bool 0 fq) eqn:Hq; [|reflexivity].
  destruct (send_orders_effect b w fq 1440 p s "SELL") as [_ [_ Hcase]].
  destruct (send_orders k b w fq 1440 p s "SELL") as [[r|e] w'] eqn:E;
    [reflexivity|]. simpl in Hcase.
  destruct Hcase as [[_ Hw]|[r' [o [Hr _]]]]; [|discriminate].
  exfalso. unfold send_orders in E. rewrite Hs in E. simpl in E.
  apply Qlt_bool_iff in Hq.
  destruct (Qle_bool fq 0) eqn:Hle.
  - apply Qle_bool_iff in Hle. eapply Qlt_not_le; eauto.
  - subst w'. destruct (post_order b _) as [| | |st loc]; try discriminate.
    destruct ((400 <=? st) && (st <? 600))%Z; [discriminate|].
    destruct (st =? 201)%Z; [|discriminate].
    destruct loc as [l|]; [destruct (nonempty l)|]; discriminate.
Qed.

Lemma sell_loop_returns (b : Broker) (p : Q) (s : string) (ids : list string) :
  forall w : World,
    (forall oid d, In oid ids -> get_orders b oid = Some d ->
                   nonempty s = true /\
                   numeric_or_absent (dict_get d "filledQuantity")) ->
    fst (sell_loop k b w p s ids) = Ok tt.
Proof.
  induction ids as [|oid rest IH]; intros w H; simpl; [reflexivity|].
  pose proof (sell_one_returns b w p s oid (fun d => H oid d (or_introl eq_refl)))
    as H1.
  destruct (sell_one k b w p s oid) as [[u|e] w1]; simpl in H1; [|discriminate].
  apply IH. intros oid' d Hin. apply H. right. exact Hin.
Qed.

Lemma delete_active_positions_none (sid : Z) (db : Store) :
  get_order_id_list sid (delete_active_positions sid db) = [].
Proof.
  unfold get_order_id_list, delete_active_positions.
  induction db as [|x db IH]; simpl; [reflexivity|].
  destruct (strategy_id x =? sid)%Z eqn:E; simpl; [exact IH|].
  rewrite E. exact IH.
Qed.

Lemma delete_active_positions_others (sid : Z) (db : Store) (x : ActivePosition) :
  In x (delete_active_positions sid db) <-> In x db /\ strategy_id x <> sid.
Proof.
  unfold delete_active_positions. rewrite filter_In, negb_true_iff, Z.eqb_neq.
  reflexivity.
Qed.

(** Every order a call of [send_strategy_orders] posts goes out for the
    rounded price. *)
Lemma send_strategy_orders_posted (b : Broker) (w : World) (quantity : Q)
  (exp_min : Z) (symbol : string) (sid : Z) (p : Q) (instruction : string) :
  exists new,
    posted (snd (send_strategy_orders k b w quantity exp_min symbol sid p
                                      instruction)) = posted w ++ new /\
    Forall (fun o => carries_price o (round_price k (round_price k p))) new.
Proof.
  assert (Hnil : exists new, posted w = posted w ++ new /\
             Forall (fun o => carries_price o (round_price k (round_price k p))) new).
  { exists []. rewrite app_nil_r. split; [reflexivity|constructor]. }
  unfold send_strategy_orders.
  destruct (negb _); [exact Hnil|].
  destruct (String.eqb (upper instruction) "BUY").
  - destruct (send_orders_effect b w quantity exp_min (round_price k p) symbol "BUY")
      as [_ [_ Hcase]].
    destruct (send_orders k b w quantity exp_min (round_price k p) symbol "BUY")
      as [[[oid|]|e] w1]; simpl in *;
      (destruct Hcase as [[_ ->]|[r [o [_ [Hpost [Hc _]]]]]];
       [try destruct (nonempty oid); try destruct (db_insert b _); exact Hnil|]);
      try destruct (nonempty oid); try destruct (db_insert b _); simpl;
      exists [o]; (split; [exact Hpost|constructor; [exact Hc|constructor]]).
  - destruct (sell_loop_effect b (round_price k p) symbol
                (get_order_id_list sid (positions w)) w) as [_ Hnew].
    destruct (sell_loop k b w (round_price k p) symbol _) as [[u|e] w1];
      simpl in *; exact Hnew.
Qed.

End AccountFacts.

Section AccountTheorems.
Import PyFloat Account Stream Props.

(** C4, as the claim has it, fails: strategy 1 has one open position, the
    brokerage reports it filled, and the SELL cycle is run with an empty
    symbol.  The cycle completes and the position row is still there. *)
Lemma sell_cycle_keeps_rows :
  fst (send_strategy_orders python_float filled_broker one_position
                            1 5 "" 1 0 "SELL")
  = Ok (Some "SELL completed"%string) /\
  get_order_id_list 1
    (positions (snd (send_strategy_orders python_float filled_broker one_position
                                          1 5 "" 1 0 "SELL")))
  = ["A"%string].
Proof. split; vm_compute; reflexivity. Qed.

(** C4, amended.  A SELL cycle of [send_strategy_orders] completes and
    leaves no row of the strategy in the position store, the rows of the
    other strategies being kept, whatever each lookup, sell placement and
    cancellation gives, provided no exception leaves the loop over the order
    ids: whenever a lookup gives an order document, the symbol is not empty
    and the document's [filledQuantity] is a number or absent. *)
Theorem sell_cycle_clears_positions (k : number_kind) (b : Broker) (w : World)
  (quantity : Q) (exp_min : Z) (symbol : string) (sid : Z) (price : Q)
  (instruction : string) :
  upper instruction = "SELL"%string ->
  (forall oid d,
      In oid (get_order_id_list sid (positions w)) ->
      get_orders b oid = Some d ->
      nonempty symbol = true /\ numeric_or_absent (dict_get d "filledQuantity")) ->
  fst (send_strategy_orders k b w quantity exp_min symbol sid price instruction)
  = Ok (Some "SELL completed"%string) /\
  get_order_id_list sid
    (positions (snd (send_strategy_orders k b w quantity exp_min symbol sid
                                          price instruction))) = [] /\
  forall x,
    In x (positions (snd (send_strategy_orders k b w quantity exp_min symbol sid
                                               price instruction)))
    <-> In x (positions w) /\ strategy_id x <> sid.
Proof.
  intros Hi Hsafe. unfold send_strategy_orders. rewrite Hi.
  change (negb (String.eqb "SELL" "BUY" || String.eqb "SELL" "SELL")) with false.
  change (String.eqb "SELL" "BUY") with false. cbv iota.
  pose proof (sell_loop_returns (k:=k) b (round_price k price) symbol _ w Hsafe)
    as Hok.
  destruct (sell_loop_effect (k:=k) b (round_price k price) symbol
              (get_order_id_list sid (positions w)) w) as [Hpos _].
  destruct (sell_loop k b w (round_price k price) symbol _) as [[u|e] w1];
    simpl in Hok, Hpos; [|discriminate].
  simpl. rewrite Hpos. split; [reflexivity|]. split.
  - apply delete_active_positions_none.
  - intros x. apply delete_active_positions_others.
Qed.

Lemma sell_cycle_clears_positions_witness :
  get_order_id_list 1
    (positions (snd (send_strategy_orders python_float unreachable_broker
                                          one_position 1 5 "" 1 0 "SELL"))) = [].
Proof.
  refine (proj1 (proj2 (sell_cycle_clears_positions python_float
                          unreachable_broker one_position 1 5 "" 1 0 "SELL" _ _))).
  - reflexivity.
  - intros oid d _ H. simpl in H. discriminate.
Defined.

(** A BUY whose placement gives no order id leaves the store as it was,
    after one POST. *)
Lemma buy_failure_store_unchanged (k : number_kind) (b : Broker) (w : World)
  (quantity : Q) (exp_min : Z) (symbol : string) (sid : Z) (price : Q)
  (instruction : string) :
  upper instruction = "BUY"%string ->
  fst (send_strategy_orders k b w quantity exp_min symbol sid price instruction)
  = Ok None ->
  positions (snd (send_strategy_orders k b w quantity exp_min symbol sid price
                                       instruction)) = positions w /\
  exists o,
    posted (snd (send_strategy_orders k b w quantity exp_min symbol sid price
                                      instruction)) = posted w ++ [o].
Proof.
  intros Hi. unfold send_strategy_orders. rewrite Hi.
  change (negb (String.eqb "BUY" "BUY" || String.eqb "BUY" "SELL")) with false.
  change (String.eqb "BUY" "BUY") with true. cbv iota.
  destruct (send_orders_effect (k:=k) b w quantity exp_min (round_price k price)
              symbol "BUY") as [Hp [_ Hcase]].
  destruct (send_orders k b w quantity exp_min (round_price k price) symbol "BUY")
    as [[[oid|]|e] w1]; simpl in *.
  - destruct (nonempty oid); simpl; [discriminate|]. intros _.
    split; [exact Hp|].
    destruct Hcase as [[[exc He] _]|[r [o [_ [Hpost _]]]]]; [discriminate|].
    exists o. exact Hpost.
  - intros _. split; [exact Hp|].
    destruct Hcase as [[[exc He] _]|[r [o [_ [Hpost _]]]]]; [discriminate|].
    exists o. exact Hpost.
  - discriminate.
Qed.

(** A failed BUY is logged as an error, unless the brokerage answered
    201: then the log is as before. *)
Lemma buy_failure_log (k : number_kind) (b : Broker) (w : World) (quantity : Q)
  (exp_min : Z) (symbol : string) (sid : Z) (price : Q) (instruction : string) :
  upper instruction = "BUY"%string ->
  fst (send_strategy_orders k b w quantity exp_min symbol sid price instruction)
  = Ok None ->
  (exists msg,
      log (snd (send_strategy_orders k b w quantity exp_min symbol sid price
                                     instruction)) = log w ++ [(ERROR, msg)]) \/
  (log (snd (send_strategy_orders k b w quantity exp_min symbol sid price
                                  instruction)) = log w /\
   exists o location, post_order b o = PostResponse 201 location).
Proof.
  intros Hi. unfold send_strategy_orders. rewrite Hi.
  change (negb (String.eqb "BUY" "BUY" || String.eqb "BUY" "SELL")) with false.
  change (String.eqb "BUY" "BUY") with true. cbv iota.
  unfold send_orders.
  destruct (nonempty symbol); [|discriminate]. cbn [negb].
  destruct (Qle_bool quantity 0); [discriminate|].
  match goal with |- context [post_order b ?o] => set (data := o) end.
  destruct (post_order b data) as [| | |status location] eqn:E;
    try (intros _; left; eexists; reflexivity).
  destruct ((400 <=? status) && (status <? 600))%Z;
    [intros _; left; eexists; reflexivity|].
  destruct (status =? 201)%Z eqn:Es;
    [|intros _; left; eexists; reflexivity].
  apply Z.eqb_eq in Es. subst status.
  destruct location as [l|]; [destruct (nonempty l)|].
  - destruct (nonempty (last_segment l)); [discriminate|].
    intros _. right. split; [reflexivity|]. eauto.
  - intros _. right. split; [reflexivity|]. eauto.
  - intros _. right. split; [reflexivity|]. eauto.
Qed.

(** C5.  A BUY to a brokerage that answers 201 without a [Location] header:
    no order id comes back, the store is unchanged and one order was
    posted, and nothing was written to the log. *)
Theorem buy_failure_not_logged :
  fst (send_strategy_orders python_float no_location_broker empty_world
                            1 5 "SPY" 1 0 "BUY")
  = Ok None /\
  positions (snd (send_strategy_orders python_float no_location_broker
                                       empty_world 1 5 "SPY" 1 0 "BUY")) = [] /\
  List.length (posted (snd (send_strategy_orders python_float no_location_broker
                                                 empty_world 1 5 "SPY" 1 0 "BUY")))
  = 1%nat /\
  log (snd (send_strategy_orders python_float no_location_broker empty_world
                                 1 5 "SPY" 1 0 "BUY")) = [] /\
  log (snd (send_strategy_orders python_float unreachable_broker empty_world
                                 1 5 "SPY" 1 0 "BUY"))
  = [(ERROR, "Order request timed out."%string)].
Proof. repeat split; vm_compute; reflexivity. Qed.

(** [order_raises] tells when [send_strategy_orders] raises, whatever the
    brokerage and the store. *)
Lemma order_raises_spec (b : Broker) (w : World) (c : OrderCall) :
  order_raises c = true <-> exists e, fst (place_order b w c) = Raise e.
Proof.
  unfold order_raises, place_order, send_strategy_orders.
  destruct (negb _).
  { split; [intros _; eexists; reflexivity|reflexivity]. }
  destruct (String.eqb (upper (call_instruction c)) "BUY").
  - unfold send_orders.
    destruct (nonempty (call_symbol c)); simpl.
    2:{ split; [intros _; eexists; reflexivity|reflexivity]. }
    destruct (Qle_bool (call_quantity c) 0); simpl.
    { split; [intros _; eexists; reflexivity|reflexivity]. }
    split; [discriminate|]. intros [e He]. exfalso. revert He.
    destruct (post_order b _) as [| | |status location]; try discriminate.
    destruct ((400 <=? status) && (status <? 600))%Z; [discriminate|].
    destruct (status =? 201)%Z; [|discriminate].
    destruct location as [l|]; [destruct (nonempty l)|]; try discriminate.
    destruct (nonempty (last_segment l)); discriminate.
  - split; [discriminate|]. intros [e He]. exfalso. revert He.
    destruct (sell_loop _ _ _ _ _ _) as [[u|e'] w1]; discriminate.
Qed.

(** C6, as the claim has it, fails for the limit prices of the bar handler,
    which are cells of a frame ([numpy.float64]): [round] on such a number
    multiplies, rounds and divides, and gives 12.34 for 12.345 and 0.1234
    for 0.12345; 12.34 is not 12.345 to the nearest hundredth.  A strategy
    with limit orders whose last row asks to buy at a close of 12.345 has
    its order posted at 12.34. *)
Lemma limit_price_rounded_down :
  round_price numpy_float64 double_12_345 = double_12_34 /\
  round_price numpy_float64 double_0_12345 = double_0_1234 /\
  ~ rounded_to 0 double_12_345 2 (round_price numpy_float64 double_12_345) /\
  exists input c o,
    evaluate limit_cache 1 limit_strategy input
    = [StrategyCalled 1 "smaCross" input; OrderSent c] /\
    call_price c = double_12_345 /\
    posted (snd (place_order filled_broker empty_world c)) = [o] /\
    price o = Some double_12_34.
Proof.
  split; [vm_compute; reflexivity|]. split; [vm_compute; reflexivity|].
  split.
  - replace (round_price numpy_float64 double_12_345) with double_12_34
      by (vm_compute; reflexivity).
    apply not_nearest_hundredth.
  - exists (Frame.mkDF Frame.DatetimeIndex Frame.required_cols []).
    eexists; eexists.
    split; [vm_compute; reflexivity|]. split; [reflexivity|].
    split; vm_compute; reflexivity.
Qed.

(** C6, amended.  [round_price] rounds a price below 1 to 4 decimal places
    and a price of 1 or more to 2 decimal places, with the [round] of the
    number's own type, and gives a float within a relative [2^-53] of a
    decimal of that many places.  For a Python number the decimal is a
    nearest one of the price (its last place within a half of it, ties
    going to the even digit); for a [numpy.float64], as are the limit prices
    the bar handler takes from a frame, the last place may lie beyond a half
    by the rounding error of the product of the price and the power of ten.
    Every order [send_orders] posts, and so every order
    [send_strategy_orders] posts, goes out for the rounded price: as a
    market order without a price when it is 0.  In particular the Python
    floats 0.12345 and 12.345 give 0.1235 and 12.35, the same numbers as
    [numpy.float64] give 0.1234 and 12.34, and 0 gives 0, a market order. *)
Theorem round_price_policy :
  (forall k p, (p < 1)%Q ->
     round_price k p = round_as k p 4 /\
     rounded_to (rounding_slack k p 4) p 4 (round_price k p)) /\
  (forall k p, (1 <= p)%Q ->
     round_price k p = round_as k p 2 /\
     rounded_to (rounding_slack k p 2) p 2 (round_price k p)) /\
  (forall k b w quantity exp_min p symbol instruction,
     exists new,
       posted (snd (send_orders k b w quantity exp_min p symbol instruction))
       = posted w ++ new /\
       Forall (fun o => carries_price o (round_price k p)) new) /\
  (forall k b w quantity exp_min symbol sid p instruction,
     exists new,
       posted (snd (send_strategy_orders k b w quantity exp_min symbol sid p
                                         instruction)) = posted w ++ new /\
       Forall (fun o => carries_price o (round_price k (round_price k p))) new) /\
  round_price python_float double_0_12345 = double_0_1235 /\
  round_price python_float double_12_345 = double_12_35 /\
  round_price numpy_float64 double_0_12345 = double_0_1234 /\
  round_price numpy_float64 double_12_345 = double_12_34 /\
  (forall k, round_price k 0 = 0%Q) /\
  (forall k o, carries_price o (round_price k 0) ->
               orderType o = "MARKET"%string /\ price o = None).
Proof.
  split; [|split; [|split; [|split; [|split; [|split; [|split; [|split;
    [|split]]]]]]]].
  - intros k p Hp. unfold round_price.
    apply Qlt_bool_iff in Hp. rewrite Hp.
    split; [reflexivity|apply round_as_rounded; lia].
  - intros k p Hp. unfold round_price.
    destruct (Qlt_bool p 1) eqn:E.
    + apply Qlt_bool_iff in E. exfalso. eapply Qlt_not_le; eauto.
    + split; [reflexivity|apply round_as_rounded; lia].
  - intros k b w q e p s i.
    destruct (send_orders_effect (k:=k) b w q e p s i) as [_ [_ Hcase]].
    destruct Hcase as [[_ ->]|[r [o [_ [Hpost [Hc _]]]]]].
    + exists []. rewrite app_nil_r. split; [reflexivity|constructor].
    + exists [o]. split; [exact Hpost|constructor; [exact Hc|constructor]].
  - intros. apply send_strategy_orders_posted.
  - vm_compute. reflexivity.
  - vm_compute. reflexivity.
  - vm_compute. reflexivity.
  - vm_compute. reflexivity.
  - intros []; vm_compute; reflexivity.
  - intros k o [Hp Ht].
    replace (round_price k 0) with 0%Q in Hp, Ht
      by (destruct k; vm_compute; reflexivity).
    split; [exact Ht|exact Hp].
Qed.

Lemma round_price_policy_witness :
  round_price python_float (1 # 2) = round_as python_float (1 # 2) 4 /\
  round_price numpy_float64 2 = round_as numpy_float64 2 2.
Proof.
  split.
  - apply (proj1 round_price_policy python_float (1 # 2)%Q). reflexivity.
  - apply (proj1 (proj2 round_price_policy) numpy_float64 2%Q). discriminate.
Defined.

End AccountTheorems.

(** ** The bar handler *)

Section StreamFacts.
Import Frame Aggregator PyFloat Account Stream Props Shapes.
Context {pd : Pandas}.

Lemma union_cols_nonempty (a b : list string) : a <> [] -> union_cols a b <> [].
Proof.
  revert a. induction b as [|c r IH]; intros a Ha; simpl; [exact Ha|].
  destruct (existsb _ a); apply IH; [exact Ha|].
  destruct a; discriminate.
Qed.

Lemma union_cols_required (a : list string) : union_cols a required_cols <> [].
Proof.
  destruct a as [|x a].
  - vm_compute. discriminate.
  - apply union_cols_nonempty. discriminate.
Qed.

(** The frame after the append is never empty. *)
Lemma appended_not_empty (d : DataFrame) (item : ChartItem) (sym : string) :
  df_empty (sort_index pd (concat d (new_bars item sym))) = false.
Proof.
  unfold df_empty.
  destruct (sort_index_columns pd (concat d (new_bars item sym))) as [-> _].
  pose proof (sort_index_perm pd (concat d (new_bars item sym))) as P.
  destruct (rows (sort_index pd _)) as [|x l].
  - apply Permutation_nil in P. cbn [concat rows new_bars] in P.
    destruct (rows d); discriminate.
  - cbn [concat columns new_bars].
    pose proof (union_cols_required (columns d)) as H.
    destruct (union_cols (columns d) required_cols); [congruence|reflexivity].
Qed.

(** [process_bar] touches the frame only: it becomes the old frame with the
    new bar, sorted. *)
Lemma process_bar_state (cache : Cache) (item : ChartItem) (sym : string)
  (sid : Z) (sd : StrategyData) :
  fst (process_bar pd cache item sym sid sd)
  = set_df sd (sort_index pd (concat (df sd) (new_bars item sym))).
Proof.
  unfold process_bar. cbv zeta. cbn [df set_df time_frame].
  destruct (time_frame sd =? 1).
  - rewrite appended_not_empty. destruct (its_time _ _) as [[|]|]; reflexivity.
  - destruct (aggregate_time_frame _ _ _) as [c|e]; [|reflexivity].
    destruct (df_empty c); [reflexivity|].
    destruct (its_time _ _) as [[|]|]; reflexivity.
Qed.

(** A buffer in time order with a bar that is not earlier than its rows at
    its end is in time order. *)
Lemma monotonic_app_last (l : list Bar) (b : Bar) :
  monotonic l = true -> (forall r, In r l -> ts r <= ts b) ->
  monotonic (l ++ [b]) = true.
Proof.
  intros Hm Hle. apply sorted_monotonic. apply monotonic_sorted in Hm.
  unfold sorted_by_ts in *. induction Hm as [|x l Hl IH Hx]; simpl.
  - constructor; constructor.
  - constructor.
    + apply IH. intros r Hr. apply Hle. right. exact Hr.
    + apply Forall_app. split; [exact Hx|].
      constructor; [apply Hle; left; reflexivity|constructor].
Qed.

(** The buffer after a bar was appended. *)
Lemma appended_rows (d : DataFrame) (item : ChartItem) (sym : string) :
  Permutation (rows (sort_index pd (concat d (new_bars item sym))))
              (rows d ++ rows (new_bars item sym)) /\
  monotonic (rows (sort_index pd (concat d (new_bars item sym)))) = true /\
  List.length (rows (sort_index pd (concat d (new_bars item sym))))
  = S (List.length (rows d)) /\
  (monotonic (rows d) = true ->
   (forall r, In r (rows d) -> ts r <= CHART_TIME_MILLIS item) ->
   rows (sort_index pd (concat d (new_bars item sym)))
   = rows d ++ rows (new_bars item sym)).
Proof.
  pose proof (sort_index_perm pd (concat d (new_bars item sym))) as P.
  split; [exact P|]. split; [apply sort_index_monotonic|]. split.
  - rewrite (Permutation_length P). cbn [concat rows new_bars].
    rewrite length_app. simpl. lia.
  - intros Hm Hle. rewrite sort_index_in_order; [reflexivity|].
    cbn [concat rows new_bars]. apply monotonic_app_last; assumption.
Qed.

Lemma on_bar_strategy_latch (cache : Cache) (item : ChartItem) (sym : string)
  (sid : Z) (sd sd' : StrategyData) (ev : list Event) :
  on_bar_strategy pd cache item sym sid sd = Ok (sd', ev) ->
  itsTime sd = true -> itsTime sd' = true.
Proof.
  unfold on_bar_strategy. intros H Hl. rewrite Hl in H.
  destruct (negb _); [injection H as <- _; exact Hl|].
  injection H as H.
  pose proof (process_bar_state cache item sym sid sd) as Hs.
  rewrite H in Hs. simpl in Hs. subst sd'. exact Hl.
Qed.

Lemma latch_kept_refl (d : DfDict) : latch_kept d d.
Proof. induction d; constructor; auto. Qed.

Lemma latch_kept_trans (d1 d2 d3 : DfDict) :
  latch_kept d1 d2 -> latch_kept d2 d3 -> latch_kept d1 d3.
Proof.
  intros H. revert d3. induction H as [|p p' l l' [H1 H2] _ IH]; intros d3 H3.
  - inversion H3. constructor.
  - inversion H3 as [|q q' m m' [H4 H5] Hrest]; subst.
    constructor; [split; [congruence|auto]|apply IH; exact Hrest].
Qed.

Lemma on_bar_strategies_latch (cache : Cache) (item : ChartItem) (sym : string)
  (d : DfDict) :
  latch_kept d (fst (fst (on_bar_strategies pd cache item sym d))).
Proof.
  induction d as [|[sid sd] rest IH]; simpl; [constructor|].
  destruct (on_bar_strategy pd cache item sym sid sd) as [[sd' ev]|e] eqn:E.
  - destruct (on_bar_strategies pd cache item sym rest) as [[rest' ev'] exc].
    simpl in *. constructor; [|exact IH].
    split; [reflexivity|]. simpl. eapply on_bar_strategy_latch; eauto.
  - simpl. apply latch_kept_refl.
Qed.

Lemma on_bar_latch (cache : Cache) (content : list Delivered) :
  forall d : DfDict, latch_kept d (fst (fst (on_bar pd cache content d))).
Proof.
  induction content as [|x rest IH]; intros d; simpl; [apply latch_kept_refl|].
  assert (H1 : latch_kept d (fst (fst (on_bar_item pd cache x d)))).
  { unfold on_bar_item. destruct (read_item x) as [item|e];
      [|apply latch_kept_refl].
    destruct (negb _); [apply latch_kept_refl|].
    apply on_bar_strategies_latch. }
  destruct (on_bar_item pd cache x d) as [[d' ev] [e|]]; simpl in *; [exact H1|].
  specialize (IH d').
  destruct (on_bar pd cache rest d') as [[d'' ev'] exc]. simpl in *.
  eapply latch_kept_trans; eauto.
Qed.

Lemma handle_messages_latch (cache : Cache) (msgs : list (list Delivered)) :
  forall d : DfDict, latch_kept d (fst (fst (handle_messages pd cache msgs d))).
Proof.
  induction msgs as [|content rest IH]; intros d; simpl; [apply latch_kept_refl|].
  pose proof (on_bar_latch cache content d) as H1.
  destruct (on_bar pd cache content d) as [[d' ev] [e|]]; simpl in *; [exact H1|].
  specialize (IH d').
  destruct (handle_messages pd cache rest d') as [[d'' ev'] exc]. simpl in *.
  eapply latch_kept_trans; eauto.
Qed.

(** An item delivered with all its fields, its timestamp in range, is read
    as it is. *)
Lemma read_item_delivered (item : ChartItem) :
  Z.abs (CHART_TIME_MILLIS item) <= timestamp_limit ->
  read_item (delivered item) = Ok item.
Proof.
  intros H. unfold read_item, delivered. cbn.
  apply Z.leb_le in H. rewrite H. destruct item. reflexivity.
Qed.

Lemma evaluate_shape (cache : Cache) (sid : Z) (sd : StrategyData)
  (candles : DataFrame) :
  evaluate cache sid sd candles = [CacheMiss sid (name sd)] \/
  exists l,
    evaluate cache sid sd candles = StrategyCalled sid (name sd) candles :: l /\
    Forall (after_call sid sd) l.
Proof.
  unfold evaluate.
  destruct (cache_get cache (name sd)) as [f|]; [right|left; reflexivity].
  eexists. split; [reflexivity|].
  assert (He : after_call sid sd (StrategyError sid (name sd)))
    by (left; reflexivity).
  destruct (f candles) as [out|e]; [|repeat constructor; exact He].
  destruct (rev out) as [|c r]; [repeat constructor; exact He|].
  destruct (signal c) as [| |[|ch sg]];
    [constructor|repeat constructor; exact He|constructor|].
  destruct (order_raises _).
  - constructor; [right; eexists; reflexivity|].
    constructor; [exact He|constructor].
  - constructor; [right; eexists; reflexivity|constructor].
Qed.

Lemma evaluate_calls (cache : Cache) (sid : Z) (sd : StrategyData)
  (candles : DataFrame) (s : Z) (n : string) (input : DataFrame) :
  In (StrategyCalled s n input) (evaluate cache sid sd candles) ->
  input = candles.
Proof.
  destruct (evaluate_shape cache sid sd candles) as [->|[l [-> Hl]]].
  - intros [H|[]]. discriminate.
  - intros [H|H]; [congruence|].
    rewrite Forall_forall in Hl. destruct (Hl _ H) as [E|[c E]]; discriminate.
Qed.

Lemma evaluate_no_aggregate (cache : Cache) (sid : Z) (sd : StrategyData)
  (candles : DataFrame) (s : Z) (input : DataFrame) (a : Z) :
  ~ In (AggregateCalled s input a) (evaluate cache sid sd candles).
Proof.
  destruct (evaluate_shape cache sid sd candles) as [->|[l [-> Hl]]].
  - intros [H|[]]. discriminate.
  - intros [H|H]; [discriminate|].
    rewrite Forall_forall in Hl. destruct (Hl _ H) as [E|[c E]]; discriminate.
Qed.

(** What an evaluation does with the function the cache holds: it calls it
    on the candles, and what the function gives decides the rest. *)
Lemma evaluate_cached (cache : Cache) (sid : Z) (sd : StrategyData)
  (candles : DataFrame) (f : strat_fn) :
  cache_get cache (name sd) = Some f ->
  In (StrategyCalled sid (name sd) candles) (evaluate cache sid sd candles) /\
  (forall e, f candles = Raise e ->
     In (StrategyError sid (name sd)) (evaluate cache sid sd candles) /\
     forall c, ~ In (OrderSent c) (evaluate cache sid sd candles)) /\
  (forall out recent_candle s,
     f candles = Ok (out ++ [recent_candle]) ->
     signal recent_candle = SignalText s -> s <> ""%string ->
     In (OrderSent
           (mkCall (quantity recent_candle) (time_frame sd) (sd_symbol sd) sid
                   (if String.eqb (order_type sd) "LIMIT"
                    then last_close recent_candle else 0%Q)
                   (if String.eqb (order_type sd) "LIMIT"
                    then numpy_float64 else python_float)
                   (upper s)))
        (evaluate cache sid sd candles)) /\
  (forall out recent_candle,
     f candles = Ok (out ++ [recent_candle]) ->
     signal recent_candle = SignalNone ->
     forall c, ~ In (OrderSent c) (evaluate cache sid sd candles)).
Proof.
  intros Hf. unfold evaluate. rewrite Hf.
  split; [left; reflexivity|]. split; [|split].
  - intros e He. rewrite He. split; [right; left; reflexivity|].
    intros c [H|[H|[]]]; discriminate.
  - intros out c s Hout Hs Hne. rewrite Hout, rev_app_distr. cbn [rev app].
    rewrite Hs. destruct s as [|ch sg]; [congruence|].
    destruct (order_raises _); right; left; reflexivity.
  - intros out c Hout Hs. rewrite Hout, rev_app_distr. cbn [rev app].
    rewrite Hs. intros c' [H|[]]. discriminate.
Qed.

(** With time frame 1 the body of the handler is the append followed by the
    evaluation on the buffer itself. *)
Lemma process_bar_one_minute (cache : Cache) (item : ChartItem) (sym : string)
  (sid : Z) (sd : StrategyData) :
  time_frame sd = 1 ->
  process_bar pd cache item sym sid sd
  = (set_df sd (sort_index pd (concat (df sd) (new_bars item sym))),
     Appended sid (CHART_TIME_MILLIS item) ::
     evaluate cache sid
       (set_df sd (sort_index pd (concat (df sd) (new_bars item sym))))
       (sort_index pd (concat (df sd) (new_bars item sym)))).
Proof.
  intros Htf. unfold process_bar. cbv zeta. cbn [df set_df time_frame].
  rewrite Htf. cbn [Z.eqb Pos.eqb]. rewrite appended_not_empty.
  unfold its_time. cbn [Z.eqb]. rewrite Z.mod_1_r. reflexivity.
Qed.

Lemma import_strategy_sound (env : Environment) (c : Cache) (n : string) :
  cache_sound env c ->
  cache_sound env (snd (fst (_import_strategy env c n))).
Proof.
  intros Hc. unfold _import_strategy.
  destruct (cache_get c n); [exact Hc|].
  destruct (import_module env n) as [main| | | |] eqn:E; try exact Hc.
  intros m f. simpl. destruct (String.eqb m n) eqn:Em.
  - apply String.eqb_eq in Em. subst m. intros _. exists main. exact E.
  - apply Hc.
Qed.

Lemma import_step (env : Environment) (r : ImportReport) (n : string) :
  exists r1,
    (forall rest, import_names env (n :: rest) r = import_names env rest r1) /\
    cache_after r1 = snd (fst (_import_strategy env (cache_after r) n)) /\
    (forall x, In x (import_log r) -> In x (import_log r1)) /\
    (fail_count r <= fail_count r1)%nat /\
    (cache_get (cache_after r) n = None -> unresolved env n ->
     In (ERROR, ("[IMPORT ERROR] " ++ n)%string) (import_log r1) /\
     (0 < fail_count r1)%nat).
Proof.
  simpl import_names. unfold _import_strategy.
  destruct (cache_get (cache_after r) n) as [f|] eqn:Ec.
  - eexists. split; [intros; reflexivity|]. cbn.
    split; [reflexivity|]. split; [intros x Hx; apply in_or_app; auto|].
    split; [lia|]. discriminate.
  - destruct (import_module env n) as [main| | | |] eqn:E.
    + eexists. split; [intros; reflexivity|]. cbn.
      split; [reflexivity|]. split; [intros x Hx; apply in_or_app; auto|].
      split; [lia|]. intros _ Hu. destruct (Hu main E).
    + eexists. split; [intros; reflexivity|]. cbn.
      split; [reflexivity|]. split; [intros x Hx; apply in_or_app; auto|].
      split; [lia|]. intros _ _. split; [|lia].
      apply in_or_app. right. left. reflexivity.
    + eexists. split; [intros; reflexivity|]. cbn.
      split; [reflexivity|]. split; [intros x Hx; apply in_or_app; auto|].
      split; [lia|]. intros _ _. split; [|lia].
      apply in_or_app. right. left. reflexivity.
    + eexists. split; [intros; reflexivity|]. cbn.
      split; [reflexivity|]. split; [intros x Hx; apply in_or_app; auto|].
      split; [lia|]. intros _ _. split; [|lia].
      apply in_or_app. right. left. reflexivity.
    + eexists. split; [intros; reflexivity|]. cbn.
      split; [reflexivity|]. split; [intros x Hx; apply in_or_app; auto|].
      split; [lia|]. intros _ _. split; [|lia].
      apply in_or_app. right. left. reflexivity.
Qed.

Lemma import_names_facts (env : Environment) (names : list string) :
  forall r : ImportReport,
    cache_sound env (cache_after r) ->
    cache_sound env (cache_after (import_names env names r)) /\
    (forall x, In x (import_log r) -> In x (import_log (import_names env names r))) /\
    (fail_count r <= fail_count (import_names env names r))%nat /\
    (forall n, In n names -> unresolved env n ->
       In (ERROR, ("[IMPORT ERROR] " ++ n)%string)
          (import_log (import_names env names r)) /\
       (0 < fail_count (import_names env names r))%nat).
Proof.
  induction names as [|n rest IH]; intros r Hs.
  - simpl. split; [exact Hs|]. split; [auto|]. split; [lia|]. intros n [].
  - destruct (import_step env r n) as [r1 [Hstep [Hc [Hlog [Hfail Herr]]]]].
    rewrite Hstep.
    assert (Hs1 : cache_sound env (cache_after r1))
      by (rewrite Hc; apply import_strategy_sound; exact Hs).
    destruct (IH r1 Hs1) as [Hs' [Hlog' [Hfail' Herr']]].
    split; [exact Hs'|]. split; [auto|]. split; [lia|].
    intros m [<-|Hm] Hu; [|apply Herr'; assumption].
    assert (Hnone : cache_get (cache_after r) n = None).
    { destruct (cache_get (cache_after r) n) as [f|] eqn:E; [|reflexivity].
      destruct (Hs n f E) as [main Hmain]. destruct (Hu main Hmain). }
    destruct (Herr Hnone Hu) as [H1 H2]. split; [apply Hlog'; exact H1|lia].
Qed.

End StreamFacts.

Section StreamTheorems.
Import Frame Aggregator Columns PyFloat Account Stream Props Shapes.

(** C3, as the claim has it, fails: a strategy on SPY with its latch set and
    an empty buffer gets the bar of 09:30 once, and gets it twice.  The
    buffer has one row in the first case and two in the second. *)
Lemma redelivery_appends_again :
  buffer_lengths
    (fst (fst (handle_messages float64_pandas []
                 [[delivered (spy_item sample_start)]]
                 [(1, spy_strategy "smaCross" true 5)]))) = [1%nat] /\
  buffer_lengths
    (fst (fst (handle_messages float64_pandas []
                 [[delivered (spy_item sample_start)];
                  [delivered (spy_item sample_start)]]
                 [(1, spy_strategy "smaCross" true 5)]))) = [2%nat].
Proof. split; vm_compute; reflexivity. Qed.

(** C3, amended.  A bar for the symbol of a strategy whose latch is set, or
    is set by this bar, is appended to the strategy's buffer whether or not
    its timestamp is already there: the buffer becomes [sort_index] of the
    old rows followed by the new bar, which holds these rows, each as often
    as before and the new bar once more, in time order, and is one row
    longer.  When the old rows are in time order and none is later than the
    new bar, the buffer is the old rows followed by the new bar.  A bar
    delivered twice is in the buffer twice. *)
Theorem ingestion_appends (pd : Pandas) (cache : Cache) (item : ChartItem)
  (sym : string) (sid : Z) (sd : StrategyData) :
  sd_symbol sd = sym ->
  itsTime sd = true \/
    (time_frame sd <> 0 /\
     bar_minute (CHART_TIME_MILLIS item) mod time_frame sd = 0) ->
  exists sd' ev,
    on_bar_strategy pd cache item sym sid sd = Ok (sd', ev) /\
    df sd' = sort_index pd (concat (df sd) (new_bars item sym)) /\
    Permutation (rows (df sd')) (rows (df sd) ++ rows (new_bars item sym)) /\
    monotonic (rows (df sd')) = true /\
    List.length (rows (df sd')) = S (List.length (rows (df sd))) /\
    (monotonic (rows (df sd)) = true ->
     (forall r, In r (rows (df sd)) -> ts r <= CHART_TIME_MILLIS item) ->
     rows (df sd') = rows (df sd) ++ rows (new_bars item sym)).
Proof.
  intros Hsym Hlatch. unfold on_bar_strategy.
  rewrite Hsym, String.eqb_refl. cbn [negb].
  assert (Hrows : forall sd0 : StrategyData,
    df sd0 = df sd ->
    let sd' := fst (process_bar pd cache item sym sid sd0) in
    df sd' = sort_index pd (concat (df sd) (new_bars item sym)) /\
    Permutation (rows (df sd')) (rows (df sd) ++ rows (new_bars item sym)) /\
    monotonic (rows (df sd')) = true /\
    List.length (rows (df sd')) = S (List.length (rows (df sd))) /\
    (monotonic (rows (df sd)) = true ->
     (forall r, In r (rows (df sd)) -> ts r <= CHART_TIME_MILLIS item) ->
     rows (df sd') = rows (df sd) ++ rows (new_bars item sym))).
  { intros sd0 Hdf sd'. subst sd'. rewrite process_bar_state, Hdf.
    cbn [df set_df]. split; [reflexivity|]. apply appended_rows. }
  destruct (itsTime sd) eqn:Hl.
  - destruct (process_bar pd cache item sym sid sd) as [sd' ev] eqn:E.
    exists sd', ev. split; [reflexivity|].
    specialize (Hrows sd eq_refl). rewrite E in Hrows. exact Hrows.
  - destruct Hlatch as [Hl'|[Htf Hmod]]; [discriminate|].
    unfold its_time. apply Z.eqb_neq in Htf. rewrite Htf, Hmod. cbn [Z.eqb].
    destruct (process_bar pd cache item sym sid (set_itsTime sd)) as [sd' ev] eqn:E.
    exists sd', (LatchSet sid :: ev). split; [reflexivity|].
    specialize (Hrows (set_itsTime sd) eq_refl). rewrite E in Hrows. exact Hrows.
Qed.

Lemma ingestion_appends_witness :
  In (mkBar sample_start (Some "SPY"%string) (Some 1%Q) (Some 2%Q) (Some 1%Q)
            (Some 2%Q) (Some 100%Q))
     (rows (df (spy_strategy_with sample_start 5))) /\
  exists sd' ev,
    on_bar_strategy float64_pandas [] (spy_item sample_start) "SPY" 1
                    (spy_strategy_with sample_start 5) = Ok (sd', ev) /\
    List.length (rows (df sd')) = 2%nat /\
    rows (df sd') = rows (df (spy_strategy_with sample_start 5))
                    ++ rows (new_bars (spy_item sample_start) "SPY").
Proof.
  split; [left; reflexivity|].
  destruct (ingestion_appends float64_pandas [] (spy_item sample_start) "SPY" 1
              (spy_strategy_with sample_start 5) eq_refl (or_introl eq_refl))
    as [sd' [ev [H1 [_ [_ [_ [H2 H3]]]]]]].
  exists sd', ev. split; [exact H1|]. split; [exact H2|].
  apply H3; [reflexivity|].
  intros r [<-|[]]. cbn. lia.
Defined.

(** C8, as the claim has it, fails: a strategy on SPY with time frame 5, its
    latch unset and an empty buffer gets the bar of 09:31.  Nothing happens:
    the strategy's state is as before and the buffer is still empty. *)
Lemma early_bar_not_buffered :
  bar_minute (sample_start + minute_ms) = 31 /\
  on_bar_strategy float64_pandas [] (spy_item (sample_start + minute_ms)) "SPY" 1
                  (spy_strategy "smaCross" false 5)
  = Ok (spy_strategy "smaCross" false 5, []) /\
  rows (df (spy_strategy "smaCross" false 5)) = [].
Proof. repeat split; vm_compute; reflexivity. Qed.

(** C8, amended.  While the latch of a strategy is unset, a bar for its
    symbol whose minute is not a multiple of the time frame is discarded:
    the strategy's state, buffer included, stays as it is and nothing is
    aggregated or evaluated.  A bar at a multiple of the time frame sets the
    latch.  Whatever messages [on_bar] handles afterwards, a latch that is
    set stays set. *)
Theorem boundary_latch :
  (forall pd cache item sym sid sd,
      sd_symbol sd = sym -> itsTime sd = false -> time_frame sd <> 0 ->
      bar_minute (CHART_TIME_MILLIS item) mod time_frame sd <> 0 ->
      on_bar_strategy pd cache item sym sid sd = Ok (sd, [])) /\
  (forall pd cache item sym sid sd,
      sd_symbol sd = sym -> itsTime sd = false -> time_frame sd <> 0 ->
      bar_minute (CHART_TIME_MILLIS item) mod time_frame sd = 0 ->
      exists sd' ev,
        on_bar_strategy pd cache item sym sid sd = Ok (sd', LatchSet sid :: ev) /\
        itsTime sd' = true) /\
  (forall pd cache msgs d,
      latch_kept d (fst (fst (handle_messages pd cache msgs d)))).
Proof.
  split; [|split].
  - intros pd cache item sym sid sd Hsym Hl Htf Hmod. unfold on_bar_strategy.
    rewrite Hsym, String.eqb_refl, Hl. cbn [negb]. unfold its_time.
    apply Z.eqb_neq in Htf, Hmod. rewrite Htf, Hmod. reflexivity.
  - intros pd cache item sym sid sd Hsym Hl Htf Hmod. unfold on_bar_strategy.
    rewrite Hsym, String.eqb_refl, Hl. cbn [negb]. unfold its_time.
    apply Z.eqb_neq in Htf. rewrite Htf, Hmod. cbn [Z.eqb].
    pose proof (process_bar_state (pd:=pd) cache item sym sid (set_itsTime sd))
      as Hs.
    destruct (process_bar pd cache item sym sid (set_itsTime sd)) as [sd' ev].
    exists sd', ev. split; [reflexivity|]. simpl in Hs. subst sd'. reflexivity.
  - intros. apply handle_messages_latch.
Qed.

Lemma boundary_latch_witness :
  on_bar_strategy float64_pandas [] (spy_item (sample_start + minute_ms)) "SPY" 1
                  (spy_strategy "smaCross" false 5)
  = Ok (spy_strategy "smaCross" false 5, []) /\
  exists sd' ev,
    on_bar_strategy float64_pandas [] (spy_item sample_start) "SPY" 1
                    (spy_strategy "smaCross" false 5)
    = Ok (sd', LatchSet 1 :: ev) /\ itsTime sd' = true.
Proof.
  split.
  - apply (proj1 boundary_latch float64_pandas []
             (spy_item (sample_start + minute_ms)) "SPY"%string
             1 (spy_strategy "smaCross" false 5));
      [reflexivity|reflexivity|discriminate|discriminate].
  - apply (proj1 (proj2 boundary_latch) float64_pandas [] (spy_item sample_start)
             "SPY"%string 1 (spy_strategy "smaCross" false 5));
      [reflexivity|reflexivity|discriminate|reflexivity].
Defined.

(** C10.  A strategy with time frame 1 gets every bar of its symbol
    evaluated on the raw buffer: the handler appends the bar and never calls
    [aggregate_time_frame]; every call of a strategy function it makes
    receives the buffer itself; and when the strategy's function is in the
    cache it is called on the buffer and what it gives for the buffer
    decides what follows: an error is logged and no order goes out when it
    raises, [send_strategy_orders] is called with the quantity and the
    signal of the last row it returns when that signal is a non-empty
    string, and no order goes out when that row has no signal. *)
Theorem one_minute_strategy_raw_buffer (pd : Pandas) (cache : Cache)
  (item : ChartItem) (sym : string) (sid : Z) (sd : StrategyData) :
  time_frame sd = 1 ->
  sd_symbol sd = sym ->
  exists sd' ev,
    on_bar_strategy pd cache item sym sid sd = Ok (sd', ev) /\
    df sd' = sort_index pd (concat (df sd) (new_bars item sym)) /\
    Permutation (rows (df sd')) (rows (df sd) ++ rows (new_bars item sym)) /\
    (forall s input a, ~ In (AggregateCalled s input a) ev) /\
    (forall s n input, In (StrategyCalled s n input) ev -> input = df sd') /\
    (forall f, cache_get cache (name sd) = Some f ->
       In (StrategyCalled sid (name sd) (df sd')) ev /\
       (forall e, f (df sd') = Raise e ->
          In (StrategyError sid (name sd)) ev /\
          forall c, ~ In (OrderSent c) ev) /\
       (forall out recent_candle s,
          f (df sd') = Ok (out ++ [recent_candle]) ->
          signal recent_candle = SignalText s -> s <> ""%string ->
          In (OrderSent
                (mkCall (quantity recent_candle) 1 sym sid
                        (if String.eqb (order_type sd) "LIMIT"
                         then last_close recent_candle else 0%Q)
                        (if String.eqb (order_type sd) "LIMIT"
                         then numpy_float64 else python_float)
                        (upper s))) ev) /\
       (forall out recent_candle,
          f (df sd') = Ok (out ++ [recent_candle]) ->
          signal recent_candle = SignalNone ->
          forall c, ~ In (OrderSent c) ev)).
Proof.
  intros Htf Hsym. unfold on_bar_strategy.
  rewrite Hsym, String.eqb_refl. cbn [negb].
  set (buffer := sort_index pd (concat (df sd) (new_bars item sym))).
  assert (Hbody : forall sd0 : StrategyData,
    time_frame sd0 = 1 -> df sd0 = df sd -> name sd0 = name sd ->
    sd_symbol sd0 = sym -> order_type sd0 = order_type sd ->
    forall pre : list Event,
    (forall e, In e pre -> e = LatchSet sid) ->
    exists sd' ev,
      Ok (fst (process_bar pd cache item sym sid sd0),
          pre ++ snd (process_bar pd cache item sym sid sd0)) = Ok (sd', ev) /\
      df sd' = buffer /\
      Permutation (rows (df sd')) (rows (df sd) ++ rows (new_bars item sym)) /\
      (forall s input a, ~ In (AggregateCalled s input a) ev) /\
      (forall s n input, In (StrategyCalled s n input) ev -> input = df sd') /\
      (forall f, cache_get cache (name sd) = Some f ->
         In (StrategyCalled sid (name sd) (df sd')) ev /\
         (forall e, f (df sd') = Raise e ->
            In (StrategyError sid (name sd)) ev /\
            forall c, ~ In (OrderSent c) ev) /\
         (forall out recent_candle s,
            f (df sd') = Ok (out ++ [recent_candle]) ->
            signal recent_candle = SignalText s -> s <> ""%string ->
            In (OrderSent
                  (mkCall (quantity recent_candle) 1 sym sid
                          (if String.eqb (order_type sd) "LIMIT"
                           then last_close recent_candle else 0%Q)
                          (if String.eqb (order_type sd) "LIMIT"
                           then numpy_float64 else python_float)
                          (upper s))) ev) /\
         (forall out recent_candle,
            f (df sd') = Ok (out ++ [recent_candle]) ->
            signal recent_candle = SignalNone ->
            forall c, ~ In (OrderSent c) ev))).
  { intros sd0 Htf0 Hdf Hname Hsym0 Hot pre Hpre.
    rewrite (process_bar_one_minute cache item sym sid sd0 Htf0), Hdf.
    fold buffer. cbn [fst snd]. eexists; eexists. split; [reflexivity|].
    cbn [df set_df]. split; [reflexivity|].
    split; [apply (sort_index_perm pd (concat (df sd) (new_bars item sym)))|].
    assert (Hpre' : forall e l, In e (pre ++ Appended sid (CHART_TIME_MILLIS item) :: l) ->
                                e <> LatchSet sid ->
                                e <> Appended sid (CHART_TIME_MILLIS item) ->
                                In e l).
    { intros e l H N1 N2. apply in_app_or in H as [H|[H|H]];
        [apply Hpre in H; contradiction|congruence|exact H]. }
    split; [|split].
    - intros s input a H. apply Hpre' in H; try discriminate.
      revert H. apply evaluate_no_aggregate.
    - intros s n input H. apply Hpre' in H; try discriminate.
      revert H. apply evaluate_calls.
    - intros f Hf.
      assert (Hf0 : cache_get cache (name (set_df sd0 buffer)) = Some f)
        by (cbn [name set_df]; rewrite Hname; exact Hf).
      destruct (evaluate_cached cache sid (set_df sd0 buffer) buffer f Hf0)
        as [Hcall [Hraise [Hsend Hnone]]].
      cbn [name set_df time_frame sd_symbol order_type] in *.
      rewrite Hname, ?Htf0, ?Hsym0, ?Hot in *.
      split; [apply in_or_app; right; right; exact Hcall|].
      split; [|split].
      + intros e He. destruct (Hraise e He) as [H1 H2].
        split; [apply in_or_app; right; right; exact H1|].
        intros c H. apply Hpre' in H; try discriminate. revert H. apply H2.
      + intros out c s Hout Hs Hne.
        apply in_or_app; right; right. eapply Hsend; eauto.
      + intros out c Hout Hs c' H. apply Hpre' in H; try discriminate.
        revert H. eapply Hnone; eauto. }
  destruct (itsTime sd).
  - destruct (Hbody sd Htf eq_refl eq_refl Hsym eq_refl []
                (fun e H => match H with end))
      as [sd' [ev [H Hrest]]].
    exists sd', ev. split; [|exact Hrest].
    rewrite <- H. destruct (process_bar pd cache item sym sid sd). reflexivity.
  - unfold its_time. rewrite Htf. cbn [Z.eqb]. rewrite Z.mod_1_r. cbn [Z.eqb].
    destruct (Hbody (set_itsTime sd) Htf eq_refl eq_refl Hsym eq_refl
                [LatchSet sid])
      as [sd' [ev [H Hrest]]].
    { intros e [<-|[]]. reflexivity. }
    exists sd', ev. split; [|exact Hrest].
    rewrite <- H. destruct (process_bar pd cache item sym sid (set_itsTime sd)).
    reflexivity.
Qed.

Lemma one_minute_strategy_raw_buffer_witness :
  exists sd' ev,
    on_bar_strategy float64_pandas buy_cache (spy_item sample_start) "SPY" 1
                    (spy_strategy_with (sample_start - minute_ms) 1)
    = Ok (sd', ev) /\
    List.length (rows (df sd')) = 2%nat /\
    In (StrategyCalled 1 "smaCross" (df sd')) ev /\
    In (OrderSent (mkCall 3 1 "SPY" 1 0 python_float "BUY")) ev /\
    forall s input a, ~ In (AggregateCalled s input a) ev.
Proof.
  destruct (one_minute_strategy_raw_buffer float64_pandas buy_cache
              (spy_item sample_start) "SPY" 1
              (spy_strategy_with (sample_start - minute_ms) 1) eq_refl eq_refl)
    as [sd' [ev [H1 [H2 [H3 [H4 [_ H5]]]]]]].
  destruct (H5 always_buy eq_refl) as [H6 [_ [H7 _]]].
  exists sd', ev. split; [exact H1|].
  split; [rewrite (Permutation_length H3); reflexivity|].
  split; [exact H6|]. split; [|exact H4].
  apply (H7 [mkCandle SignalNone 0 9] (mkCandle (SignalText "buy") 3 10)
            "buy"%string); [reflexivity|reflexivity|discriminate].
Defined.

(** C9, as the claim has it, fails: the only configured strategy, "ghost",
    has no module.  Startup does not exit: the handler is registered with an
    empty cache, and the bar of 09:34 makes it look the function up, miss it
    and go on. *)
Lemma unresolved_strategy_streams :
  unresolved no_modules_env "ghost" /\
  exists d startup_log,
    run_stream_startup no_modules_env ghost_info = Streaming d [] startup_log /\
    In (CacheMiss 1 "ghost") (snd (fst (handle_messages float64_pandas [] five_minutes d))) /\
    snd (handle_messages float64_pandas [] five_minutes d) = None.
Proof.
  split; [intros main H; discriminate|].
  eexists; eexists. split; [vm_compute; reflexivity|].
  split; [vm_compute; tauto|vm_compute; reflexivity].
Qed.

(** C9, amended.  A configured strategy name that resolves to no function
    does not stop the startup: [_import_all_strategies] logs an import error
    for the name, counts the failure and returns with the name absent from
    the cache; when the stream client can be built and logged in,
    [run_stream] goes on to consume messages with that cache; and each
    evaluation of a strategy of that name finds no function, reports the
    miss and calls nothing. *)
Theorem unresolved_strategy_not_fatal (env : Environment)
  (strategy_info : list StrategyInfo) (strat_name : string) :
  In strat_name (map info_name strategy_info) ->
  unresolved env strat_name ->
  cache_get (cache_after (_import_all_strategies env [] strategy_info)) strat_name
  = None /\
  In (ERROR, ("[IMPORT ERROR] " ++ strat_name)%string)
     (import_log (_import_all_strategies env [] strategy_info)) /\
  (0 < fail_count (_import_all_strategies env [] strategy_info))%nat /\
  (client_from_token_file env = true -> stream_login env = true ->
   run_stream_startup env strategy_info
   = Streaming (_initial_df env strategy_info [])
               (cache_after (_import_all_strategies env [] strategy_info))
               (import_log (_import_all_strategies env [] strategy_info))) /\
  (forall sid sd candles,
      name sd = strat_name ->
      evaluate (cache_after (_import_all_strategies env [] strategy_info))
               sid sd candles = [CacheMiss sid strat_name]).
Proof.
  intros Hin Hu.
  assert (Hs0 : cache_sound env (cache_after (mkReport [] 0 0 [])))
    by (intros m f H; discriminate).
  destruct (import_names_facts env
              (nodup string_dec (map info_name strategy_info)) _ Hs0)
    as [Hs [_ [_ Herr]]].
  destruct (Herr strat_name (proj2 (nodup_In string_dec _ _) Hin) Hu) as [Hlog Hfail].
  assert (Hcache : cache_get
            (cache_after (_import_all_strategies env [] strategy_info))
            strat_name = None).
  { unfold _import_all_strategies.
    destruct (0 <? fail_count _)%nat; cbn [cache_after];
      (destruct (cache_get _ strat_name) as [f|] eqn:E; [|reflexivity];
       destruct (Hs _ _ E) as [main Hmain]; destruct (Hu main Hmain)). }
  split; [exact Hcache|]. split; [|split; [|split]].
  - unfold _import_all_strategies.
    destruct (0 <? fail_count _)%nat; cbn [import_log];
      [apply in_or_app; left|]; exact Hlog.
  - unfold _import_all_strategies.
    destruct (0 <? fail_count _)%nat; cbn [fail_count]; exact Hfail.
  - intros Hc Hl. unfold run_stream_startup. rewrite Hc, Hl. reflexivity.
  - intros sid sd candles Hn. unfold evaluate. rewrite Hn, Hcache. reflexivity.
Qed.

Lemma unresolved_strategy_not_fatal_witness :
  cache_get (cache_after (_import_all_strategies no_modules_env [] ghost_info))
            "ghost" = None /\
  (0 < fail_count (_import_all_strategies no_modules_env [] ghost_info))%nat.
Proof.
  destruct (unresolved_strategy_not_fatal no_modules_env ghost_info "ghost")
    as [H1 [_ [H2 _]]].
  - left. reflexivity.
  - intros main H. discriminate.
  - split; [exact H1|exact H2].
Defined.

End StreamTheorems.

(** * Further properties *)

(** ** Aggregation: shape of the result *)

Section AggregatorShape.
Import Frame Aggregator Columns Props Shapes.
Context {pd : Pandas}.

Lemma aggregate_out_rows (df : DataFrame) (T : Z) (out : DataFrame) :
  aggregate_time_frame pd df T = Ok out ->
  out = empty_frame \/
  (0 < T /\ T <= len df /\ df_empty df = false /\
   columns out = required_cols /\ index out = DatetimeIndex /\
   rows out = dropna_ohlc
                (map (aggregate_bin pd df) (resample (rows df) (T * minute_ms)))).
Proof.
  unfold aggregate_time_frame.
  destruct (df_empty df); [intros [= <-]; left; reflexivity|].
  destruct (negb (is_datetime df)); [discriminate|].
  destruct (T <=? 0) eqn:HT; [discriminate|].
  destruct (len df <? T) eqn:HL; [intros [= <-]; left; reflexivity|].
  destruct (missing_cols df); [|discriminate].
  destruct (dropna_ohlc _) as [|x r] eqn:E; intros [= <-].
  - left. reflexivity.
  - right. repeat split; try reflexivity; lia.
Qed.

Lemma edges_increasing (origin k width : Z) (n s : nat) :
  0 < width ->
  StronglySorted Z.lt
    (map (fun i => origin + (k + Z.of_nat i) * width) (seq s n)).
Proof.
  intros Hw. revert s. induction n as [|n IH]; intros s; simpl; [constructor|].
  constructor; [apply IH|].
  apply Forall_forall. intros x Hx. apply in_map_iff in Hx as [i [<- Hi]].
  apply in_seq in Hi. nia.
Qed.

Lemma bin_edges_increasing (sorted : list Bar) (width : Z) :
  0 < width -> StronglySorted Z.lt (bin_edges sorted width).
Proof.
  intros Hw. destruct sorted as [|first r]; [constructor|].
  apply edges_increasing. exact Hw.
Qed.

Lemma kept_bins_increasing (df : DataFrame) (P : Bar -> bool)
  (g : Z -> list Bar) (edges : list Z) :
  StronglySorted Z.lt edges ->
  StronglySorted Z.lt
    (map ts (filter P (map (fun e => aggregate_bin pd df (e, g e)) edges))).
Proof.
  induction 1 as [|e rest Hs IH Hall]; simpl; [constructor|].
  destruct (P _); [|exact IH]. simpl. constructor; [exact IH|].
  apply Forall_forall. intros t Ht.
  apply in_map_iff in Ht as [a [<- Ha]]. apply filter_In in Ha as [Ha _].
  apply in_map_iff in Ha as [e' [<- He']]. simpl.
  rewrite Forall_forall in Hall. apply Hall. exact He'.
Qed.

Lemma resample_as_bins (df : DataFrame) (l : list Bar) (width : Z) :
  map (aggregate_bin pd df) (resample l width)
  = map (fun e => aggregate_bin pd df (e, filter (in_bin e width) (sort_rows l)))
        (bin_edges (sort_rows l) width).
Proof. unfold resample. rewrite map_map. reflexivity. Qed.

(** X1.  Whatever the order of the rows of the buffer, the bars of a
    successful aggregation come in strictly increasing time order: no two
    of them share a timestamp. *)
Theorem aggregate_time_frame_increasing (df : DataFrame) (T : Z) (out : DataFrame) :
  aggregate_time_frame pd df T = Ok out ->
  StronglySorted Z.lt (map ts (rows out)).
Proof.
  intros H. destruct (aggregate_out_rows df T out H) as [->|[HT [_ [_ [_ [_ ->]]]]]].
  - constructor.
  - rewrite resample_as_bins. apply kept_bins_increasing.
    apply bin_edges_increasing. unfold minute_ms. lia.
Qed.

(** X2.  A successful aggregation returns a frame with exactly the six
    required columns in which no price and no volume is [NaN]. *)
Theorem aggregate_time_frame_no_nan (df : DataFrame) (T : Z) (out : DataFrame) :
  aggregate_time_frame pd df T = Ok out ->
  columns out = required_cols /\
  forall a, In a (rows out) -> prices_present a /\ volume a <> None.
Proof.
  intros H. split.
  - destruct (aggregate_out_rows df T out H) as [->|[_ [_ [_ [Hc _]]]]];
      [reflexivity|exact Hc].
  - intros a Ha.
    destruct (aggregate_rows df T out a H Ha)
      as [_ [start [_ [Hagg [Ho [Hh [Hl Hc]]]]]]].
    unfold prices_present.
    assert (Hv : volume a <> None) by (rewrite Hagg; discriminate).
    destruct (open a), (high a), (low a), (close a); try discriminate.
    repeat split; try discriminate. exact Hv.
Qed.

Lemma valid_in {A : Type} (f : Bar -> option A) (l : list Bar) (r : Bar) (v : A) :
  In r l -> f r = Some v -> In v (valid (map f l)).
Proof.
  induction l as [|x l IH]; intros Hin Hf; simpl; [destruct Hin|].
  destruct Hin as [<-|Hin].
  - rewrite Hf. left. reflexivity.
  - destruct (f x); [right|]; apply IH; assumption.
Qed.

(** X3.  If in every raw bar the open and the close lie between the low and
    the high, the same holds in every aggregated bar. *)
Theorem aggregate_time_frame_consistent (df : DataFrame) (T : Z) (out : DataFrame) :
  (forall r, In r (rows df) -> ohlc_consistent r) ->
  aggregate_time_frame pd df T = Ok out ->
  forall a, In a (rows out) -> ohlc_consistent a.
Proof.
  intros Hraw H a Ha.
  destruct (aggregate_rows df T out a H Ha)
    as [_ [start [_ [Hagg [Ho [Hh [Hl Hc]]]]]]].
  assert (Hopen : open a = agg_first (map open (bucket df T start)))
    by (rewrite Hagg; reflexivity).
  assert (Hhigh : high a = agg_max (map high (bucket df T start)))
    by (rewrite Hagg; reflexivity).
  assert (Hlow : low a = agg_min (map low (bucket df T start)))
    by (rewrite Hagg; reflexivity).
  assert (Hclose : close a = agg_last (map close (bucket df T start)))
    by (rewrite Hagg; reflexivity).
  assert (Hin : forall r, In r (bucket df T start) -> ohlc_consistent r).
  { intros r Hr. apply Hraw. apply bucket_spec in Hr. tauto. }
  destruct (high a) as [ha|] eqn:Eh; [|discriminate].
  destruct (low a) as [la|] eqn:El; [|discriminate].
  destruct (agg_max_is_max _ _ (eq_sym Hhigh)) as [_ Hmax].
  destruct (agg_min_is_min _ _ (eq_sym Hlow)) as [_ Hmin].
  assert (Hbound : forall r v, In r (bucket df T start) ->
            (open r = Some v \/ close r = Some v) -> (la <= v)%Q /\ (v <= ha)%Q).
  { intros r v Hr Hv.
    destruct (Hin r Hr) as [o [h [l [c [E1 [E2 [E3 [E4 [L1 [L2 [L3 L4]]]]]]]]]]].
    pose proof (Hmax h (valid_in high _ r h Hr E2)) as U.
    pose proof (Hmin l (valid_in low _ r l Hr E3)) as L.
    destruct Hv as [Hv|Hv]; rewrite Hv in *.
    - injection E1 as <-. split; eapply Qle_trans; eauto.
    - injection E4 as <-. split; eapply Qle_trans; eauto. }
  destruct (bucket df T start) as [|x l] eqn:Eb.
  { rewrite Hopen in Ho. discriminate. }
  destruct (Hin x (or_introl eq_refl)) as [ox [hx [lx [cx [Ex _]]]]].
  assert (Hoa : open a = Some ox).
  { rewrite Hopen. unfold agg_first. simpl. rewrite Ex. reflexivity. }
  destruct (@exists_last _ (x :: l)) as [front [y Hy]]; [discriminate|].
  assert (Hyin : In y (x :: l))
    by (rewrite Hy; apply in_or_app; right; left; reflexivity).
  destruct (Hin y Hyin) as [oy [hy [ly [cy [_ [_ [_ [Ey _]]]]]]]].
  assert (Hca : close a = Some cy).
  { rewrite Hclose, Hy. unfold agg_last.
    rewrite map_app, valid_app. simpl. rewrite Ey, rev_app_distr. reflexivity. }
  exists ox, ha, la, cy.
  destruct (Hbound x ox (or_introl eq_refl) (or_introl Ex)) as [B1 B2].
  destruct (Hbound y cy Hyin (or_intror Ey)) as [B3 B4].
  repeat split; assumption.
Qed.

Lemma edges_spaced (origin k width : Z) (n s : nat) :
  0 < width ->
  StronglySorted (fun a b => a + width <= b)
    (map (fun i => origin + (k + Z.of_nat i) * width) (seq s n)).
Proof.
  intros Hw. revert s. induction n as [|n IH]; intros s; simpl; [constructor|].
  constructor; [apply IH|].
  apply Forall_forall. intros x Hx. apply in_map_iff in Hx as [i [<- Hi]].
  apply in_seq in Hi. nia.
Qed.

Lemma bin_edges_spaced (sorted : list Bar) (width : Z) :
  0 < width ->
  StronglySorted (fun a b => a + width <= b) (bin_edges sorted width).
Proof.
  intros Hw. destruct sorted as [|first r]; [constructor|].
  apply edges_spaced. exact Hw.
Qed.

Lemma windows_disjoint (e e' w : Z) (r : Bar) :
  e + w <= e' -> in_bin e' w r = true -> negb (in_bin e w r) = true.
Proof.
  unfold in_bin. intros H H'. apply andb_prop in H' as [H1 H2].
  apply Z.leb_le in H1. apply negb_true_iff, andb_false_iff. right.
  apply Z.ltb_ge. lia.
Qed.

Lemma filter_length_split {A : Type} (P : A -> bool) (l : list A) :
  (List.length (filter P l) + List.length (filter (fun x => negb (P x)) l)
   = List.length l)%nat.
Proof.
  induction l as [|x l IH]; simpl; [reflexivity|].
  destruct (P x); simpl; lia.
Qed.

Lemma occupied_bins_bound (w : Z) (edges : list Z) :
  StronglySorted (fun a b => a + w <= b) edges ->
  forall l : list Bar,
    (List.length (filter (fun e => has_rows (filter (in_bin e w) l)) edges)
     <= List.length l)%nat.
Proof.
  induction 1 as [|e rest Hs IH Hall]; intros l; simpl; [lia|].
  assert (Hrest : filter (fun e' => has_rows (filter (in_bin e' w) l)) rest
                = filter (fun e' => has_rows
                            (filter (in_bin e' w)
                               (filter (fun r => negb (in_bin e w r)) l))) rest).
  { apply filter_ext_in. intros e' He'. rewrite filter_filter_sub; [reflexivity|].
    intros r Hr. eapply windows_disjoint; [|exact Hr].
    rewrite Forall_forall in Hall. apply Hall. exact He'. }
  rewrite Hrest.
  specialize (IH (filter (fun r => negb (in_bin e w r)) l)).
  pose proof (filter_length_split (in_bin e w) l) as Hsplit.
  destruct (filter (in_bin e w) l) as [|x xs]; simpl in *; lia.
Qed.

Lemma filter_map_length {A B : Type} (P : B -> bool) (Q : A -> bool)
  (f : A -> B) (l : list A) :
  (forall x, P (f x) = true -> Q x = true) ->
  (List.length (filter P (map f l)) <= List.length (filter Q l))%nat.
Proof.
  intros H. induction l as [|x l IH]; simpl; [lia|].
  destruct (P (f x)) eqn:EP.
  - rewrite (H x EP). simpl. lia.
  - destruct (Q x); simpl; lia.
Qed.

(** X4.  An aggregation never returns more bars than the buffer has rows:
    every bar it returns stands for at least one raw bar of its own. *)
Theorem aggregate_time_frame_fewer_bars (df : DataFrame) (T : Z) (out : DataFrame) :
  aggregate_time_frame pd df T = Ok out ->
  (List.length (rows out) <= List.length (rows df))%nat.
Proof.
  intros H. destruct (aggregate_out_rows df T out H) as [->|[HT [_ [_ [_ [_ ->]]]]]].
  - simpl. lia.
  - rewrite resample_as_bins. unfold dropna_ohlc.
    eapply Nat.le_trans.
    + apply (filter_map_length _
               (fun e => has_rows (filter (in_bin e (T * minute_ms))
                                          (sort_rows (rows df))))).
      intros e He. cbn [aggregate_bin open fst snd] in He.
      destruct (filter _ _); [discriminate|reflexivity].
    + eapply Nat.le_trans.
      * apply occupied_bins_bound. apply bin_edges_spaced. unfold minute_ms. lia.
      * rewrite (Permutation_length (sort_rows_perm _)). lia.
Qed.

Lemma total_volume_cons (x : Bar) (l : list Bar) :
  (total_volume (x :: l)
   == match volume x with Some v => v | None => 0 end + total_volume l)%Q.
Proof.
  unfold total_volume. simpl. destruct (volume x); simpl; ring.
Qed.

Lemma total_volume_perm (l l' : list Bar) :
  Permutation l l' -> (total_volume l == total_volume l')%Q.
Proof.
  induction 1 as [|x l l' _ IH|x y l|l1 l2 l3 _ IH1 _ IH2].
  - reflexivity.
  - rewrite !total_volume_cons, IH. reflexivity.
  - rewrite !total_volume_cons. ring.
  - rewrite IH1. exact IH2.
Qed.

Lemma total_volume_split (P : Bar -> bool) (l : list Bar) :
  (total_volume l
   == total_volume (filter P l) + total_volume (filter (fun r => negb (P r)) l))%Q.
Proof.
  induction l as [|x l IH]; simpl.
  - unfold total_volume. simpl. ring.
  - destruct (P x); simpl; rewrite !total_volume_cons, IH; ring.
Qed.

(** Bins that are a window apart or more and hold every row between them
    share out the volume. *)
Lemma bins_share_volume (w : Z) (edges : list Z) :
  StronglySorted (fun a b => a + w <= b) edges ->
  forall l : list Bar,
    (forall r, In r l -> exists e, In e edges /\ in_bin e w r = true) ->
    (sum_of (map (fun e => total_volume (filter (in_bin e w) l)) edges)
     == total_volume l)%Q.
Proof.
  induction 1 as [|e rest Hs IH Hall]; intros l Hcover.
  - destruct l as [|r l]; [reflexivity|].
    destruct (Hcover r (or_introl eq_refl)) as [e [[] _]].
  - simpl.
    assert (Hrest : map (fun e' => total_volume (filter (in_bin e' w) l)) rest
                  = map (fun e' => total_volume
                            (filter (in_bin e' w)
                               (filter (fun r => negb (in_bin e w r)) l))) rest).
    { apply map_ext_in. intros e' He'. rewrite filter_filter_sub; [reflexivity|].
      intros r Hr. eapply windows_disjoint; [|exact Hr].
      rewrite Forall_forall in Hall. apply Hall. exact He'. }
    rewrite Hrest, IH.
    + symmetry. apply total_volume_split.
    + intros r Hr. apply filter_In in Hr as [Hr Hn].
      destruct (Hcover r Hr) as [e' [[<-|He'] Hin]].
      * rewrite Hin in Hn. discriminate.
      * exists e'. split; assumption.
Qed.

Lemma sorted_last_greatest (l : list Bar) (d : Bar) :
  sorted_by_ts l -> forall r, In r l -> ts r <= ts (last l d).
Proof.
  unfold sorted_by_ts. induction 1 as [|x l Hs IH Hall]; intros r Hin; [destruct Hin|].
  destruct l as [|y l'].
  - destruct Hin as [<-|[]]. simpl. lia.
  - change (last (x :: y :: l') d) with (last (y :: l') d).
    destruct Hin as [<-|Hin]; [|apply IH; exact Hin].
    inversion Hall as [|? ? Hxy _]; subst.
    specialize (IH y (or_introl eq_refl)). lia.
Qed.

(** Every row of a time-sorted list falls in one of its bins. *)
Lemma bin_edges_cover (sorted : list Bar) (w : Z) (r : Bar) :
  0 < w -> sorted_by_ts sorted -> In r sorted ->
  exists e, In e (bin_edges sorted w) /\ in_bin e w r = true.
Proof.
  intros Hw Hs Hin. destruct sorted as [|first rest]; [destruct Hin|].
  unfold bin_edges.
  set (origin := normalize (ts first)).
  set (kmin := (ts first - origin) / w).
  set (kmax := (ts (last (first :: rest) first) - origin) / w).
  set (k := (ts r - origin) / w).
  assert (Hlo : ts first <= ts r).
  { unfold sorted_by_ts in Hs. inversion Hs as [|? ? _ Hall]; subst.
    destruct Hin as [<-|Hin]; [lia|].
    rewrite Forall_forall in Hall. apply Hall. exact Hin. }
  assert (Hhi : ts r <= ts (last (first :: rest) first))
    by (apply sorted_last_greatest; assumption).
  assert (Hk1 : kmin <= k) by (apply Z.div_le_mono; lia).
  assert (Hk2 : k <= kmax) by (apply Z.div_le_mono; lia).
  exists (origin + k * w). split.
  - apply in_map_iff. exists (Z.to_nat (k - kmin)). split.
    + rewrite Z2Nat.id by lia. f_equal. f_equal. lia.
    + apply in_seq. lia.
  - unfold in_bin. apply andb_true_iff. split.
    + apply Z.leb_le. pose proof (Z.mul_div_le (ts r - origin) w Hw).
      fold k in H. lia.
    + apply Z.ltb_lt. pose proof (Z.mul_succ_div_gt (ts r - origin) w Hw).
      fold k in H. lia.
Qed.

Lemma valid_present {A : Type} (f : Bar -> option A) (x : Bar) (l : list Bar) :
  f x <> None -> valid (map f (x :: l)) <> [].
Proof. simpl. destruct (f x); [discriminate|congruence]. Qed.

Lemma valid_present_last {A : Type} (f : Bar -> option A) (l : list Bar) :
  l <> [] -> (forall r, In r l -> f r <> None) -> rev (valid (map f l)) <> [].
Proof.
  intros Hne Hall.
  destruct (@exists_last _ l Hne) as [front [y ->]].
  rewrite map_app, valid_app, rev_app_distr. simpl.
  assert (Hy : In y (front ++ [y]))
    by (apply in_or_app; right; left; reflexivity).
  specialize (Hall y Hy).
  destruct (f y); [discriminate|congruence].
Qed.

(** A bin with a row survives [dropna] when no price of its rows is [NaN]. *)
Lemma occupied_bin_kept (df : DataFrame) (e : Z) (b : list Bar) :
  b <> [] -> (forall r, In r b -> prices_present r) ->
  let a := aggregate_bin pd df (e, b) in
  is_some (open a) && is_some (high a) && is_some (low a) && is_some (close a)
  = true.
Proof.
  intros Hne Hall. destruct b as [|x l]; [congruence|].
  destruct (Hall x (or_introl eq_refl)) as [Ho [Hh [Hl Hc]]].
  cbn [aggregate_bin open high low close fst snd].
  unfold agg_first, agg_max, agg_min, agg_last.
  pose proof (valid_present open x l Ho) as V1.
  pose proof (valid_present high x l Hh) as V2.
  pose proof (valid_present low x l Hl) as V3.
  pose proof (valid_present_last close (x :: l) ltac:(discriminate)
                (fun r Hr => proj2 (proj2 (proj2 (Hall r Hr))))) as V4.
  destruct (valid (map open (x :: l))); [congruence|].
  destruct (valid (map high (x :: l))); [congruence|].
  destruct (valid (map low (x :: l))); [congruence|].
  destruct (rev (valid (map close (x :: l)))); [congruence|].
  reflexivity.
Qed.

Lemma kept_bins_volume (df : DataFrame) (w : Z) (l : list Bar) (edges : list Z) :
  (forall r, In r l -> prices_present r) ->
  (forall e, In e edges -> filter (in_bin e w) l <> [] ->
     (group_sum pd df (valid (map volume (filter (in_bin e w) l)))
      == sum_of (valid (map volume (filter (in_bin e w) l))))%Q) ->
  (total_volume
     (dropna_ohlc
        (map (fun e => aggregate_bin pd df (e, filter (in_bin e w) l)) edges))
   == sum_of (map (fun e => total_volume (filter (in_bin e w) l)) edges))%Q.
Proof.
  intros Hall Hexact. induction edges as [|e rest IH]; [reflexivity|].
  assert (IH' := IH (fun e' He' => Hexact e' (or_intror He'))). clear IH.
  pose proof (Hexact e (or_introl eq_refl)) as He. clear Hexact.
  unfold dropna_ohlc in *. cbn [map filter sum_of fold_right].
  assert (Hb : forall r, In r (filter (in_bin e w) l) -> prices_present r).
  { intros r Hr. apply Hall. apply filter_In in Hr. tauto. }
  revert Hb He. generalize (filter (in_bin e w) l) as b. intros b Hb He.
  match goal with |- context [if ?c then _ else _] => destruct c eqn:E end.
  - rewrite total_volume_cons, IH'.
    cbn [aggregate_bin volume fst snd agg_sum].
    destruct b as [|x b].
    + cbn [aggregate_bin open fst snd map valid agg_first is_some andb] in E.
      discriminate.
    + rewrite He by discriminate. unfold total_volume. reflexivity.
  - destruct b as [|x b].
    + rewrite IH'. unfold total_volume, sum_of. simpl. ring.
    + pose proof (occupied_bin_kept df e (x :: b) ltac:(discriminate) Hb) as Hkept.
      cbv zeta in Hkept. rewrite Hkept in E. discriminate.
Qed.

(** X5.  When the buffer has at least [T] rows, none of its prices is
    [NaN], and the volume column adds up the volumes of every bucket
    exactly, the bars of the aggregation carry the whole volume of the
    buffer: no raw bar is left out and none is counted twice. *)
Theorem aggregate_time_frame_volume (df : DataFrame) (T : Z) (out : DataFrame) :
  df_empty df = false ->
  T <= len df ->
  (forall r, In r (rows df) -> prices_present r) ->
  aggregate_time_frame pd df T = Ok out ->
  (forall a, In a (rows out) ->
     (group_sum pd df (valid (map volume (bucket df T (ts a))))
      == sum_of (valid (map volume (bucket df T (ts a)))))%Q) ->
  (total_volume (rows out) == total_volume (rows df))%Q.
Proof.
  intros Hne HT Hall H Hexact.
  assert (Hw : 0 < T * minute_ms).
  { unfold aggregate_time_frame in H. rewrite Hne in H.
    destruct (negb (is_datetime df)); [discriminate|].
    destruct (T <=? 0) eqn:E; [discriminate|]. unfold minute_ms. lia. }
  assert (Hrows : rows out = dropna_ohlc
            (map (aggregate_bin pd df) (resample (rows df) (T * minute_ms)))).
  { unfold aggregate_time_frame in H. rewrite Hne in H.
    destruct (negb (is_datetime df)); [discriminate|].
    destruct (T <=? 0); [discriminate|].
    destruct (len df <? T) eqn:E; [lia|].
    destruct (missing_cols df); [|discriminate].
    destruct (dropna_ohlc _); injection H as <-; reflexivity. }
  assert (Hsorted : forall r, In r (sort_rows (rows df)) -> prices_present r).
  { intros r Hr. apply Hall.
    eapply Permutation_in; [apply sort_rows_perm|exact Hr]. }
  rewrite Hrows, resample_as_bins, kept_bins_volume.
  - rewrite bins_share_volume.
    + apply total_volume_perm, sort_rows_perm.
    + apply bin_edges_spaced. exact Hw.
    + intros r Hr. apply bin_edges_cover; [exact Hw|apply sort_rows_sorted|exact Hr].
  - exact Hsorted.
  - intros e He Hbin.
    apply (Hexact (aggregate_bin pd df
                     (e, filter (in_bin e (T * minute_ms)) (sort_rows (rows df))))).
    rewrite Hrows, resample_as_bins. unfold dropna_ohlc.
    apply filter_In. split.
    + apply in_map_iff. exists e. split; [reflexivity|exact He].
    + apply (occupied_bin_kept df e _ Hbin).
      intros r Hr. apply Hsorted. apply filter_In in Hr. tauto.
Qed.

End AggregatorShape.

Section AggregatorShapeWitnesses.
Import Frame Aggregator Columns Props Shapes.

Lemma sample_bar_consistent (i : nat) : ohlc_consistent (sample_bar i).
Proof.
  exists (inject_Z (Z.of_nat i)), (inject_Z (Z.of_nat i + 1)),
         (inject_Z (Z.of_nat i)), (inject_Z (Z.of_nat i + 1)).
  repeat split; try reflexivity; try apply Qle_refl;
    rewrite <- Zle_Qle; lia.
Qed.

Lemma aggregate_time_frame_increasing_witness :
  StronglySorted Z.lt (map ts [sample_bar 0; sample_bar 1]).
Proof.
  apply (aggregate_time_frame_increasing (pd:=int64_pandas) unordered_df 1
           (mkDF DatetimeIndex required_cols [sample_bar 0; sample_bar 1])).
  vm_compute. reflexivity.
Defined.

Lemma aggregate_time_frame_no_nan_witness :
  Forall (fun a => prices_present a /\ volume a <> None) (rows sample_out).
Proof.
  apply Forall_forall.
  apply (proj2 (aggregate_time_frame_no_nan (pd:=int64_pandas) (create_sample_df 10) 5 sample_out
                  ltac:(vm_compute; reflexivity))).
Defined.

Lemma aggregate_time_frame_consistent_witness :
  Forall ohlc_consistent (rows sample_out).
Proof.
  apply Forall_forall.
  apply (aggregate_time_frame_consistent (pd:=float64_pandas) (create_sample_df 10) 5 sample_out).
  - intros r Hr. apply in_map_iff in Hr as [i [<- _]]. apply sample_bar_consistent.
  - vm_compute. reflexivity.
Defined.

Lemma aggregate_time_frame_fewer_bars_witness :
  (List.length (rows sample_out) <= List.length (rows (create_sample_df 10)))%nat.
Proof.
  apply (aggregate_time_frame_fewer_bars (pd:=float64_pandas) (create_sample_df 10) 5 sample_out).
  vm_compute. reflexivity.
Defined.

Lemma aggregate_time_frame_volume_witness :
  (total_volume (rows sample_out) == total_volume (rows (create_sample_df 10)))%Q.
Proof.
  apply (aggregate_time_frame_volume (pd:=float64_pandas) (create_sample_df 10) 5
           sample_out).
  - reflexivity.
  - vm_compute. discriminate.
  - intros r Hr. apply in_map_iff in Hr as [i [<- _]].
    repeat split; discriminate.
  - vm_compute. reflexivity.
  - intros a [<-|[<-|[]]]; vm_compute; reflexivity.
Defined.

End AggregatorShapeWitnesses.


(** ** The position store *)

Section StoreProperties.
Import Account.

(** X6.  A position that is added shows up, last, in the order ids of its
    strategy, and the order ids of every other strategy stay as they were. *)
Theorem add_then_list (sid sid' : Z) (oid : string) (qty price : Q) (db : Store) :
  get_order_id_list sid' (add_active_position sid oid qty price db)
  = if sid' =? sid then get_order_id_list sid' db ++ [oid]
    else get_order_id_list sid' db.
Proof.
  unfold get_order_id_list, add_active_position.
  rewrite filter_app, map_app. simpl. rewrite (Z.eqb_sym sid sid').
  destruct (sid' =? sid); simpl; [reflexivity|apply app_nil_r].
Qed.

(** X7.  Deleting the positions of a strategy removes every row of that
    strategy, also the rows added just before, keeps the order ids of every
    other strategy, and deleting again changes nothing. *)
Theorem delete_only_own (sid : Z) (db : Store) :
  (forall oid qty price,
      get_order_id_list sid
        (delete_active_positions sid (add_active_position sid oid qty price db))
      = []) /\
  (forall sid', sid' <> sid ->
      get_order_id_list sid' (delete_active_positions sid db)
      = get_order_id_list sid' db) /\
  delete_active_positions sid (delete_active_positions sid db)
  = delete_active_positions sid db.
Proof.
  split; [|split].
  - intros oid qty price. unfold get_order_id_list, delete_active_positions.
    generalize (add_active_position sid oid qty price db). intros l.
    induction l as [|x l IH]; simpl; [reflexivity|].
    destruct (strategy_id x =? sid) eqn:E; simpl; [exact IH|].
    rewrite E. exact IH.
  - intros sid' Hne. unfold get_order_id_list, delete_active_positions.
    induction db as [|x db IH]; simpl; [reflexivity|].
    destruct (strategy_id x =? sid) eqn:E; simpl.
    + apply Z.eqb_eq in E.
      destruct (strategy_id x =? sid') eqn:E'; [apply Z.eqb_eq in E'; lia|].
      exact IH.
    + destruct (strategy_id x =? sid'); simpl; rewrite IH; reflexivity.
  - unfold delete_active_positions.
    induction db as [|x db IH]; simpl; [reflexivity|].
    destruct (strategy_id x =? sid) eqn:E; simpl; [exact IH|].
    rewrite E. simpl. rewrite IH. reflexivity.
Qed.

Lemma delete_only_own_witness :
  get_order_id_list 2 (delete_active_positions 1 [mkPos 1 "A" 1 1; mkPos 2 "B" 1 1])
  = get_order_id_list 2 [mkPos 1 "A" 1 1; mkPos 2 "B" 1 1].
Proof.
  apply (proj1 (proj2 (delete_only_own 1 [mkPos 1 "A" 1 1; mkPos 2 "B" 1 1])) 2).
  discriminate.
Defined.

End StoreProperties.

(** ** Order placement *)

Section OrderProperties.
Import PyFloat Account Props Shapes.
Context {k : number_kind}.

Lemma Qle_bool_false (a b : Q) : Qle_bool a b = false <-> (b < a)%Q.
Proof.
  split.
  - intros H. apply Qnot_le_lt. intros L. apply Qle_bool_iff in L. congruence.
  - intros H. destruct (Qle_bool a b) eqn:E; [|reflexivity].
    apply Qle_bool_iff in E. exfalso. eapply Qlt_not_le; eauto.
Qed.

(** X8.  [send_orders] refuses a request exactly when the symbol is empty or
    the quantity is not positive; it then raises [ValueError] before any
    network call, and nothing is posted, logged or stored.  A BUY through
    [send_strategy_orders] is refused in the same way. *)
Theorem invalid_order_refused (b : Broker) (w : World) (quantity : Q)
  (exp_min : Z) (price : Q) (symbol instruction : string) :
  ((exists e, fst (send_orders k b w quantity exp_min price symbol instruction)
              = Raise e)
   <-> nonempty symbol = false \/ (quantity <= 0)%Q) /\
  (nonempty symbol = false \/ (quantity <= 0)%Q ->
   (exists msg, send_orders k b w quantity exp_min price symbol instruction
                = (Raise (ValueError msg), w)) /\
   forall sid, exists msg,
       send_strategy_orders k b w quantity exp_min symbol sid price "BUY"
       = (Raise (ValueError msg), w)).
Proof.
  assert (Hrej : forall p i, nonempty symbol = false \/ (quantity <= 0)%Q ->
            exists msg, send_orders k b w quantity exp_min p symbol i
                        = (Raise (ValueError msg), w)).
  { intros p i H. unfold send_orders.
    destruct (nonempty symbol); simpl; [|eexists; reflexivity].
    destruct H as [H|H]; [discriminate|].
    apply Qle_bool_iff in H. rewrite H. eexists; reflexivity. }
  split.
  - split.
    + intros [e He].
      destruct (send_orders_effect (k:=k) b w quantity exp_min price symbol instruction)
        as [_ [_ [[_ Hw]|[r [o [Hr [_ [_ [Hs Hq]]]]]]]]]; [|congruence].
      unfold send_orders in He.
      destruct (nonempty symbol); [|left; reflexivity]. simpl in He.
      destruct (Qle_bool quantity 0) eqn:E; [right; apply Qle_bool_iff; exact E|].
      exfalso.
      destruct (post_order b _) as [| | |st loc]; try discriminate.
      destruct ((400 <=? st) && (st <? 600))%Z; [discriminate|].
      destruct (st =? 201)%Z; [|discriminate].
      destruct loc as [l|]; [destruct (nonempty l)|]; discriminate.
    + intros H. destruct (Hrej price instruction H) as [msg Hm].
      rewrite Hm. eexists. reflexivity.
  - intros H. split; [apply Hrej; exact H|].
    intros sid. unfold send_strategy_orders.
    change (upper "BUY") with "BUY"%string.
    change (negb (String.eqb "BUY" "BUY" || String.eqb "BUY" "SELL")) with false.
    change (String.eqb "BUY" "BUY") with true. cbv iota.
    destruct (Hrej (round_price k price) "BUY"%string H) as [msg Hm].
    rewrite Hm. eexists. reflexivity.
Qed.

Lemma last_segment_from_free (s acc : string) :
  slash_free s = true -> last_segment_from s acc = (acc ++ s)%string.
Proof.
  revert acc. induction s as [|c r IH]; intros acc H; simpl.
  - clear H. induction acc as [|a acc IHa]; simpl; [reflexivity|].
    rewrite <- IHa. reflexivity.
  - simpl in H. apply andb_prop in H as [Hc Hr].
    apply negb_true_iff in Hc. rewrite Hc, (IH _ Hr).
    clear. induction acc as [|a acc IHa]; simpl; [reflexivity|].
    rewrite IHa. reflexivity.
Qed.

Lemma last_segment_path (prefix id : string) :
  slash_free id = true ->
  forall acc, last_segment_from (prefix ++ String "/" id)%string acc = id.
Proof.
  intros Hid. induction prefix as [|c r IH]; intros acc; simpl.
  - apply (last_segment_from_free id EmptyString Hid).
  - destruct (Ascii.eqb c "/"); apply IH.
Qed.

(** X9.  When the brokerage answers a valid request with 201 and a
    [Location] of the form [.../id], [send_orders] returns [id], the part
    after the last slash, and logs nothing. *)
Theorem order_id_from_location (b : Broker) (w : World) (quantity : Q)
  (exp_min : Z) (price : Q) (symbol instruction prefix id : string) :
  nonempty symbol = true -> (0 < quantity)%Q ->
  slash_free id = true ->
  (forall o, post_order b o
             = PostResponse 201 (Some (prefix ++ String "/" id)%string)) ->
  fst (send_orders k b w quantity exp_min price symbol instruction) = Ok (Some id) /\
  log (snd (send_orders k b w quantity exp_min price symbol instruction)) = log w.
Proof.
  intros Hs Hq Hid Hpost. unfold send_orders.
  rewrite Hs. simpl. apply Qle_bool_false in Hq. rewrite Hq, Hpost.
  cbn [Z.leb Z.ltb Z.eqb Z.compare Pos.compare Pos.compare_cont Pos.eqb andb].
  assert (Hne : nonempty (prefix ++ String "/" id)%string = true)
    by (destruct prefix; reflexivity).
  rewrite Hne. unfold last_segment. rewrite (last_segment_path _ _ Hid).
  split; reflexivity.
Qed.

Lemma upper_ascii_idem (c : ascii) : upper_ascii (upper_ascii c) = upper_ascii c.
Proof. destruct c as [[] [] [] [] [] [] [] []]; reflexivity. Qed.

Lemma upper_idem (s : string) : upper (upper s) = upper s.
Proof.
  induction s as [|c r IH]; simpl; [reflexivity|].
  rewrite upper_ascii_idem, IH. reflexivity.
Qed.

(** X10.  [send_strategy_orders] reads its instruction without regard to
    case, and an instruction that is neither BUY nor SELL raises
    [ValueError] with nothing posted, cancelled, logged or stored. *)
Theorem instruction_checked (b : Broker) (w : World) (quantity : Q)
  (exp_min : Z) (symbol : string) (sid : Z) (price : Q) (instruction : string) :
  send_strategy_orders k b w quantity exp_min symbol sid price instruction
  = send_strategy_orders k b w quantity exp_min symbol sid price (upper instruction) /\
  (upper instruction <> "BUY"%string -> upper instruction <> "SELL"%string ->
   exists msg,
     send_strategy_orders k b w quantity exp_min symbol sid price instruction
     = (Raise (ValueError msg), w)).
Proof.
  split.
  - unfold send_strategy_orders. rewrite upper_idem. reflexivity.
  - intros H1 H2. unfold send_strategy_orders.
    apply String.eqb_neq in H1, H2. rewrite H1, H2. simpl.
    eexists. reflexivity.
Qed.

(** The order [send_orders] posts for a valid request. *)
Lemma send_orders_order (b : Broker) (w : World) (q : Q) (e : Z) (p : Q)
  (s i : string) :
  nonempty s = true -> (0 < q)%Q ->
  (exists r, fst (send_orders k b w q e p s i) = Ok r) /\
  posted (snd (send_orders k b w q e p s i))
  = posted w ++
    [mkOrder (if Qeq_bool (round_price k p) 0 then "MARKET" else "LIMIT")
             (upper i) q s
             (if Qlt_bool 0 (round_price k p) then Some (round_price k p) else None)
             (if 0 <? e then Some e else None)] /\
  cancelled (snd (send_orders k b w q e p s i)) = cancelled w /\
  positions (snd (send_orders k b w q e p s i)) = positions w.
Proof.
  intros Hs Hq. unfold send_orders. rewrite Hs. simpl.
  apply Qle_bool_false in Hq. rewrite Hq.
  destruct (post_order b _) as [| | |st loc];
    try (repeat split; try reflexivity; eexists; reflexivity).
  destruct ((400 <=? st) && (st <? 600));
    [repeat split; try reflexivity; eexists; reflexivity|].
  destruct (st =? 201);
    [|repeat split; try reflexivity; eexists; reflexivity].
  destruct loc as [l|]; [destruct (nonempty l)|];
    repeat split; try reflexivity; eexists; reflexivity.
Qed.

(** X11.  A BUY that the brokerage accepts with an order id posts one BUY
    order, cancels nothing and reports "BUY completed", whether or not the
    position can be written to the database.  When the insert succeeds,
    exactly one new row is stored, for the strategy, with that order id, the
    quantity and the rounded price; when the insert fails, the store is as
    before and the error is logged. *)
Theorem buy_persists_one_row (b : Broker) (w : World) (quantity : Q)
  (exp_min : Z) (symbol : string) (sid : Z) (price : Q)
  (instruction location : string) :
  upper instruction = "BUY"%string ->
  nonempty symbol = true -> (0 < quantity)%Q ->
  (forall o, post_order b o = PostResponse 201 (Some location)) ->
  nonempty location = true -> nonempty (last_segment location) = true ->
  fst (send_strategy_orders k b w quantity exp_min symbol sid price instruction)
  = Ok (Some "BUY completed"%string) /\
  (db_insert b (mkPos sid (last_segment location) quantity (round_price k price))
   = true ->
   positions (snd (send_strategy_orders k b w quantity exp_min symbol sid price
                                        instruction))
   = positions w
     ++ [mkPos sid (last_segment location) quantity (round_price k price)] /\
   log (snd (send_strategy_orders k b w quantity exp_min symbol sid price
                                  instruction))
   = log w ++ [(INFO, "Sent buy order"%string)]) /\
  (db_insert b (mkPos sid (last_segment location) quantity (round_price k price))
   = false ->
   positions (snd (send_strategy_orders k b w quantity exp_min symbol sid price
                                        instruction))
   = positions w /\
   log (snd (send_strategy_orders k b w quantity exp_min symbol sid price
                                  instruction))
   = log w ++ [(ERROR, "Error inserting order to DB"%string);
               (INFO, "Sent buy order"%string)]) /\
  (exists o,
      posted (snd (send_strategy_orders k b w quantity exp_min symbol sid price
                                        instruction)) = posted w ++ [o] /\
      Account.instruction o = "BUY"%string /\ order_quantity o = quantity /\
      order_symbol o = symbol) /\
  cancelled (snd (send_strategy_orders k b w quantity exp_min symbol sid price
                                       instruction)) = cancelled w.
Proof.
  intros Hi Hs Hq Hpost Hloc Hid.
  assert (Hres : exists o,
             send_orders k b w quantity exp_min (round_price k price) symbol "BUY"
             = (Ok (Some (last_segment location)), add_posted w o) /\
             Account.instruction o = "BUY"%string /\ order_quantity o = quantity /\
             order_symbol o = symbol).
  { unfold send_orders. rewrite Hs. simpl.
    pose proof Hq as Hq'. apply Qle_bool_false in Hq'. rewrite Hq', Hpost.
    cbn [Z.leb Z.ltb Z.eqb Z.compare Pos.compare Pos.compare_cont Pos.eqb andb].
    rewrite Hloc. eexists. split; [reflexivity|]. repeat split; reflexivity. }
  destruct Hres as [o [Hres [Ho1 [Ho2 Ho3]]]].
  unfold send_strategy_orders. rewrite Hi.
  change (negb (String.eqb "BUY" "BUY" || String.eqb "BUY" "SELL")) with false.
  change (String.eqb "BUY" "BUY") with true. cbv iota.
  rewrite Hres, Hid.
  split; [reflexivity|]. split; [|split; [|split]].
  - intros Hdb. rewrite Hdb. split; reflexivity.
  - intros Hdb. rewrite Hdb. cbn [snd add_log log positions add_posted].
    rewrite <- app_assoc. split; reflexivity.
  - exists o. split; [|repeat split; assumption].
    destruct (db_insert b _); reflexivity.
  - destruct (db_insert b _); reflexivity.
Qed.

(** What one turn of the SELL loop can post and cancel. *)
Lemma sell_one_trace (b : Broker) (w : World) (p : Q) (s oid : string) :
  exists new cs,
    posted (snd (sell_one k b w p s oid)) = posted w ++ new /\
    cancelled (snd (sell_one k b w p s oid)) = cancelled w ++ cs /\
    Forall (closing_order s) new /\
    (forall c, In c cs -> c = oid) /\
    (List.length new + List.length cs <= 1)%nat.
Proof.
  assert (Hnone : forall w0 : World,
    exists new cs : list _,
      posted w0 = posted w0 ++ new /\ cancelled w0 = cancelled w0 ++ cs /\
      Forall (closing_order s) new /\ (forall c, In c cs -> c = oid) /\
      (List.length new + List.length cs <= 1)%nat).
  { intros w0. exists [], []. rewrite !app_nil_r.
    split; [reflexivity|]. split; [reflexivity|]. split; [constructor|].
    split; [intros c []|simpl; lia]. }
  unfold sell_one.
  destruct (get_orders b oid) as [[|kv d]|]; try apply Hnone.
  generalize (kv :: d) as order. intros order.
  destruct (equals_str (dict_get order "status") "FILLED").
  - destruct (dict_get order "filledQuantity") as [[|fq|]|]; try apply Hnone.
    destruct (Qlt_bool 0 fq) eqn:Hq; [|apply Hnone].
    apply Qlt_bool_iff in Hq.
    destruct (nonempty s) eqn:Hs.
    + destruct (send_orders_order b w fq 1440 p s "SELL" Hs Hq)
        as [[r Hr] [Hposted [Hc _]]].
      destruct (send_orders k b w fq 1440 p s "SELL") as [[r'|e] w1];
        cbn [fst snd] in *; [|discriminate].
      eexists; exists []. split; [exact Hposted|].
      rewrite app_nil_r. split; [exact Hc|]. split.
      * constructor; [|constructor].
        split; [reflexivity|]. split; [reflexivity|]. split; [exact Hq|reflexivity].
      * split; [intros c []|simpl; lia].
    + unfold send_orders. rewrite Hs. cbn [negb fst snd]. apply Hnone.
  - exists [], [oid]. cbn [fst snd posted cancelled add_cancelled].
    rewrite app_nil_r. split; [reflexivity|]. split; [reflexivity|].
    split; [constructor|]. split; [|simpl; lia].
    intros c [<-|[]]. reflexivity.
Qed.

Lemma sell_one_cancels (b : Broker) (w : World) (p : Q) (s oid : string) (d : dict) :
  get_orders b oid = Some d -> d <> [] ->
  equals_str (dict_get d "status") "FILLED" = false ->
  sell_one k b w p s oid = (Ok tt, add_cancelled w oid).
Proof.
  intros Hg Hd Hst. unfold sell_one. rewrite Hg.
  destruct d as [|kv d]; [congruence|]. rewrite Hst. reflexivity.
Qed.

Lemma sell_one_sells (b : Broker) (w : World) (p : Q) (s oid : string) (d : dict)
  (q : Q) :
  get_orders b oid = Some d -> d <> [] ->
  equals_str (dict_get d "status") "FILLED" = true ->
  dict_get d "filledQuantity" = Some (JNum q) -> (0 < q)%Q ->
  fst (sell_one k b w p s oid) = Ok tt ->
  exists o, posted (snd (sell_one k b w p s oid)) = posted w ++ [o] /\
            order_quantity o = q.
Proof.
  intros Hg Hd Hst Hfq Hq. unfold sell_one. rewrite Hg.
  destruct d as [|kv d]; [congruence|]. rewrite Hst, Hfq.
  pose proof Hq as Hq'. apply Qlt_bool_iff in Hq'. rewrite Hq'.
  destruct (nonempty s) eqn:Hs.
  - destruct (send_orders_order b w q 1440 p s "SELL" Hs Hq)
      as [_ [Hposted _]].
    destruct (send_orders k b w q 1440 p s "SELL") as [[r'|e] w1];
      cbn [fst snd] in *; [|discriminate].
    intros _. eexists. split; [exact Hposted|reflexivity].
  - unfold send_orders. rewrite Hs. cbn [negb fst snd]. discriminate.
Qed.

(** What a run of the SELL loop posts and cancels. *)
Lemma sell_loop_trace (b : Broker) (p : Q) (s : string) (ids : list string) :
  forall w : World,
  exists new cs,
    posted (snd (sell_loop k b w p s ids)) = posted w ++ new /\
    cancelled (snd (sell_loop k b w p s ids)) = cancelled w ++ cs /\
    Forall (closing_order s) new /\
    incl cs ids /\
    (List.length new + List.length cs <= List.length ids)%nat /\
    (fst (sell_loop k b w p s ids) = Ok tt ->
     forall oid d, In oid ids -> get_orders b oid = Some d -> d <> [] ->
       (equals_str (dict_get d "status") "FILLED" = false -> In oid cs) /\
       (forall q, equals_str (dict_get d "status") "FILLED" = true ->
                  dict_get d "filledQuantity" = Some (JNum q) -> (0 < q)%Q ->
                  exists o, In o new /\ order_quantity o = q)).
Proof.
  induction ids as [|oid rest IH]; intros w.
  - exists [], []. simpl. rewrite !app_nil_r.
    split; [reflexivity|]. split; [reflexivity|]. split; [constructor|].
    split; [intros c []|]. split; [lia|]. intros _ oid d [].
  - destruct (sell_one_trace b w p s oid) as [n1 [c1 [P1 [C1 [F1 [I1 L1]]]]]].
    pose proof (sell_one_cancels b w p s oid) as Hcan.
    pose proof (sell_one_sells b w p s oid) as Hsell.
    simpl sell_loop.
    destruct (sell_one k b w p s oid) as [[u|e] w1]; cbn [fst snd] in *.
    + destruct (IH w1) as [n2 [c2 [P2 [C2 [F2 [I2 [L2 A2]]]]]]].
      exists (n1 ++ n2), (c1 ++ c2).
      split; [rewrite P2, P1, app_assoc; reflexivity|].
      split; [rewrite C2, C1, app_assoc; reflexivity|].
      split; [apply Forall_app; split; assumption|].
      split.
      { intros c Hc. apply in_app_or in Hc as [Hc|Hc].
        - left. symmetry. apply I1. exact Hc.
        - right. apply I2. exact Hc. }
      split; [rewrite !length_app; simpl; lia|].
      intros Hok oid' d [<-|Hin] Hg Hd.
      * split.
        -- intros Hst. specialize (Hcan d Hg Hd Hst).
           injection Hcan as _ Hw1. apply in_or_app. left.
           assert (E : cancelled w1 = cancelled w ++ [oid])
             by (rewrite Hw1; reflexivity).
           rewrite C1 in E. apply app_inv_head in E. rewrite E.
           left. reflexivity.
        -- intros q Hst Hfq Hq.
           destruct (Hsell d q Hg Hd Hst Hfq Hq) as [o [Ho Hoq]];
             [destruct u; reflexivity|].
           rewrite P1 in Ho. apply app_inv_head in Ho.
           exists o. split; [|exact Hoq].
           apply in_or_app. left. rewrite Ho. left. reflexivity.
      * destruct (A2 Hok oid' d Hin Hg Hd) as [A B]. split.
        -- intros Hst. apply in_or_app. right. apply A. exact Hst.
        -- intros q Hst Hfq Hq. destruct (B q Hst Hfq Hq) as [o [Ho Hoq]].
           exists o. split; [apply in_or_app; right; exact Ho|exact Hoq].
    + exists n1, c1. split; [exact P1|]. split; [exact C1|].
      split; [exact F1|]. split.
      { intros c Hc. left. symmetry. apply I1. exact Hc. }
      split; [simpl; lia|]. discriminate.
Qed.

(** X12.  In a SELL cycle every order posted is a SELL of a positive
    quantity for the symbol, to be cancelled after 1440 minutes; every
    cancellation is for an order id of the strategy; and at most one order
    or cancellation goes out per order id.  When no exception leaves the
    loop, every order that has a document and is not FILLED is cancelled,
    and every FILLED order with a positive filled quantity is sold for that
    quantity. *)
Theorem sell_cycle_actions (b : Broker) (w : World) (quantity : Q)
  (exp_min : Z) (symbol : string) (sid : Z) (price : Q) (instruction : string) :
  upper instruction = "SELL"%string ->
  exists new cs,
    posted (snd (send_strategy_orders k b w quantity exp_min symbol sid price
                                      instruction)) = posted w ++ new /\
    cancelled (snd (send_strategy_orders k b w quantity exp_min symbol sid price
                                         instruction)) = cancelled w ++ cs /\
    Forall (closing_order symbol) new /\
    incl cs (get_order_id_list sid (positions w)) /\
    (List.length new + List.length cs
     <= List.length (get_order_id_list sid (positions w)))%nat /\
    ((forall oid d,
         In oid (get_order_id_list sid (positions w)) ->
         get_orders b oid = Some d ->
         nonempty symbol = true /\
         numeric_or_absent (dict_get d "filledQuantity")) ->
     forall oid d,
       In oid (get_order_id_list sid (positions w)) ->
       get_orders b oid = Some d -> d <> [] ->
       (equals_str (dict_get d "status") "FILLED" = false -> In oid cs) /\
       (forall q, equals_str (dict_get d "status") "FILLED" = true ->
                  dict_get d "filledQuantity" = Some (JNum q) -> (0 < q)%Q ->
                  exists o, In o new /\ order_quantity o = q)).
Proof.
  intros Hi.
  destruct (sell_loop_trace b (round_price k price) symbol
              (get_order_id_list sid (positions w)) w)
    as [new [cs [P [C [F [I [L A]]]]]]].
  pose proof (sell_loop_returns (k:=k) b (round_price k price) symbol
                (get_order_id_list sid (positions w)) w) as Hret.
  exists new, cs. unfold send_strategy_orders. rewrite Hi.
  change (negb (String.eqb "SELL" "BUY" || String.eqb "SELL" "SELL")) with false.
  change (String.eqb "SELL" "BUY") with false. cbv iota.
  destruct (sell_loop k b w (round_price k price) symbol _) as [[u|e] w1];
    cbn [fst snd posted cancelled add_log set_positions] in *;
    (split; [exact P|]); (split; [exact C|]); (split; [exact F|]);
    (split; [exact I|]); (split; [exact L|]);
    intros Hsafe; apply A; apply Hret; exact Hsafe.
Qed.

(** X13.  When every order lookup of a SELL cycle fails, nothing is sold and
    nothing is cancelled at the brokerage, and yet the rows of the strategy
    are deleted and the cycle reports completion. *)
Theorem sell_lookups_fail (b : Broker) (w : World) (quantity : Q)
  (exp_min : Z) (symbol : string) (sid : Z) (price : Q) (instruction : string) :
  upper instruction = "SELL"%string ->
  (forall oid, In oid (get_order_id_list sid (positions w)) ->
               get_orders b oid = None) ->
  fst (send_strategy_orders k b w quantity exp_min symbol sid price instruction)
  = Ok (Some "SELL completed"%string) /\
  posted (snd (send_strategy_orders k b w quantity exp_min symbol sid price
                                    instruction)) = posted w /\
  cancelled (snd (send_strategy_orders k b w quantity exp_min symbol sid price
                                       instruction)) = cancelled w /\
  positions (snd (send_strategy_orders k b w quantity exp_min symbol sid price
                                       instruction))
  = delete_active_positions sid (positions w).
Proof.
  intros Hi Hfail.
  assert (Hloop : forall ids, (forall oid, In oid ids -> get_orders b oid = None) ->
            sell_loop k b w (round_price k price) symbol ids = (Ok tt, w)).
  { induction ids as [|oid rest IH]; intros H; simpl; [reflexivity|].
    unfold sell_one. rewrite (H oid (or_introl eq_refl)).
    apply IH. intros o Ho. apply H. right. exact Ho. }
  unfold send_strategy_orders. rewrite Hi.
  change (negb (String.eqb "SELL" "BUY" || String.eqb "SELL" "SELL")) with false.
  change (String.eqb "SELL" "BUY") with false. cbv iota.
  rewrite (Hloop _ Hfail). repeat split; reflexivity.
Qed.

(** X14.  A price from 0 up to half a ten-thousandth is rounded to 0, so an
    order asked at such a limit price goes out as a MARKET order without a
    price. *)
Theorem tiny_price_is_market (b : Broker) (w : World) (quantity : Q)
  (exp_min : Z) (price : Q) (symbol instruction : string) :
  (0 <= price)%Q -> (price <= 1 # 20000)%Q ->
  nonempty symbol = true -> (0 < quantity)%Q ->
  round_price k price = 0%Q /\
  posted (snd (send_orders k b w quantity exp_min price symbol instruction))
  = posted w ++
    [mkOrder "MARKET" (upper instruction) quantity symbol None
             (if 0 <? exp_min then Some exp_min else None)].
Proof.
  intros H0 H1 Hs Hq.
  assert (Hr : round_price k price = 0%Q).
  { unfold round_price.
    assert (Hlt : Qlt_bool price 1 = true) by (apply Qlt_bool_iff; lra).
    rewrite Hlt.
    assert (Hz : (0 <= price * 10 ^ 4)%Q /\ (price * 10 ^ 4 <= 1 # 2)%Q)
      by (change (10 ^ 4)%Q with (10000 # 1)%Q; split; lra).
    destruct Hz as [Hz0 Hz1].
    destruct k; unfold round_as, py_round, np_round.
    - rewrite round_half_even_small by assumption. vm_compute. reflexivity.
    - destruct (b64_small _ Hz0 Hz1) as [B0 B1].
      rewrite round_half_even_small by assumption. vm_compute. reflexivity. }
  split; [exact Hr|].
  destruct (send_orders_order b w quantity exp_min price symbol instruction Hs Hq)
    as [_ [Hposted _]].
  rewrite Hposted, Hr. reflexivity.
Qed.

End OrderProperties.

Section OrderWitnesses.
Import PyFloat Account Props Shapes.

Lemma invalid_order_refused_witness :
  exists msg, send_orders python_float filled_broker empty_world 0 5 1 "SPY" "BUY"
              = (Raise (ValueError msg), empty_world).
Proof.
  assert (H : nonempty "SPY" = false \/ (0 <= 0)%Q) by (right; apply Qle_refl).
  exact (proj1 (proj2 (invalid_order_refused (k:=python_float) filled_broker empty_world 0 5 1
                         "SPY" "BUY") H)).
Defined.

Lemma order_id_from_location_witness :
  fst (send_orders python_float filled_broker empty_world 1 5 0 "SPY" "BUY")
  = Ok (Some "12345"%string).
Proof.
  apply (proj1 (order_id_from_location (k:=python_float) filled_broker empty_world 1 5 0 "SPY" "BUY"
                  "/orders" "12345" eq_refl eq_refl eq_refl (fun _ => eq_refl))).
Defined.

Lemma instruction_checked_witness :
  exists msg,
    send_strategy_orders python_float filled_broker one_position 1 5 "SPY" 1 0 "hold"
    = (Raise (ValueError msg), one_position).
Proof.
  apply (proj2 (instruction_checked (k:=python_float) filled_broker one_position 1 5 "SPY" 1 0 "hold"));
    discriminate.
Defined.

Lemma buy_persists_one_row_witness :
  positions (snd (send_strategy_orders python_float filled_broker empty_world
                                       1 5 "SPY" 7 0 "buy"))
  = [mkPos 7 "12345" 1 (round_price python_float 0)] /\
  positions (snd (send_strategy_orders numpy_float64 database_down empty_world
                                       1 5 "SPY" 7 double_12_345 "buy")) = [] /\
  log (snd (send_strategy_orders numpy_float64 database_down empty_world
                                 1 5 "SPY" 7 double_12_345 "buy"))
  = [(ERROR, "Error inserting order to DB"%string);
     (INFO, "Sent buy order"%string)].
Proof.
  split.
  - apply (proj1 (proj2 (buy_persists_one_row (k:=python_float) filled_broker
                           empty_world 1 5 "SPY" 7 0 "buy" "/orders/12345"
                           eq_refl eq_refl eq_refl (fun _ => eq_refl)
                           eq_refl eq_refl))).
    reflexivity.
  - apply (proj1 (proj2 (proj2 (buy_persists_one_row (k:=numpy_float64)
                           database_down empty_world 1 5 "SPY" 7 double_12_345
                           "buy" "/orders/12345"
                           eq_refl eq_refl eq_refl (fun _ => eq_refl)
                           eq_refl eq_refl)))).
    reflexivity.
Defined.

Lemma sell_cycle_actions_witness :
  exists new cs,
    posted (snd (send_strategy_orders python_float filled_broker one_position 1 5 "SPY" 1 0
                                      "sell")) = posted one_position ++ new /\
    cancelled (snd (send_strategy_orders python_float filled_broker one_position 1 5 "SPY" 1 0
                                         "sell")) = cancelled one_position ++ cs /\
    Forall (closing_order "SPY") new.
Proof.
  destruct (sell_cycle_actions (k:=python_float) filled_broker one_position 1 5 "SPY" 1 0 "sell"
              eq_refl) as [new [cs [P [C [F _]]]]].
  exists new, cs. split; [exact P|]. split; [exact C|exact F].
Defined.

Lemma sell_lookups_fail_witness :
  positions (snd (send_strategy_orders python_float unreachable_broker one_position 1 5 "SPY"
                                       1 0 "SELL"))
  = delete_active_positions 1 (positions one_position).
Proof.
  apply (proj2 (proj2 (proj2
    (sell_lookups_fail (k:=python_float) unreachable_broker one_position 1 5 "SPY" 1 0 "SELL"
       eq_refl (fun _ _ => eq_refl))))).
Defined.

Lemma tiny_price_is_market_witness :
  round_price python_float (1 # 25000) = 0%Q.
Proof.
  apply (proj1 (tiny_price_is_market (k:=python_float) filled_broker empty_world 1 5 (1 # 25000)
                  "SPY" "BUY" ltac:(discriminate) ltac:(discriminate)
                  eq_refl eq_refl)).
Defined.

End OrderWitnesses.


(** ** The bar handler: what it keeps *)

Section HandlerInvariants.
Import Frame Aggregator Account Stream Props Shapes.

Variable pd : Pandas.
Variable cache : Cache.
Variable R : StrategyData -> StrategyData -> Prop.
Variable ok : ChartItem -> Prop.
Hypothesis R_refl : forall sd, R sd sd.
Hypothesis R_trans : forall a b c, R a b -> R b c -> R a c.
Hypothesis R_step :
  forall item sid sd sd' ev,
    ok item ->
    nonempty (upper (key item)) = true ->
    on_bar_strategy pd cache item (upper (key item)) sid sd = Ok (sd', ev) ->
    R sd sd'.

Lemma evolves_refl (d : DfDict) : evolves R d d.
Proof. induction d; constructor; auto. Qed.

Lemma evolves_trans (d1 d2 d3 : DfDict) :
  evolves R d1 d2 -> evolves R d2 d3 -> evolves R d1 d3.
Proof.
  intros H. revert d3. induction H as [|p p' l l' [H1 H2] _ IH]; intros d3 H3.
  - inversion H3. constructor.
  - inversion H3 as [|q q' m m' [H4 H5] Hrest]; subst.
    constructor; [split; [congruence|eauto]|apply IH; exact Hrest].
Qed.

Lemma on_bar_strategies_evolves (item : ChartItem) (d : DfDict) :
  ok item -> nonempty (upper (key item)) = true ->
  evolves R d (fst (fst (on_bar_strategies pd cache item (upper (key item)) d))).
Proof.
  intros Hok Hne. induction d as [|[sid sd] rest IH]; simpl; [constructor|].
  destruct (on_bar_strategy pd cache item (upper (key item)) sid sd)
    as [[sd' ev]|e] eqn:E.
  - destruct (on_bar_strategies pd cache item (upper (key item)) rest)
      as [[rest' ev'] exc].
    simpl in *. constructor; [|exact IH].
    split; [reflexivity|]. simpl. eapply R_step; eauto.
  - simpl. apply evolves_refl.
Qed.

Lemma on_bar_evolves (content : list Delivered) :
  Forall (fun x => forall item, read_item x = Ok item -> ok item) content ->
  forall d : DfDict, evolves R d (fst (fst (on_bar pd cache content d))).
Proof.
  induction 1 as [|x rest Hok _ IH]; intros d; simpl; [apply evolves_refl|].
  assert (H1 : evolves R d (fst (fst (on_bar_item pd cache x d)))).
  { unfold on_bar_item.
    destruct (read_item x) as [item|e] eqn:Er; [|apply evolves_refl].
    destruct (nonempty (upper (key item))) eqn:Hne;
      cbn [negb]; [|apply evolves_refl].
    apply on_bar_strategies_evolves; [apply Hok; reflexivity|exact Hne]. }
  destruct (on_bar_item pd cache x d) as [[d' ev] [e|]]; simpl in *; [exact H1|].
  specialize (IH d').
  destruct (on_bar pd cache rest d') as [[d'' ev'] exc]. simpl in *.
  eapply evolves_trans; eauto.
Qed.

Lemma handle_messages_evolves (msgs : list (list Delivered)) :
  Forall (Forall (fun x => forall item, read_item x = Ok item -> ok item)) msgs ->
  forall d : DfDict, evolves R d (fst (fst (handle_messages pd cache msgs d))).
Proof.
  induction 1 as [|content rest Hok _ IH]; intros d; simpl; [apply evolves_refl|].
  pose proof (on_bar_evolves content Hok d) as H1.
  destruct (on_bar pd cache content d) as [[d' ev] [e|]]; simpl in *; [exact H1|].
  specialize (IH d').
  destruct (handle_messages pd cache rest d') as [[d'' ev'] exc]. simpl in *.
  eapply evolves_trans; eauto.
Qed.

End HandlerInvariants.

Section HandlerProperties.
Import Frame Aggregator Columns PyFloat Account Stream Props Shapes.
Context {pd : Pandas}.

Lemma all_items (msgs : list (list Delivered)) :
  Forall (Forall (fun x => forall item : ChartItem, read_item x = Ok item -> True))
         msgs.
Proof.
  apply Forall_forall. intros c _. apply Forall_forall. intros i _ item _. exact I.
Qed.

Lemma on_bar_strategy_cases (cache : Cache) (item : ChartItem) (sym : string)
  (sid : Z) (sd sd' : StrategyData) (ev : list Event) :
  on_bar_strategy pd cache item sym sid sd = Ok (sd', ev) ->
  (sd' = sd /\ ev = []) \/
  (sd_symbol sd = sym /\
   sd' = set_df sd (sort_index pd (concat (df sd) (new_bars item sym))) /\
   itsTime sd = true) \/
  (sd_symbol sd = sym /\
   sd' = set_df (set_itsTime sd)
           (sort_index pd (concat (df sd) (new_bars item sym))) /\
   itsTime sd = false).
Proof.
  unfold on_bar_strategy.
  destruct (String.eqb (sd_symbol sd) sym) eqn:Es; cbn [negb];
    [|intros [= <- <-]; left; split; reflexivity].
  apply String.eqb_eq in Es.
  destruct (itsTime sd) eqn:El.
  - intros [= H]. right; left.
    pose proof (process_bar_state (pd:=pd) cache item sym sid sd) as Hs.
    rewrite H in Hs. simpl in Hs. auto.
  - destruct (its_time _ _) as [[|]|]; [| |discriminate].
    + pose proof (process_bar_state (pd:=pd) cache item sym sid (set_itsTime sd)) as Hs.
      destruct (process_bar pd cache item sym sid (set_itsTime sd)) as [sd2 ev2].
      intros [= <- <-]. right; right. simpl in Hs. auto.
    + intros [= <- <-]. left; split; reflexivity.
Qed.

(** X15.  Whatever messages the handler gets, [df_dict] keeps its strategies
    under the same ids and in the same order, each with the name, symbol,
    order type and time frame it was given, and no row ever leaves a
    buffer. *)
Theorem handler_keeps_configuration (cache : Cache)
  (msgs : list (list Delivered)) (d : DfDict) :
  evolves (fun sd sd' =>
             same_config sd sd' /\
             incl (rows (df sd)) (rows (df sd')) /\
             (List.length (rows (df sd)) <= List.length (rows (df sd')))%nat)
          d (fst (fst (handle_messages pd cache msgs d))).
Proof.
  apply (handle_messages_evolves pd cache _ (fun _ => True)).
  - intros sd. split; [repeat split|]. split; [apply incl_refl|lia].
  - intros a b c [[A1 [A2 [A3 [A4 A5]]]] [Ai Al]] [[B1 [B2 [B3 [B4 B5]]]] [Bi Bl]].
    split; [repeat split; congruence|].
    split; [eapply incl_tran; eauto|lia].
  - intros item sid sd sd' ev _ _ H.
    assert (Hgrow : forall d0 : DataFrame,
              incl (rows d0)
                   (rows (sort_index pd (concat d0 (new_bars item (upper (key item))))))
              /\ (List.length (rows d0)
                  <= List.length
                       (rows (sort_index pd
                                (concat d0 (new_bars item (upper (key item)))))))%nat).
    { intros d0. destruct (appended_rows (pd:=pd) d0 item (upper (key item)))
        as [P [_ [L _]]].
      split; [|lia].
      intros r Hr. eapply Permutation_in; [apply Permutation_sym, P|].
      apply in_or_app. left. exact Hr. }
    apply on_bar_strategy_cases in H as [[-> _]|[[_ [-> _]]|[_ [-> _]]]].
    + split; [repeat split|]. split; [apply incl_refl|lia].
    + split; [repeat split|]. cbn [df set_df]. apply Hgrow.
    + split; [repeat split|]. cbn [df set_df set_itsTime]. apply Hgrow.
  - apply all_items.
Qed.

(** X16.  A buffer that is in time order stays in time order whatever
    messages arrive, and a buffer that receives a bar is in time order from
    then on. *)
Theorem handler_keeps_time_order (cache : Cache)
  (msgs : list (list Delivered)) (d : DfDict) :
  evolves (fun sd sd' =>
             (monotonic (rows (df sd)) = true \/ df sd' <> df sd) ->
             monotonic (rows (df sd')) = true)
          d (fst (fst (handle_messages pd cache msgs d))).
Proof.
  assert (Hsorted : forall (sd : StrategyData) item sym,
            monotonic (rows (sort_index pd (concat (df sd) (new_bars item sym))))
            = true).
  { intros. apply sort_index_monotonic. }
  eapply Forall2_impl;
    [|apply (handle_messages_evolves pd cache
               (fun sd sd' => (monotonic (rows (df sd)) = true ->
                               monotonic (rows (df sd')) = true) /\
                              (df sd' <> df sd ->
                               monotonic (rows (df sd')) = true))
               (fun _ => True))].
  - intros p p' [Hid [H1 H2]]. split; [exact Hid|]. intros [A|A]; auto.
  - intros sd. split; [auto|congruence].
  - intros a b c [A1 A2] [B1 B2]. split; [auto|].
    intros Hne. destruct (monotonic (rows (df b))) eqn:Eb; [auto|].
    apply B2. intros E. rewrite E in Hne. specialize (A2 Hne). congruence.
  - intros item sid sd sd' ev _ _ Hstep.
    apply on_bar_strategy_cases in Hstep as [[-> _]|[[_ [-> _]]|[_ [-> _]]]].
    + split; [auto|congruence].
    + split; intros _; apply Hsorted.
    + split; intros _; apply (Hsorted (set_itsTime sd)).
  - apply all_items.
Qed.

(** X17.  The strategies on other symbols do not see a bar: a strategy for
    whose symbol no item arrives comes out of any run of messages exactly
    as it went in. *)
Theorem handler_isolates_symbols (cache : Cache)
  (msgs : list (list Delivered)) (d : DfDict) (sym : string) :
  silent_on sym msgs ->
  evolves (fun sd sd' => sd_symbol sd = sym -> sd' = sd)
          d (fst (fst (handle_messages pd cache msgs d))).
Proof.
  intros Hsilent.
  apply (handle_messages_evolves pd cache _
           (fun item => nonempty (upper (key item)) = true ->
                        upper (key item) <> sym)).
  - auto.
  - intros a b c H1 H2 Hs. rewrite (H2 (eq_trans (f_equal sd_symbol (H1 Hs)) Hs)).
    apply H1. exact Hs.
  - intros item sid sd sd' ev Hok Hkey H Hs. specialize (Hok Hkey).
    unfold on_bar_strategy in H. rewrite Hs in H.
    destruct (String.eqb sym (upper (key item))) eqn:E.
    + apply String.eqb_eq in E. congruence.
    + cbn [negb] in H. injection H as <- _. reflexivity.
  - unfold silent_on in Hsilent.
    eapply Forall_impl; [|exact Hsilent]. intros content Hc.
    eapply Forall_impl; [|exact Hc]. intros x Hx item Hr.
    unfold read_item in Hr.
    destruct (delivered_time x) as [t|]; [|discriminate].
    destruct (Z.abs t <=? timestamp_limit); [|discriminate].
    destruct (delivered_key x) as [| |s0] eqn:Ek; [|discriminate|].
    + injection Hr as <-. cbn [key upper nonempty]. discriminate.
    + injection Hr as <-. cbn [key]. intros _. apply (Hx s0). exact Ek.
Qed.

(** Where the events of the body of the handler come from. *)
Lemma process_bar_events (cache : Cache) (item : ChartItem) (sym : string)
  (sid : Z) (sd : StrategyData) (e : Event) :
  let sd2 := set_df sd (sort_index pd (concat (df sd) (new_bars item sym))) in
  In e (snd (process_bar pd cache item sym sid sd)) ->
  e = Appended sid (CHART_TIME_MILLIS item) \/
  e = AggregateCalled sid (df sd2) (time_frame sd) \/
  e = BarProcessingError sid \/
  exists candles,
    In e (evaluate cache sid sd2 candles) /\
    (forall e', In e' (evaluate cache sid sd2 candles) ->
                In e' (snd (process_bar pd cache item sym sid sd))) /\
    its_time (bar_minute (CHART_TIME_MILLIS item) + tosDelay) (time_frame sd)
    = Ok true /\
    df_empty candles = false /\
    (time_frame sd = 1 -> candles = df sd2) /\
    (time_frame sd <> 1 ->
     aggregate_time_frame pd (df sd2) (time_frame sd) = Ok candles).
Proof.
  intros sd2. unfold process_bar. cbv zeta. cbn [df set_df time_frame].
  fold sd2.
  destruct (time_frame sd =? 1) eqn:Etf.
  - apply Z.eqb_eq in Etf. rewrite appended_not_empty.
    destruct (its_time _ _) as [[|]|] eqn:Eit; cbn [snd app].
    + intros [<-|H]; [left; reflexivity|]. right; right; right.
      exists (sort_index pd (concat (df sd) (new_bars item sym))).
      split; [exact H|]. split; [intros e' He'; right; exact He'|].
      split; [reflexivity|].
      split; [apply appended_not_empty|]. split; [reflexivity|]. congruence.
    + intros [<-|[]]. left; reflexivity.
    + intros [<-|[<-|[]]]; auto.
  - apply Z.eqb_neq in Etf.
    destruct (aggregate_time_frame pd _ _) as [candles|exc] eqn:Eagg; cbn [snd app].
    + destruct (df_empty candles) eqn:Eempty; cbn [snd app].
      * intros [<-|[<-|[]]]; auto.
      * destruct (its_time _ _) as [[|]|] eqn:Eit; cbn [snd app].
        -- intros [<-|[<-|H]]; auto. right; right; right.
           exists candles. split; [exact H|].
           split; [intros e' He'; right; right; exact He'|].
           split; [reflexivity|].
           split; [exact Eempty|]. split; [congruence|]. intros _. reflexivity.
        -- intros [<-|[<-|[]]]; auto.
        -- intros [<-|[<-|[<-|[]]]]; auto.
    + intros [<-|[<-|[<-|[]]]]; auto.
Qed.

Lemma on_bar_strategy_events (cache : Cache) (item : ChartItem) (sym : string)
  (sid : Z) (sd sd' : StrategyData) (ev : list Event) (e : Event) :
  on_bar_strategy pd cache item sym sid sd = Ok (sd', ev) -> In e ev ->
  e = LatchSet sid \/
  e = Appended sid (CHART_TIME_MILLIS item) \/
  e = AggregateCalled sid (df sd') (time_frame sd) \/
  e = BarProcessingError sid \/
  exists candles,
    In e (evaluate cache sid sd' candles) /\
    (forall e', In e' (evaluate cache sid sd' candles) -> In e' ev) /\
    its_time (bar_minute (CHART_TIME_MILLIS item) + tosDelay) (time_frame sd)
    = Ok true /\
    df_empty candles = false /\
    (time_frame sd = 1 -> candles = df sd') /\
    (time_frame sd <> 1 ->
     aggregate_time_frame pd (df sd') (time_frame sd) = Ok candles).
Proof.
  unfold on_bar_strategy.
  destruct (negb _); [intros [= <- <-] []|].
  destruct (itsTime sd) eqn:El.
  - intros [= H] Hin.
    pose proof (process_bar_state (pd:=pd) cache item sym sid sd) as Hs.
    pose proof (process_bar_events cache item sym sid sd e) as He.
    rewrite H in Hs, He. cbn [fst snd] in Hs, He. cbv zeta in He.
    rewrite <- Hs in He. right. apply He. exact Hin.
  - destruct (its_time _ _) as [[|]|]; [| |discriminate].
    + pose proof (process_bar_state (pd:=pd) cache item sym sid (set_itsTime sd)) as Hs.
      pose proof (process_bar_events cache item sym sid (set_itsTime sd) e) as He.
      destruct (process_bar pd cache item sym sid (set_itsTime sd)) as [sd2 ev2].
      intros [= <- <-] [<-|Hin]; [left; reflexivity|].
      cbn [fst snd] in Hs, He. cbv zeta in He. rewrite <- Hs in He.
      cbn [time_frame set_itsTime] in He.
      destruct (He Hin) as [E|[E|[E|[candles [A [B C]]]]]]; auto.
      right; right; right; right. exists candles.
      split; [exact A|]. split; [|exact C].
      intros e' He'. right. apply B. exact He'.
    + intros [= <- <-] [].
Qed.

Lemma its_time_true (m tf : Z) :
  its_time m tf = Ok true -> tf <> 0 /\ m mod tf = 0.
Proof.
  unfold its_time. destruct (tf =? 0) eqn:E; [discriminate|].
  intros [= H]. apply Z.eqb_neq in E. apply Z.eqb_eq in H. auto.
Qed.

Lemma on_bar_strategy_config (cache : Cache) (item : ChartItem) (sym : string)
  (sid : Z) (sd sd' : StrategyData) (ev : list Event) :
  on_bar_strategy pd cache item sym sid sd = Ok (sd', ev) -> same_config sd sd'.
Proof.
  intros H.
  apply on_bar_strategy_cases in H as [[-> _]|[[_ [-> _]]|[_ [-> _]]]];
    repeat split.
Qed.

(** X18.  A strategy function is called only one minute before a boundary
    of the strategy's time frame, only for a strategy whose function is in
    the cache, and it is given the updated buffer itself when the time
    frame is 1 and otherwise the non-empty aggregation of the updated buffer
    at the time frame. *)
Theorem evaluation_timing (cache : Cache) (item : ChartItem) (sym : string)
  (sid : Z) (sd sd' : StrategyData) (ev : list Event)
  (s : Z) (n : string) (input : DataFrame) :
  on_bar_strategy pd cache item sym sid sd = Ok (sd', ev) ->
  In (StrategyCalled s n input) ev ->
  s = sid /\ n = name sd /\ cache_get cache (name sd) <> None /\
  time_frame sd <> 0 /\
  (bar_minute (CHART_TIME_MILLIS item) + 1) mod time_frame sd = 0 /\
  df_empty input = false /\
  (time_frame sd = 1 -> input = df sd') /\
  (time_frame sd <> 1 ->
   aggregate_time_frame pd (df sd') (time_frame sd) = Ok input).
Proof.
  intros H Hin.
  destruct (on_bar_strategy_config _ _ _ _ _ _ _ H) as [Hn _].
  destruct (on_bar_strategy_events _ _ _ _ _ _ _ _ H Hin)
    as [E|[E|[E|[E|[candles [Hev [_ [Hit [Hne [H1 Hagg]]]]]]]]]]; try discriminate.
  apply its_time_true in Hit as [Htf Hmod].
  destruct (evaluate_shape cache sid sd' candles) as [Hs|[l [Hs Hl]]];
    rewrite Hs in Hev.
  - destruct Hev as [Hev|[]]. discriminate.
  - assert (Hc : cache_get cache (name sd') <> None).
    { intros Hc. unfold evaluate in Hs. rewrite Hc in Hs. discriminate. }
    assert (Heq : StrategyCalled s n input = StrategyCalled sid (name sd') candles).
    { destruct Hev as [Hev|Hev]; [symmetry; exact Hev|].
      rewrite Forall_forall in Hl.
      destruct (Hl _ Hev) as [E|[c E]]; discriminate. }
    injection Heq as -> -> ->. rewrite Hn in *.
    repeat split; assumption.
Qed.

Lemma evaluate_order (cache : Cache) (sid : Z) (sd : StrategyData)
  (candles : DataFrame) (c : OrderCall) :
  In (OrderSent c) (evaluate cache sid sd candles) ->
  exists strat_func out front recent_candle sig,
    cache_get cache (name sd) = Some strat_func /\
    In (StrategyCalled sid (name sd) candles) (evaluate cache sid sd candles) /\
    strat_func candles = Ok out /\
    out = front ++ [recent_candle] /\
    signal recent_candle = SignalText sig /\ sig <> EmptyString /\
    c = mkCall (quantity recent_candle) (time_frame sd) (sd_symbol sd) sid
               (if String.eqb (order_type sd) "LIMIT"
                then last_close recent_candle else 0%Q)
               (if String.eqb (order_type sd) "LIMIT"
                then numpy_float64 else python_float)
               (upper sig).
Proof.
  unfold evaluate.
  destruct (cache_get cache (name sd)) as [f|]; [|intros [H|[]]; discriminate].
  intros [H|H]; [discriminate|].
  destruct (f candles) as [out|e] eqn:Ef; [|destruct H as [H|[]]; discriminate].
  destruct (rev out) as [|last r] eqn:Er; [destruct H as [H|[]]; discriminate|].
  destruct (signal last) as [| |[|ch sg]] eqn:Es;
    [destruct H|destruct H as [H|[]]; discriminate|destruct H|].
  assert (Hc : c = mkCall (quantity last) (time_frame sd) (sd_symbol sd) sid
                     (if String.eqb (order_type sd) "LIMIT"
                      then last_close last else 0%Q)
                     (if String.eqb (order_type sd) "LIMIT"
                      then numpy_float64 else python_float)
                     (upper (String ch sg))).
  { match type of H with
    | context [order_raises ?x] => destruct (order_raises x)
    end;
      [destruct H as [H|[H|[]]]|destruct H as [H|[]]];
      first [injection H as <-; reflexivity|discriminate]. }
  subst c.
  exists f, out, (rev r), last, (String ch sg).
  split; [reflexivity|]. split; [left; reflexivity|]. split; [exact Ef|].
  split.
  - rewrite <- (rev_involutive out), Er. reflexivity.
  - split; [exact Es|]. split; [discriminate|reflexivity].
Qed.

(** X19.  Every order the handler asks for comes from the last row of what
    the strategy function returned in the same turn: that row has a
    non-empty signal, whose upper case is the instruction, and gives the
    quantity; the order is for the strategy's own id and symbol, expires
    after the strategy's time frame, and is priced at the row's close for a
    LIMIT strategy and at 0 otherwise. *)
Theorem order_from_last_row (cache : Cache) (item : ChartItem) (sym : string)
  (sid : Z) (sd sd' : StrategyData) (ev : list Event) (c : OrderCall) :
  on_bar_strategy pd cache item sym sid sd = Ok (sd', ev) ->
  In (OrderSent c) ev ->
  exists strat_func input out front recent_candle sig,
    cache_get cache (name sd) = Some strat_func /\
    In (StrategyCalled sid (name sd) input) ev /\
    strat_func input = Ok out /\
    out = front ++ [recent_candle] /\
    signal recent_candle = SignalText sig /\ sig <> EmptyString /\
    c = mkCall (quantity recent_candle) (time_frame sd) (sd_symbol sd) sid
               (if String.eqb (order_type sd) "LIMIT"
                then last_close recent_candle else 0%Q)
               (if String.eqb (order_type sd) "LIMIT"
                then numpy_float64 else python_float)
               (upper sig).
Proof.
  intros H Hin.
  destruct (on_bar_strategy_config _ _ _ _ _ _ _ H) as [Hn [Hsy [Hot [Htf _]]]].
  destruct (on_bar_strategy_events _ _ _ _ _ _ _ _ H Hin)
    as [E|[E|[E|[E|[candles [He [Hsub _]]]]]]]; try discriminate.
  destruct (evaluate_order _ _ _ _ _ He)
    as [f [out [front [last [sig [H1 [H2 [H3 [H4 [H5 [H6 H7]]]]]]]]]]].
  rewrite Hn, Hsy, Hot, Htf in *.
  exists f, candles, out, front, last, sig.
  split; [exact H1|]. split; [apply Hsub; exact H2|].
  repeat split; assumption.
Qed.

Lemma on_bar_strategy_raises (cache : Cache) (item : ChartItem) (sym : string)
  (sid : Z) (sd : StrategyData) (e : PyExc) :
  on_bar_strategy pd cache item sym sid sd = Raise e <->
  sd_symbol sd = sym /\ itsTime sd = false /\ time_frame sd = 0 /\
  e = ZeroDivisionError.
Proof.
  unfold on_bar_strategy. split.
  - destruct (String.eqb (sd_symbol sd) sym) eqn:Es; cbn [negb]; [|discriminate].
    apply String.eqb_eq in Es.
    destruct (itsTime sd); [discriminate|].
    unfold its_time. destruct (time_frame sd =? 0) eqn:Etf.
    + apply Z.eqb_eq in Etf. intros [= <-]. auto.
    + destruct (bar_minute (CHART_TIME_MILLIS item) mod time_frame sd =? 0);
        [|discriminate].
      destruct (process_bar pd _ _ _ _ _); cbv iota beta; discriminate.
  - intros [Hs [Hl [Htf ->]]]. rewrite Hs, String.eqb_refl, Hl. cbn [negb].
    unfold its_time. rewrite Htf. reflexivity.
Qed.

Lemma on_bar_strategies_safe (cache : Cache) (item : ChartItem) (sym : string)
  (d : DfDict) :
  Forall (fun p => time_frame (snd p) <> 0) d ->
  snd (on_bar_strategies pd cache item sym d) = None /\
  Forall (fun p => time_frame (snd p) <> 0)
         (fst (fst (on_bar_strategies pd cache item sym d))).
Proof.
  induction 1 as [|[sid sd] rest Hsd _ IH]; simpl; [split; [reflexivity|constructor]|].
  destruct (on_bar_strategy pd cache item sym sid sd) as [[sd' ev]|e] eqn:E.
  - destruct (on_bar_strategy_config _ _ _ _ _ _ _ E) as [_ [_ [_ [Htf _]]]].
    destruct (on_bar_strategies pd cache item sym rest) as [[rest' ev'] exc].
    simpl in *. destruct IH as [-> IH]. split; [reflexivity|].
    constructor; [simpl; congruence|exact IH].
  - apply on_bar_strategy_raises in E as [_ [_ [Htf _]]]. simpl in Hsd. contradiction.
Qed.

(** An item is read exactly when it is well formed. *)
Lemma read_item_raises (x : Delivered) :
  (exists e, read_item x = Raise e) <-> ~ well_formed x.
Proof.
  unfold read_item, well_formed. split.
  - intros [e He] [[t [Ht Hr]] Hk]. rewrite Ht in He.
    apply Z.leb_le in Hr. rewrite Hr in He.
    destruct (delivered_key x); [discriminate|congruence|discriminate].
  - intros Hn. destruct (delivered_time x) as [t|]; [|eexists; reflexivity].
    destruct (Z.abs t <=? timestamp_limit) eqn:Er; [|eexists; reflexivity].
    apply Z.leb_le in Er.
    destruct (delivered_key x) eqn:Ek; [|eexists; reflexivity|];
      exfalso; apply Hn; (split; [exists t; auto|discriminate]).
Qed.

Lemma on_bar_safe (cache : Cache) (content : list Delivered) :
  Forall well_formed content ->
  forall d : DfDict,
    Forall (fun p => time_frame (snd p) <> 0) d ->
    snd (on_bar pd cache content d) = None /\
    Forall (fun p => time_frame (snd p) <> 0)
           (fst (fst (on_bar pd cache content d))).
Proof.
  induction 1 as [|x rest Hx _ IH]; intros d Hd; simpl;
    [split; [reflexivity|exact Hd]|].
  assert (H1 : snd (on_bar_item pd cache x d) = None /\
               Forall (fun p => time_frame (snd p) <> 0)
                      (fst (fst (on_bar_item pd cache x d)))).
  { unfold on_bar_item. destruct (read_item x) as [item|e] eqn:Er.
    - destruct (negb _); [split; [reflexivity|exact Hd]|].
      apply on_bar_strategies_safe. exact Hd.
    - exfalso. apply (proj1 (read_item_raises x)); [eexists; exact Er|exact Hx]. }
  destruct (on_bar_item pd cache x d) as [[d' ev] exc]; simpl in H1.
  destruct H1 as [-> Hd']. specialize (IH d' Hd').
  destruct (on_bar pd cache rest d') as [[d'' ev'] exc']. exact IH.
Qed.

(** X20.  The handler raises in two ways only.  An item that cannot be
    read, because its timestamp is missing or beyond the range of a
    timestamp or its key is no string, raises out of the handler before any
    strategy sees it: the state stays as it is and the items after it are
    not looked at; an item without its timestamp raises [AttributeError].
    And one turn for a strategy raises exactly when the bar is for the
    strategy's symbol, the latch is unset and the time frame is 0, and the
    exception is [ZeroDivisionError].  So when every item is well formed
    and no strategy has time frame 0, no run of messages makes the handler
    raise, whatever the strategy functions and the aggregation do. *)
Theorem handler_exceptions (cache : Cache) :
  (forall x, (exists e, read_item x = Raise e) <-> ~ well_formed x) /\
  (forall x e rest d,
      read_item x = Raise e ->
      on_bar pd cache (x :: rest) d = (d, [], Some e)) /\
  (forall rest d,
      exists msg,
        on_bar pd cache (untimed_item :: rest) d
        = (d, [], Some (AttributeError msg))) /\
  (forall item sym sid sd e,
      on_bar_strategy pd cache item sym sid sd = Raise e <->
      sd_symbol sd = sym /\ itsTime sd = false /\ time_frame sd = 0 /\
      e = ZeroDivisionError) /\
  (forall msgs d,
      Forall (Forall well_formed) msgs ->
      Forall (fun p => time_frame (snd p) <> 0) d ->
      snd (handle_messages pd cache msgs d) = None).
Proof.
  split; [apply read_item_raises|].
  split; [intros x e rest d Hr; simpl; unfold on_bar_item; rewrite Hr;
          reflexivity|].
  split; [intros rest d; eexists; reflexivity|].
  split; [intros; apply on_bar_strategy_raises|].
  intros msgs d Hm. revert d.
  induction Hm as [|content rest Hc _ IH]; intros d Hd; simpl; [reflexivity|].
  destruct (on_bar_safe cache content Hc d Hd) as [Hexc Hd'].
  destruct (on_bar pd cache content d) as [[d' ev] exc]; simpl in *. subst exc.
  specialize (IH d' Hd').
  destruct (handle_messages pd cache rest d') as [[d'' ev'] exc']. exact IH.
Qed.

End HandlerProperties.

Section HandlerWitnesses.
Import Frame Aggregator Columns PyFloat Account Stream Props Shapes.

Lemma handler_isolates_symbols_witness :
  sd_symbol qqq_strategy = "QQQ"%string /\
  evolves (fun sd sd' => sd_symbol sd = "QQQ"%string -> sd' = sd)
          [(1, spy_strategy "smaCross" true 5); (2, qqq_strategy)]
          (fst (fst (handle_messages float64_pandas buy_cache five_minutes
                       [(1, spy_strategy "smaCross" true 5);
                        (2, qqq_strategy)]))).
Proof.
  split; [reflexivity|].
  apply (handler_isolates_symbols (pd:=float64_pandas) buy_cache five_minutes
           [(1, spy_strategy "smaCross" true 5); (2, qqq_strategy)] "QQQ").
  repeat constructor; intros s [= <-]; discriminate.
Defined.

Lemma evaluation_timing_witness :
  (bar_minute (CHART_TIME_MILLIS (spy_item sample_start)) + 1)
    mod time_frame (spy_strategy "smaCross" true 1) = 0.
Proof.
  assert (H : exists sd' ev,
             on_bar_strategy float64_pandas buy_cache (spy_item sample_start)
                             "SPY" 1 (spy_strategy "smaCross" true 1)
             = Ok (sd', ev) /\
             In (StrategyCalled 1 "smaCross" (df sd')) ev).
  { eexists; eexists. split; [vm_compute; reflexivity|].
    right. left. reflexivity. }
  destruct H as [sd' [ev [H Hin]]].
  exact (proj1 (proj2 (proj2 (proj2 (proj2
    (evaluation_timing (pd:=float64_pandas) buy_cache (spy_item sample_start)
       "SPY" 1 (spy_strategy "smaCross" true 1) sd' ev 1 "smaCross" (df sd')
       H Hin)))))).
Defined.

Lemma order_from_last_row_witness :
  exists strat_func, cache_get buy_cache "smaCross" = Some strat_func.
Proof.
  assert (H : exists sd' ev,
             on_bar_strategy float64_pandas buy_cache (spy_item sample_start)
                             "SPY" 1 (spy_strategy "smaCross" true 1)
             = Ok (sd', ev) /\
             In (OrderSent (mkCall 3 1 "SPY" 1 0 python_float "BUY")) ev).
  { eexists; eexists. split; [vm_compute; reflexivity|].
    right. right. left. reflexivity. }
  destruct H as [sd' [ev [H Hin]]].
  destruct (order_from_last_row (pd:=float64_pandas) buy_cache
              (spy_item sample_start) "SPY" 1
              (spy_strategy "smaCross" true 1) sd' ev _ H Hin)
    as [f [_ [_ [_ [_ [_ [Hf _]]]]]]].
  exists f. exact Hf.
Defined.

Lemma handler_exceptions_witness :
  snd (handle_messages float64_pandas buy_cache five_minutes
         [(1, spy_strategy "smaCross" false 5)]) = None /\
  on_bar_strategy float64_pandas buy_cache (spy_item sample_start) "SPY" 1
                  (spy_strategy "smaCross" false 0) = Raise ZeroDivisionError /\
  snd (on_bar float64_pandas buy_cache
         [mkDelivered (Some 0) KeyNotString None None None None None]
         [(1, spy_strategy "smaCross" false 5)])
  = Some (AttributeError "object has no attribute 'upper'").
Proof.
  pose proof (handler_exceptions (pd:=float64_pandas) buy_cache)
    as [_ [Hread [_ [Hzero Hsafe]]]].
  split; [|split].
  - apply Hsafe.
    + repeat constructor; try discriminate;
        eexists; (split; [reflexivity|vm_compute; discriminate]).
    + repeat constructor. discriminate.
  - apply Hzero. repeat split; reflexivity.
  - rewrite (Hread _ (AttributeError "object has no attribute 'upper'") []);
      reflexivity.
Defined.

End HandlerWitnesses.

Section StartupProperties.
Import Frame Aggregator Account Stream Props Shapes.

Lemma import_names_cache (env : Environment) (names : list string) :
  forall r : ImportReport,
    (forall n f,
        cache_get (cache_after (import_names env names r)) n = Some f <->
        cache_get (cache_after r) n = Some f \/
        (cache_get (cache_after r) n = None /\ In n names /\
         import_module env n = ModuleWithMain f)) /\
    (success_count (import_names env names r)
     + fail_count (import_names env names r)
     = success_count r + fail_count r + List.length names)%nat.
Proof.
  induction names as [|m rest IH]; intros r.
  - simpl. split; [|lia]. intros n f. split; [auto|].
    intros [H|[_ [[] _]]]. exact H.
  - destruct (import_step env r m) as [r1 [Hstep [Hc _]]].
    assert (Hcount : (success_count r1 + fail_count r1
                      = success_count r + fail_count r + 1)%nat).
    { specialize (Hstep []). simpl in Hstep.
      destruct (_import_strategy env (cache_after r) m) as [[ok c] lg].
      destruct ok; rewrite <- Hstep; simpl; lia. }
    rewrite Hstep. destruct (IH r1) as [IHc IHn].
    split; [|simpl; lia].
    intros n f. rewrite IHc, Hc. unfold _import_strategy.
    destruct (cache_get (cache_after r) m) as [g|] eqn:Em; cbn [fst snd].
    + split.
      * intros [H|[H1 [H2 H3]]]; [left; exact H|].
        right. split; [exact H1|]. split; [right; exact H2|exact H3].
      * intros [H|[H1 [[<-|H2] H3]]]; [left; exact H|congruence|].
        right. auto.
    + destruct (import_module env m) as [main| | | |] eqn:Ei; cbn [fst snd].
      * cbn [cache_get]. destruct (String.eqb n m) eqn:Enm.
        -- apply String.eqb_eq in Enm. subst n. split.
           ++ intros [[= <-]|[H _]]; [|discriminate].
              right. split; [exact Em|]. split; [left; reflexivity|exact Ei].
           ++ intros [H|[_ [_ H]]]; [congruence|]. left. congruence.
        -- apply String.eqb_neq in Enm. split.
           ++ intros [H|[H1 [H2 H3]]]; [left; exact H|].
              right. split; [exact H1|]. split; [right; exact H2|exact H3].
           ++ intros [H|[H1 [[<-|H2] H3]]]; [left; exact H|congruence|].
              right. auto.
      * split.
        -- intros [H|[H1 [H2 H3]]]; [left; exact H|].
           right. split; [exact H1|]. split; [right; exact H2|exact H3].
        -- intros [H|[H1 [[<-|H2] H3]]]; [left; exact H|congruence|]. right. auto.
      * split.
        -- intros [H|[H1 [H2 H3]]]; [left; exact H|].
           right. split; [exact H1|]. split; [right; exact H2|exact H3].
        -- intros [H|[H1 [[<-|H2] H3]]]; [left; exact H|congruence|]. right. auto.
      * split.
        -- intros [H|[H1 [H2 H3]]]; [left; exact H|].
           right. split; [exact H1|]. split; [right; exact H2|exact H3].
        -- intros [H|[H1 [[<-|H2] H3]]]; [left; exact H|congruence|]. right. auto.
      * split.
        -- intros [H|[H1 [H2 H3]]]; [left; exact H|].
           right. split; [exact H1|]. split; [right; exact H2|exact H3].
        -- intros [H|[H1 [[<-|H2] H3]]]; [left; exact H|congruence|]. right. auto.
Qed.

(** X21.  After [_import_all_strategies], started on an empty cache, the
    cache holds exactly the configured names whose module imports and has a
    [main], each with that [main]; and every distinct configured name is
    counted once, as a success or as a failure. *)
Theorem imports_complete (env : Environment) (strategy_info : list StrategyInfo) :
  (forall n f,
      cache_get (cache_after (_import_all_strategies env [] strategy_info)) n
      = Some f <->
      In n (map info_name strategy_info) /\
      import_module env n = ModuleWithMain f) /\
  (success_count (_import_all_strategies env [] strategy_info)
   + fail_count (_import_all_strategies env [] strategy_info)
   = List.length (nodup string_dec (map info_name strategy_info)))%nat.
Proof.
  destruct (import_names_cache env
              (nodup string_dec (map info_name strategy_info))
              (mkReport [] 0 0 [])) as [Hc Hn].
  unfold _import_all_strategies.
  destruct (0 <? fail_count _)%nat; cbn [cache_after success_count fail_count];
    (split; [|rewrite Hn; reflexivity]);
    intros n f; rewrite Hc; cbn [cache_after cache_get]; rewrite nodup_In;
    (split; [intros [H|[_ H]]; [discriminate|exact H]|intros H; right; auto]).
Qed.

Lemma dict_set_in (d : DfDict) (k : Z) (v : StrategyData) (p : Z * StrategyData) :
  In p (dict_set d k v) -> p = (k, v) \/ In p d.
Proof.
  induction d as [|[k' v'] r IH]; simpl.
  - intros [<-|[]]. left. reflexivity.
  - destruct (k =? k').
    + intros [<-|H]; [left; reflexivity|right; right; exact H].
    + intros [<-|H]; [right; left; reflexivity|].
      destruct (IH H) as [->|H']; [left; reflexivity|right; right; exact H'].
Qed.

Lemma dict_set_keys (d : DfDict) (k k' : Z) (v : StrategyData) :
  In k' (map fst (dict_set d k v)) <-> k' = k \/ In k' (map fst d).
Proof.
  induction d as [|[k0 v0] r IH]; simpl.
  - split; [intros [<-|[]]; left; reflexivity|intros [->|[]]; left; reflexivity].
  - destruct (k =? k0) eqn:E; simpl.
    + apply Z.eqb_eq in E. subst k0. split.
      * intros [<-|H]; [left; reflexivity|right; right; exact H].
      * intros [->|[<-|H]]; [left; reflexivity|left; reflexivity|right; exact H].
    + rewrite IH. split.
      * intros [<-|[->|H]]; auto.
      * intros [->|[<-|H]]; auto.
Qed.

Lemma initial_df_app (env : Environment) (pre rest : list StrategyInfo) :
  Forall (history_ok env) pre ->
  forall d, _initial_df env (pre ++ rest) d
            = _initial_df env rest (_initial_df env pre d).
Proof.
  induction 1 as [|strat pre [h Hh] _ IH]; intros d; simpl; [reflexivity|].
  rewrite Hh. apply IH.
Qed.

Lemma initial_df_entries (env : Environment) (all : list StrategyInfo) :
  forall (infos : list StrategyInfo) (d : DfDict),
    incl infos all ->
    (forall p, In p d -> exists strat, In strat all /\ entry_of strat p) ->
    forall p, In p (_initial_df env infos d) ->
              exists strat, In strat all /\ entry_of strat p.
Proof.
  induction infos as [|strat rest IH]; intros d Hincl Hd p; simpl; [apply Hd|].
  destruct (charles_get_candles env _ _ _) as [h|e]; [|apply Hd].
  apply IH.
  - intros s Hs. apply Hincl. right. exact Hs.
  - intros q Hq. apply dict_set_in in Hq as [->|Hq]; [|apply Hd; exact Hq].
    exists strat. split; [apply Hincl; left; reflexivity|].
    repeat split; reflexivity.
Qed.

Lemma initial_df_keys (env : Environment) (infos : list StrategyInfo) :
  Forall (history_ok env) infos ->
  forall d k,
    In k (map fst (_initial_df env infos d)) <->
    In k (map info_id infos) \/ In k (map fst d).
Proof.
  induction 1 as [|strat rest [h Hh] _ IH]; intros d k; simpl.
  - split; [auto|intros [[]|H]; exact H].
  - rewrite Hh, IH, dict_set_keys. split.
    + intros [H|[->|H]]; auto.
    + intros [[<-|H]|H]; auto.
Qed.

(** X22.  [_initial_df] stops at the first strategy whose candle history
    cannot be fetched: that strategy and all the strategies configured
    after it get no entry in [df_dict], even those whose history is there.
    Every entry it makes has its latch unset and carries the name, the
    upper-cased symbol and order type, and the time frame of a configured
    strategy; and when every history can be fetched, the ids of [df_dict]
    are exactly the configured ids. *)
Theorem initial_df_stops_at_failure (env : Environment)
  (pre post : list StrategyInfo) (strat : StrategyInfo) :
  Forall (history_ok env) pre ->
  (~ history_ok env strat ->
   _initial_df env (pre ++ strat :: post) [] = _initial_df env pre []) /\
  (forall p, In p (_initial_df env pre []) ->
             exists s, In s pre /\ entry_of s p) /\
  (forall k, In k (map fst (_initial_df env pre [])) <-> In k (map info_id pre)).
Proof.
  intros Hpre. split; [|split].
  - intros Hfail. rewrite (initial_df_app env pre _ Hpre). simpl.
    destruct (charles_get_candles env _ _ _) as [h|e] eqn:E; [|reflexivity].
    exfalso. apply Hfail. exists h. exact E.
  - apply (initial_df_entries env pre pre []); [apply incl_refl|intros p []].
  - intros k. rewrite (initial_df_keys env pre Hpre). simpl. tauto.
Qed.

Lemma initial_df_stops_at_failure_witness :
  map fst (_initial_df spy_only_env three_infos []) = [1].
Proof.
  assert (Hpre : Forall (history_ok spy_only_env)
                        [mkInfo 1 "smaCross" "spy" "market" 5 10 0]).
  { constructor; [|constructor]. eexists. reflexivity. }
  assert (Hfail : ~ history_ok spy_only_env
                      (mkInfo 2 "smaCross" "qqq" "market" 5 10 0)).
  { intros [h Hh]. discriminate. }
  exact (eq_trans
           (f_equal (map fst)
              (proj1 (initial_df_stops_at_failure spy_only_env
                        [mkInfo 1 "smaCross" "spy" "market" 5 10 0]
                        [mkInfo 3 "smaCross" "spy" "limit" 1 10 0]
                        (mkInfo 2 "smaCross" "qqq" "market" 5 10 0) Hpre) Hfail))
           eq_refl).
Defined.

End StartupProperties.


(** ** The message loop *)

Section MessageLoopProperties.
Import MessageLoop.

Lemma count_le (p q : Received -> bool) (feed : list Received) :
  (forall r, p r = true -> q r = true) ->
  (count p feed <= count q feed)%nat.
Proof.
  intros Hpq. unfold count. induction feed as [|r l IH]; [apply le_n|].
  cbn [filter]. destruct (p r) eqn:Ep.
  - rewrite (Hpq r Ep). cbn [List.length]. lia.
  - destruct (q r); cbn [List.length]; lia.
Qed.

Lemma message_loop_counts (feed : list Received) (st : LoopState) :
  let st' := fst (message_loop feed st) in
  handled st' = (handled st + count is_handled (before_fatal feed))%nat /\
  logins st' = (logins st + count is_closed_ok (before_fatal feed))%nat /\
  registrations st' = (registrations st + count past_login (before_fatal feed))%nat /\
  subscriptions st' = (subscriptions st + count reconnected (before_fatal feed))%nat /\
  slept st <= slept st' /\
  slept st' - slept st >= Z.of_nat (count is_closed_ok (before_fatal feed)).
Proof.
  revert st. unfold count.
  induction feed as [|r rest IH]; intros st; cbn zeta.
  - cbn. repeat split; lia.
  - destruct r as [|[| |]| |]; cbn [message_loop before_fatal fatal];
      try (cbn; repeat split; lia);
      match goal with
      | |- context [message_loop rest ?s] =>
          destruct (IH s) as (H1 & H2 & H3 & H4 & H5 & H6)
      end;
      cbn [handled logins registrations subscriptions slept] in *;
      cbn [filter is_handled is_closed_ok past_login reconnected List.length];
      rewrite ?H1, ?H2, ?H3, ?H4; repeat split; lia.
Qed.

Lemma message_loop_code (feed : list Received) (st : LoopState) :
  snd (message_loop feed st) = if existsb fatal feed then Some 1 else None.
Proof.
  revert st. induction feed as [|r rest IH]; intros st; [reflexivity|].
  destruct r as [|[| |]| |]; cbn [message_loop existsb fatal orb];
    try reflexivity; apply IH.
Qed.

(** X23.  The message loop of [run_stream] leaves only through
    [sys.exit(1)]: it exits, with code 1, exactly when the stream delivers
    a closure that is not a normal one or any other exception, and the
    messages handled are the ones delivered before the first such event;
    whatever comes after it is never handled. *)
Theorem message_loop_stops_at_first_fatal (feed : list Received) :
  let (st, code) := message_loop feed loop_start in
  code = (if existsb fatal feed then Some 1 else None) /\
  code <> Some 0 /\
  handled st = count is_handled (before_fatal feed).
Proof.
  pose proof (message_loop_code feed loop_start) as Hc.
  pose proof (message_loop_counts feed loop_start) as Hn.
  destruct (message_loop feed loop_start) as [st code].
  cbn [fst snd] in *. cbv zeta in Hn. destruct Hn as (H1 & _).
  split; [exact Hc|]. split.
  - rewrite Hc. destruct (existsb fatal feed); discriminate.
  - rewrite H1. reflexivity.
Qed.

(** X24.  Every normal closure before the first fatal event costs one more
    call of [stream.login] and at least a second of sleep, and every
    reconnection that gets past the login registers [on_bar] once more:
    after [k] successful reconnections the handler is registered at least
    [k + 1] times, and never less often than the symbols are subscribed. *)
Theorem message_loop_reconnects (feed : list Received) :
  let st := fst (message_loop feed loop_start) in
  logins st = S (count is_closed_ok (before_fatal feed)) /\
  registrations st = S (count past_login (before_fatal feed)) /\
  subscriptions st = S (count reconnected (before_fatal feed)) /\
  (subscriptions st <= registrations st <= logins st)%nat /\
  slept st >= Z.of_nat (count is_closed_ok (before_fatal feed)).
Proof.
  pose proof (message_loop_counts feed loop_start) as Hn.
  cbv zeta in *. destruct Hn as (_ & H2 & H3 & H4 & H5 & H6).
  cbn [loop_start logins registrations subscriptions slept] in *.
  rewrite H2, H3, H4. repeat split; try reflexivity; try lia.
  - apply le_n_S, count_le. intros [|[| |]| |]; cbn; congruence.
  - apply le_n_S, count_le. intros [|[| |]| |]; cbn; congruence.
Qed.

End MessageLoopProperties.

(** ** The account check *)

Section AccountCheckProperties.
Import Account Accounts.

Lemma find_account_found (l : list json) (acc_num : string) :
  find_account l acc_num = true ->
  exists pre m post,
    l = pre ++ JsObject m :: post /\ all_objects pre /\
    js_get m "hashValue" = Some (JsString acc_num).
Proof.
  induction l as [|x l IH]; [discriminate|].
  destruct x as [| | | | |m]; try discriminate.
  cbn [find_account].
  destruct (js_get m "hashValue") as [[| | |h| |]|] eqn:Eg;
    try (intros H; destruct (IH H) as (pre & m' & post & -> & Hpre & Hm);
         exists (JsObject m :: pre), m', post;
         split; [reflexivity|split; [|exact Hm]];
         intros y [<-|Hy]; [eexists; reflexivity|exact (Hpre y Hy)]).
  destruct (String.eqb_spec acc_num h) as [->|Hne].
  - intros _. exists [], m, l. split; [reflexivity|]. split; [intros y []|exact Eg].
  - intros H; destruct (IH H) as (pre & m' & post & -> & Hpre & Hm).
    exists (JsObject m :: pre), m', post.
    split; [reflexivity|split; [|exact Hm]].
    intros y [<-|Hy]; [eexists; reflexivity|exact (Hpre y Hy)].
Qed.

Lemma find_account_finds (pre post : list json) (m : list (string * json))
  (acc_num : string) :
  all_objects pre ->
  js_get m "hashValue" = Some (JsString acc_num) ->
  find_account (pre ++ JsObject m :: post) acc_num = true.
Proof.
  intros Hpre Hm. induction pre as [|x pre IH].
  - cbn [app find_account]. rewrite Hm, String.eqb_refl. reflexivity.
  - destruct (Hpre x (or_introl eq_refl)) as [m0 ->].
    assert (IH' : find_account (pre ++ JsObject m :: post) acc_num = true).
    { apply IH. intros y Hy. apply Hpre. right. exact Hy. }
    change ((JsObject m0 :: pre) ++ JsObject m :: post)
      with (JsObject m0 :: (pre ++ JsObject m :: post)).
    cbn [find_account].
    destruct (js_get m0 "hashValue") as [[| | |h| |]|]; try exact IH'.
    destruct (String.eqb acc_num h); [reflexivity|exact IH'].
Qed.

Lemma fetch_accounts_array (o : get_outcome) (l : list json) :
  fst (fetch_accounts o) = JsArray l -> l <> [] ->
  exists status,
    o = GetResponse status (Some (JsArray l)) /\
    (400 <=? status) && (status <? 600) = false.
Proof.
  intros H Hl.
  destruct o as [| | | |status body]; cbn in H;
    try (injection H as <-; contradiction).
  destruct ((400 <=? status) && (status <? 600)) eqn:Es;
    [cbn in H; injection H as <-; contradiction|].
  destruct body as [accounts|]; [|cbn in H; injection H as <-; contradiction].
  destruct accounts; cbn in H; try (injection H as <-; contradiction);
    try discriminate.
  injection H as ->. exists status. split; [reflexivity|exact Es].
Qed.

(** X25.  [check_valid_acc_num] answers [True] exactly when the account
    number is not empty, the request was answered with a status that is no
    error and a JSON list, and the list holds an object whose ["hashValue"]
    is the account number with nothing but objects before it.  So a failed
    request, an error status, a body that is no list never validate an
    account, and an element that is no object hides the accounts listed
    after it. *)
Theorem check_valid_acc_num_iff (o : get_outcome) (acc_num : string) :
  check_valid_acc_num o acc_num = true <->
  nonempty acc_num = true /\
  exists status pre m post,
    o = GetResponse status (Some (JsArray (pre ++ JsObject m :: post))) /\
    (400 <=? status) && (status <? 600) = false /\
    all_objects pre /\
    js_get m "hashValue" = Some (JsString acc_num).
Proof.
  unfold check_valid_acc_num. split.
  - destruct (nonempty acc_num) eqn:Ea; [|discriminate].
    cbn [negb]. destruct (fst (fetch_accounts o)) as [| | | |l|] eqn:Ef;
      try (destruct (negb _); discriminate).
    destruct (negb (truthy (JsArray l))) eqn:Et; [discriminate|].
    intros Hfind. split; [reflexivity|].
    destruct (find_account_found l acc_num Hfind) as (pre & m & post & -> & Hpre & Hm).
    destruct (fetch_accounts_array o _ Ef) as (status & -> & Hs).
    { destruct pre; discriminate. }
    exists status, pre, m, post. repeat split; assumption.
  - intros (Ha & status & pre & m & post & -> & Hs & Hpre & Hm).
    rewrite Ha. cbn [negb fetch_accounts]. rewrite Hs.
    cbn [py_len fst].
    assert (Ht : truthy (JsArray (pre ++ JsObject m :: post)) = true)
      by (destruct pre; reflexivity).
    rewrite Ht. cbn [negb].
    apply find_account_finds; assumption.
Qed.

End AccountCheckProperties.

(** ** The token refresher *)

Section TokenProperties.
Import Account Tokens.

Lemma env_get_set_key_same (env : EnvFile) (k v : string) :
  env_get (set_key env k v) k = Some v.
Proof.
  induction env as [|[k' v'] env IH]; cbn [set_key env_get].
  - rewrite String.eqb_refl. reflexivity.
  - destruct (String.eqb k k') eqn:E; cbn [env_get].
    + rewrite String.eqb_refl. reflexivity.
    + rewrite E. exact IH.
Qed.

Lemma env_get_set_key_other (env : EnvFile) (k v k0 : string) :
  String.eqb k0 k = false ->
  env_get (set_key env k v) k0 = env_get env k0.
Proof.
  intros Hne. induction env as [|[k' v'] env IH]; cbn [set_key env_get].
  - rewrite Hne. reflexivity.
  - destruct (String.eqb_spec k k') as [<-|Hk]; cbn [env_get].
    + rewrite Hne. reflexivity.
    + destruct (String.eqb k0 k'); [reflexivity|exact IH].
Qed.

Lemma credentials_two_types (c : Credentials) (token_dict : TokenDict) :
  _load_and_validate_credentials c = Some token_dict -> two_types token_dict.
Proof.
  unfold _load_and_validate_credentials.
  destruct (negb _); [discriminate|]. destruct (negb _); [discriminate|].
  intros H. injection H as <-. repeat eexists.
Qed.

Lemma refused_returns (o : token_outcome) (r : string) :
  refused o = true -> get_new_access_token o r = Returned (None, r, None).
Proof.
  destruct o as [|status tokens]; [reflexivity|]. cbn [refused get_new_access_token].
  destruct (status =? 200); [discriminate|reflexivity].
Qed.

Lemma incomplete_raises (o : token_outcome) (r : string) :
  incomplete o = true -> exists k, get_new_access_token o r = KeyError k.
Proof.
  destruct o as [|status tokens]; [discriminate|]. cbn [incomplete get_new_access_token].
  destruct (status =? 200); [|discriminate].
  destruct (access_token tokens); [|eexists; reflexivity].
  destruct (expires_in tokens); [discriminate|eexists; reflexivity].
Qed.



Ltac env_simpl :=
  unfold write_tokens;
  cbn [String.eqb Ascii.eqb Bool.eqb];
  repeat match goal with
         | |- context [token_json_writable ?f] =>
             is_var f; destruct (token_json_writable f)
         end;
  cbn [env_file token_json errors token_json_writable String.append];
  repeat (rewrite env_get_set_key_same
          || rewrite env_get_set_key_other by reflexivity).

(** X26.  A token type that the endpoint does not renew (the request fails
    or the status is not 200) keeps what it had: [refresh_tokens_once]
    leaves its two keys of the [.env] file as they were, whatever happens
    to the other type, and when the type is TRADING [token.json] is not
    written. *)
Theorem refused_type_untouched (c : Credentials) (answer : string -> token_outcome)
  (now1 now2 : Z) (f f' : Files) (token_type : string) :
  In token_type ["TRADING"%string; "MARKET_DATA"%string] ->
  refused (answer token_type) = true ->
  refresh_tokens_once c answer now1 now2 f = Some f' ->
  env_get (env_file f') (token_type ++ "_ACCESS_TOKEN")
  = env_get (env_file f) (token_type ++ "_ACCESS_TOKEN") /\
  env_get (env_file f') (token_type ++ "_REFRESH_TOKEN")
  = env_get (env_file f) (token_type ++ "_REFRESH_TOKEN") /\
  (token_type = "TRADING"%string -> token_json f' = token_json f).
Proof.
  intros Hin Href. unfold refresh_tokens_once.
  destruct (_load_and_validate_credentials c) as [td|] eqn:Ec; [|discriminate].
  destruct (credentials_two_types c td Ec) as (a & b & r & a' & b' & r' & ->).
  intros H. injection H as <-.
  destruct Hin as [<-|[<-|[]]]; cbn [refresh_each].
  - rewrite (refused_returns _ r Href).
    destruct (get_new_access_token (answer "MARKET_DATA"%string) r')
      as [[[[s|] nr] e]|k]; env_simpl; repeat split; reflexivity.
  - rewrite (refused_returns _ r' Href).
    destruct (get_new_access_token (answer "TRADING"%string) r)
      as [[[[s|] nr] e]|k]; env_simpl;
      (split; [reflexivity|split; [reflexivity|discriminate]]).
Qed.

Lemma refused_type_untouched_witness :
  env_get (env_file (refresh_each trading_refused 100 100
                       [("TRADING"%string, ("ak", "sk", "rt"));
                        ("MARKET_DATA"%string, ("mak", "msk", "mrt"))]%string
                       (mkFiles full_env None 0 true)))
          "TRADING_REFRESH_TOKEN"
  = Some "rt"%string.
Proof.
  exact (proj1 (proj2 (refused_type_untouched full_credentials trading_refused
                         100 100 (mkFiles full_env None 0 true) _ "TRADING"
                         (or_introl eq_refl) eq_refl eq_refl))).
Defined.



(** X28.  A 200 answer for TRADING that lacks [access_token] or
    [expires_in] ends [refresh_tokens_once] at once: nothing is written to
    the [.env] file or to [token.json], one error is logged, and
    MARKET_DATA is not refreshed although its turn had not come. *)
Theorem incomplete_body_aborts (c : Credentials) (answer : string -> token_outcome)
  (now1 now2 : Z) (f f' : Files) :
  incomplete (answer "TRADING"%string) = true ->
  refresh_tokens_once c answer now1 now2 f = Some f' ->
  env_file f' = env_file f /\ token_json f' = token_json f /\
  errors f' = S (errors f).
Proof.
  intros Hinc. unfold refresh_tokens_once.
  destruct (_load_and_validate_credentials c) as [td|] eqn:Ec; [|discriminate].
  destruct (credentials_two_types c td Ec) as (a & b & r & a' & b' & r' & ->).
  intros H. injection H as <-. cbn [refresh_each].
  destruct (incomplete_raises _ r Hinc) as [k ->].
  repeat split.
Qed.

Lemma incomplete_body_aborts_witness :
  env_file (refresh_each trading_incomplete 100 100
              [("TRADING"%string, ("ak", "sk", "rt"));
               ("MARKET_DATA"%string, ("mak", "msk", "mrt"))]%string
              (mkFiles full_env None 0 true))
  = full_env.
Proof.
  exact (proj1 (incomplete_body_aborts full_credentials trading_incomplete
                  100 100 (mkFiles full_env None 0 true) _ eq_refl eq_refl)).
Defined.

Lemma in_sync_two (a b r a' b' r' : string) (f : Files) :
  in_sync [("TRADING"%string, (a, b, r)); ("MARKET_DATA"%string, (a', b', r'))] f <->
  env_get (env_file f) "TRADING_REFRESH_TOKEN" = Some r /\
  env_get (env_file f) "MARKET_DATA_REFRESH_TOKEN" = Some r'.
Proof.
  unfold in_sync. split.
  - intros H. split.
    + apply (H "TRADING"%string a b r). left. reflexivity.
    + apply (H "MARKET_DATA"%string a' b' r'). right. left. reflexivity.
  - intros [H1 H2] tt ak sk rt [H|[H|[]]]; injection H as <- <- <- <-; assumption.
Qed.

Lemma refresh_pass_sync (answer : string -> token_outcome) (now1 now2 : Z)
  (td td' : TokenDict) (f f' : Files) (finished : bool) :
  two_types td -> in_sync td f ->
  refresh_pass answer now1 now2 td f = (td', f', finished) ->
  two_types td' /\ in_sync td' f'.
Proof.
  intros (a & b & r & a' & b' & r' & ->) Hsync.
  apply in_sync_two in Hsync. destruct Hsync as [H1 H2].
  cbn [refresh_pass].
  destruct (get_new_access_token (answer "TRADING"%string) r)
    as [[[[s|] nr] e]|k];
    destruct (get_new_access_token (answer "MARKET_DATA"%string) r')
      as [[[[s'|] nr'] e']|k'];
    intros H; injection H as <- <- <-;
    (split; [repeat eexists|]); apply in_sync_two; env_simpl;
    split; assumption || reflexivity.
Qed.

Lemma refresh_rounds_sync (rounds : nat) :
  forall (i : nat) (interval_min : Z) (answer : nat -> string -> token_outcome)
         (now1 now2 : nat -> Z) (td : TokenDict) (f : Files) (slept : Z),
    two_types td -> in_sync td f ->
    let '(td', f', _) :=
      refresh_rounds rounds i interval_min answer now1 now2 td f slept in
    two_types td' /\ in_sync td' f'.
Proof.
  induction rounds as [|k IH]; intros i interval_min answer now1 now2 td f slept Ht Hs.
  - cbn. split; assumption.
  - cbn [refresh_rounds].
    destruct (refresh_pass (answer i) (now1 i) (now2 i) td f)
      as [[td1 f1] fin] eqn:Ep.
    destruct (refresh_pass_sync _ _ _ _ _ _ _ _ Ht Hs Ep) as [Ht1 Hs1].
    apply IH; assumption.
Qed.

(** X29.  The refresh loop keeps memory and file in step: if the refresh
    tokens read at start are the ones in the [.env] file, then after any
    number of turns of [tokens_refresh_loop], whatever the endpoint
    answered in each (renewal with or without a new refresh token, refusal,
    an incomplete body that ends the turn early), the refresh token held in
    memory for each type is the one in the [.env] file, so the next request
    is made with the token last written. *)
Theorem refresh_loop_in_sync (c : Credentials) (token_dict : TokenDict) (f : Files)
  (rounds : nat) (interval_min : Z) (answer : nat -> string -> token_outcome)
  (now1 now2 : nat -> Z) :
  _load_and_validate_credentials c = Some token_dict ->
  in_sync token_dict f ->
  exists token_dict' f' slept,
    tokens_refresh_loop rounds interval_min c answer now1 now2 f
    = Some (token_dict', f', slept) /\
    map fst token_dict' = ["TRADING"%string; "MARKET_DATA"%string] /\
    in_sync token_dict' f'.
Proof.
  intros Hc Hs. unfold tokens_refresh_loop. rewrite Hc.
  pose proof (refresh_rounds_sync rounds 0 interval_min answer now1 now2
                token_dict f 0 (credentials_two_types c _ Hc) Hs) as H.
  destruct (refresh_rounds rounds 0 interval_min answer now1 now2 token_dict f 0)
    as [[td' f'] slept].
  destruct H as [(a & b & r & a' & b' & r' & ->) Hs'].
  eexists _, f', slept. split; [reflexivity|]. split; [reflexivity|exact Hs'].
Qed.

Lemma refresh_loop_in_sync_witness :
  exists token_dict' f' slept,
    tokens_refresh_loop 3 25 full_credentials (fun _ => rotating)
      (fun _ => 100) (fun _ => 100) (mkFiles full_env None 0 true)
    = Some (token_dict', f', slept) /\
    map fst token_dict' = ["TRADING"%string; "MARKET_DATA"%string] /\
    in_sync token_dict' f'.
Proof.
  apply (refresh_loop_in_sync full_credentials
           [("TRADING"%string, ("ak", "sk", "rt"));
            ("MARKET_DATA"%string, ("mak", "msk", "mrt"))]%string
           (mkFiles full_env None 0 true) 3 25 (fun _ => rotating)
           (fun _ => 100) (fun _ => 100) eq_refl).
  intros tt ak sk rt [H|[H|[]]]; injection H as <- <- <- <-; reflexivity.
Defined.

End TokenProperties.
